(** * xraysloth: the sagittal-focusing test of [examples/rowland_sagittal_tests.py]

    A shallow embedding of the class [TestSagittalFocusing]: the record
    ingestion [read_data], the selector [get_dats], the geometry helpers
    and the evaluations [eval_data_th0s], [eval_data_rs],
    [eval_data_dists], [eval_data] and [eval_data_loop_ang], followed by
    the vocabulary of the properties and the properties themselves.

    Conventions of the embedding.
    - A Python exception is a value of [exn]; a call that may raise
      returns an [outcome].
    - [print] appends a [message] to a log that the functions return.
      The ERROR lines, the INFO line of [eval_data_th0s] and the line
      of [get_dats] are kept; the tables printed under [showInfos] and
      the plots carry no control flow and are left out.
    - A [dict] is a list of bindings in insertion order, as Python
      iterates it.
    - A field of a csv row is kept by its lexical class ([cell]).
    - Numbers: ingestion and selection are generic in the type of float
      values ([PyFloat]); the geometry is stated on real numbers
      extended with the infinities and NaN that numpy returns on a zero
      divisor ([float64]).  Rounding and overflow are not modelled. *)

From Stdlib Require Import List ZArith Lia Bool String Ascii Reals Lra.
From Stdlib Require Import Permutation Sorted.
Import ListNotations.

Set Implicit Arguments.

(** ** Exceptions and outcomes *)

Inductive exn : Type :=
| IndexError
| ValueError
| KeyError
| NameError
| AttributeError
| TypeError
| ZeroDivisionError.

Inductive outcome (A : Type) : Type :=
| Returned (a : A)
| Raised (e : exn).

Arguments Returned {A} a.
Arguments Raised {A} e.

Definition obind {A B : Type} (o : outcome A) (k : A -> outcome B) : outcome B :=
match o with
| Returned a => k a
| Raised e => Raised e
end.

(** ** Python dictionaries *)

Module Dict.
Section Dict.
Context {K V : Type}.
Variable eqb : K -> K -> bool.

Definition t : Type := list (K * V).

(** [d[k]], [None] when the key is absent (a KeyError at the call site) *)
Fixpoint get (k : K) (d : t) : option V :=
  match d with
  | [] => None
  | (k', v) :: d' => if eqb k k' then Some v else get k d'
  end.

(** [d[k] = v]: an existing key keeps its place, a new one goes last *)
Fixpoint set (k : K) (v : V) (d : t) : t :=
  match d with
  | [] => [(k, v)]
  | (k', v') :: d' => if eqb k k' then (k', v) :: d' else (k', v') :: set k v d'
  end.

Definition keys (d : t) : list K := map fst d.
End Dict.
End Dict.

(** ** Float values

  What ingestion and selection need of a float: the value [0.0], the
  conversion [float(n)] of an integer, the comparisons [==] and [<],
  and a decision of whether two floats print the same ([str]). *)

Class PyFloat (F : Type) : Type := {
float_zero : F;
float_of_int : Z -> F;
float_eqb : F -> F -> bool;
float_ltb : F -> F -> bool;
float_same_repr : F -> F -> bool
}.

#[export] Instance PyFloat_Z : PyFloat Z := {
float_zero := 0%Z;
float_of_int := fun z => z;
float_eqb := Z.eqb;
float_ltb := Z.ltb;
float_same_repr := Z.eqb
}.

(** ** Rows of the csv reader *)

Section Ingest.
Context {F : Type} `{PyFloat F}.

(** A field: an integer literal (accepted by [int] and by [float]), a
    float literal that is not an integer literal (accepted by [float]
    only), or any other text (accepted by neither). *)
Inductive cell : Type :=
| CInt (z : Z)
| CFloat (f : F)
| CText (s : string).

Definition row : Type := list cell.

Definition py_int (c : cell) : outcome Z :=
  match c with
  | CInt z => Returned z
  | CFloat _ | CText _ => Raised ValueError
  end.

Definition py_float (c : cell) : outcome F :=
  match c with
  | CInt z => Returned (float_of_int z)
  | CFloat f => Returned f
  | CText _ => Raised ValueError
  end.

(** [row[i]] for [i >= 0] *)
Definition row_item (r : row) (i : nat) : outcome cell :=
  match nth_error r i with
  | Some c => Returned c
  | None => Raised IndexError
  end.

(** [row[0][0] == '#'] *)
Definition is_comment (r : row) : outcome bool :=
  obind (row_item r 0) (fun c =>
    match c with
    | CInt _ | CFloat _ => Returned false
    | CText EmptyString => Raised IndexError
    | CText (String a _) => Returned (Ascii.eqb a "#"%char)
    end).

(** [row[-3:]] *)
Definition last3 (r : row) : row := skipn (List.length r - 3) r.

(** A value bound to [_bpos]: the integer it starts with or a float. *)
Inductive pyval : Type :=
| PyInt (z : Z)
| PyFloat_ (f : F).

(** [str(v)], kept as the value it prints: [str] of an integer never
    equals [str] of a float. *)
Inductive pystr : Type :=
| Str (v : pyval).

Definition pystr_eqb (a b : pystr) : bool :=
  match a, b with
  | Str (PyInt x), Str (PyInt y) => Z.eqb x y
  | Str (PyFloat_ x), Str (PyFloat_ y) => float_same_repr x y
  | _, _ => false
  end.

(** [float(s)] of a key *)
Definition float_of_str (s : pystr) : F :=
  match s with
  | Str (PyInt z) => float_of_int z
  | Str (PyFloat_ f) => f
  end.

(** ** The Dataset *)

Definition point : Type := (F * F * F)%type.
Definition points : Type := list point.
Definition apos_t : Type := list (pystr * points).
Definition runs_t : Type := list (Z * apos_t).
Definition dataset : Type := list (Z * runs_t).

(** [np.zeros(pts_shape)] with [pts_shape = (N, 3)] *)
Definition np_zeros (N : nat) : points :=
  repeat (float_zero, float_zero, float_zero) N.

Fixpoint list_set {A : Type} (l : list A) (i : nat) (x : A) : list A :=
  match l, i with
  | [], _ => []
  | _ :: l', O => x :: l'
  | y :: l', S i' => y :: list_set l' i' x
  end.

(** [_pts[pt] = xyz]: a negative index counts from the end, an index
    out of range raises; [xyz] must hold three values. *)
Definition array_setitem (a : points) (pt : Z) (xyz : list F) : outcome points :=
  let n := Z.of_nat (List.length a) in
  let i := if (pt <? 0)%Z then (pt + n)%Z else pt in
  if ((0 <=? i)%Z && (i <? n)%Z)%bool then
    match xyz with
    | [x; y; z] => Returned (list_set a (Z.to_nat i) (x, y, z))
    | _ => Raised ValueError
    end
  else Raised IndexError.

Fixpoint map_float (cs : list cell) : outcome (list F) :=
  match cs with
  | [] => Returned []
  | c :: cs' =>
      obind (py_float c) (fun x =>
      obind (map_float cs') (fun xs => Returned (x :: xs)))
  end.

(** ** The local variables of [read_data] *)

Record locals : Type := mkLocals {
  _pts : points;
  _apos : apos_t;
  _runs : runs_t;
  _bpos : pyval;
  _ptx : bool;
  _rnx : Z;
  _angx : Z;
  _frun : bool;
  angs : dataset
}.

Definition set_pts v s := mkLocals v (_apos s) (_runs s) (_bpos s) (_ptx s) (_rnx s) (_angx s) (_frun s) (angs s).
Definition set_apos v s := mkLocals (_pts s) v (_runs s) (_bpos s) (_ptx s) (_rnx s) (_angx s) (_frun s) (angs s).
Definition set_runs v s := mkLocals (_pts s) (_apos s) v (_bpos s) (_ptx s) (_rnx s) (_angx s) (_frun s) (angs s).
Definition set_bpos v s := mkLocals (_pts s) (_apos s) (_runs s) v (_ptx s) (_rnx s) (_angx s) (_frun s) (angs s).
Definition set_ptx v s := mkLocals (_pts s) (_apos s) (_runs s) (_bpos s) v (_rnx s) (_angx s) (_frun s) (angs s).
Definition set_rnx v s := mkLocals (_pts s) (_apos s) (_runs s) (_bpos s) (_ptx s) v (_angx s) (_frun s) (angs s).
Definition set_angx v s := mkLocals (_pts s) (_apos s) (_runs s) (_bpos s) (_ptx s) (_rnx s) v (_frun s) (angs s).
Definition set_frun v s := mkLocals (_pts s) (_apos s) (_runs s) (_bpos s) (_ptx s) (_rnx s) (_angx s) v (angs s).
Definition set_angs v s := mkLocals (_pts s) (_apos s) (_runs s) (_bpos s) (_ptx s) (_rnx s) (_angx s) (_frun s) v.

Definition init_locals (N : nat) : locals :=
  mkLocals (np_zeros N) [] [] (PyInt 0) false 0%Z 0%Z true [].

(** Statements over the locals: a statement ends normally or raises,
    and the assignments made before a raise stay made. *)
Definition stmt (A : Type) : Type := locals -> outcome A * locals.

Definition ret {A : Type} (a : A) : stmt A := fun s => (Returned a, s).
Definition bind {A B : Type} (c : stmt A) (k : A -> stmt B) : stmt B :=
  fun s => match c s with
           | (Returned a, s') => k a s'
           | (Raised e, s') => (Raised e, s')
           end.
Definition eval {A : Type} (o : outcome A) : stmt A := fun s => (o, s).
Definition read {A : Type} (f : locals -> A) : stmt A := fun s => (Returned (f s), s).
Definition assign (f : locals -> locals) : stmt unit := fun s => (Returned tt, f s).
Definition when (b : bool) (c : stmt unit) : stmt unit := if b then c else ret tt.

Notation "x <- c1 ;; c2" := (bind c1 (fun x => c2))
  (at level 61, c1 at next level, right associativity).
Notation "c1 ;; c2" := (bind c1 (fun _ => c2))
  (at level 61, right associativity).

(** ** [read_data] *)

(** What the methods print. *)
Inductive message : Type :=
| ErrorReadingLine (n : nat) (r : row)
| InfoDataForPosition (p : F)
| ErrorPlaneNotSet
| ErrorGettingTheta0
| InfoPlaneSet.

(** The body of the [try] for one data row; [N] is [pts_shape[0]]. *)
Definition row_body (N : nat) (r : row) : stmt unit :=
  assign (set_frun true) ;;
  ang <- eval (obind (row_item r 1) py_int) ;;
  run <- eval (obind (row_item r 2) py_int) ;;
  pos <- eval (obind (row_item r 3) py_float) ;;
  pt <- eval (obind (row_item r 4) py_int) ;;
  ptx <- read _ptx ;;
  when ptx
    (assign (fun s => set_apos (Dict.set pystr_eqb (Str (_bpos s)) (_pts s) (_apos s)) s) ;;
     assign (set_ptx false) ;;
     assign (set_pts (np_zeros N))) ;;
  xyz <- eval (map_float (last3 r)) ;;
  pts <- read _pts ;;
  pts' <- eval (array_setitem pts pt xyz) ;;
  assign (set_pts pts') ;;
  when (pt =? Z.of_nat N - 1)%Z
    (assign (set_bpos (PyFloat_ pos)) ;;
     assign (set_ptx true)) ;;
  rnx <- read _rnx ;;
  when (negb (run =? rnx)%Z)
    (assign (fun s => set_runs (Dict.set Z.eqb (_rnx s) (_apos s) (_runs s)) s) ;;
     assign (set_rnx run) ;;
     assign (set_apos []) ;;
     assign (set_frun false)) ;;
  angx <- read _angx ;;
  when (negb (ang =? angx)%Z)
    (frun <- read _frun ;;
     when frun
       (assign (fun s => set_runs (Dict.set Z.eqb (_rnx s) (_apos s) (_runs s)) s) ;;
        assign (set_apos [])) ;;
     assign (fun s => set_angs (Dict.set Z.eqb (_angx s) (_runs s) (angs s)) s) ;;
     assign (set_angx ang) ;;
     assign (set_rnx 0%Z) ;;
     assign (set_runs [])).

(** The [for irow, row in enumerate(fr)] loop from row number [irow] on.
    A comment row is skipped; the comment test stands outside the [try],
    so what it raises leaves the method; an exception of the body is
    caught, reported with the 1-based row number, and ends the loop. *)
Fixpoint read_rows (N : nat) (irow : nat) (rows : list row) (s : locals)
  : outcome (locals * list message) :=
  match rows with
  | [] => Returned (s, [])
  | r :: rest =>
      match is_comment r with
      | Raised e => Raised e
      | Returned true => read_rows N (S irow) rest s
      | Returned false =>
          match row_body N r s with
          | (Returned _, s') => read_rows N (S irow) rest s'
          | (Raised _, s') => Returned (s', [ErrorReadingLine (irow + 1) r])
          end
      end
  end.

(** The three assignments after the loop ("final flush all"). *)
Definition final_flush (s : locals) : dataset :=
  let apos := Dict.set pystr_eqb (Str (_bpos s)) (_pts s) (_apos s) in
  let runs := Dict.set Z.eqb (_rnx s) apos (_runs s) in
  Dict.set Z.eqb (_angx s) runs (angs s).

(** [read_data(fname, pts_shape=(N,3))] on the rows the csv reader
    yields for the file: the dictionary [angs] (returned under
    [retAll], bound to [self.dats] otherwise) and what was printed. *)
Definition read_data (rows : list row) (N : nat) : outcome (dataset * list message) :=
  obind (read_rows N 0 rows (init_locals N)) (fun sl =>
    Returned (final_flush (fst sl), snd sl)).

(** ** [get_dats] *)

(** [a < b] on two [(position, points)] tuples: equal positions pass the
    comparison on to the point arrays, whose truth value numpy refuses. *)
Definition tuple_lt (a b : F * points) : outcome bool :=
  if float_eqb (fst a) (fst b) then Raised ValueError
  else Returned (float_ltb (fst a) (fst b)).

Fixpoint sort_insert (x : F * points) (l : list (F * points)) : outcome (list (F * points)) :=
  match l with
  | [] => Returned [x]
  | y :: l' =>
      obind (tuple_lt x y) (fun lt =>
        if lt then Returned (x :: y :: l')
        else obind (sort_insert x l') (fun r => Returned (y :: r)))
  end.

(** [_retlist.sort()] *)
Fixpoint py_sort (l : list (F * points)) : outcome (list (F * points)) :=
  match l with
  | [] => Returned []
  | x :: l' => obind (py_sort l') (sort_insert x)
  end.

(** What [get_dats] returns: the two-element list [[_pos, _pts]] of the
    matching position, or the list of [(position, points)] tuples. *)
Inductive dats_result : Type :=
| DatsOne (p : F) (pts : points)
| DatsAll (l : list (F * points)).

(** [_pos == pos], false for [pos = None] *)
Definition pos_matches (_pos : F) (pos : option F) : bool :=
  match pos with
  | None => false
  | Some p => float_eqb _pos p
  end.

Fixpoint get_dats_loop (showInfos : bool) (pos : option F)
  (datslist : list (pystr * points)) (_retlist : list (F * points))
  : outcome dats_result * list message :=
  match datslist with
  | [] => (Returned (DatsAll _retlist), [])
  | (k, pts) :: rest =>
      let _pos := float_of_str k in
      if pos_matches _pos pos then
        (Returned (DatsOne _pos pts),
         if showInfos then [InfoDataForPosition _pos] else [])
      else
        match py_sort (_retlist ++ [(_pos, pts)]) with
        | Returned l => get_dats_loop showInfos pos rest l
        | Raised e => (Raised e, [])
        end
  end.

(** [get_dats(ang, run, pos, dats)] with [dats] already resolved
    ([self.dats] when the argument is [None]). *)
Definition get_dats (showInfos : bool) (dats : dataset) (ang run : Z) (pos : option F)
  : outcome dats_result * list message :=
  match Dict.get Z.eqb ang dats with
  | None => (Raised NameError, [])
  | Some runs =>
      match Dict.get Z.eqb run runs with
      | None => (Raised NameError, [])
      | Some d => get_dats_loop showInfos pos d []
      end
  end.

End Ingest.

Arguments cell F : clear implicits.
Arguments row F : clear implicits.
Arguments dataset F : clear implicits.
Arguments runs_t F : clear implicits.
Arguments apos_t F : clear implicits.
Arguments points F : clear implicits.
Arguments point F : clear implicits.
Arguments message F : clear implicits.
Arguments dats_result F : clear implicits.

(** ** numpy's float64, without rounding

    A finite value is a real number; a zero divisor gives an infinity or
    NaN, as numpy does (with a warning, not an exception).  Zero has no
    sign. *)

Inductive float64 : Type :=
| Fin (r : R)
| PosInf
| NegInf
| NaN.

Definition inf_of_sign (positive : bool) : float64 :=
  if positive then PosInf else NegInf.

(** sign of a finite value: [Some true] above zero, [Some false] below,
    [None] at zero *)
Definition Rsign (r : R) : option bool :=
  if Rlt_dec 0 r then Some true
  else if Rlt_dec r 0 then Some false
  else None.

Definition fneg (x : float64) : float64 :=
  match x with
  | Fin r => Fin (- r)
  | PosInf => NegInf
  | NegInf => PosInf
  | NaN => NaN
  end.

Definition fadd (x y : float64) : float64 :=
  match x, y with
  | NaN, _ | _, NaN => NaN
  | Fin a, Fin b => Fin (a + b)
  | PosInf, NegInf | NegInf, PosInf => NaN
  | PosInf, _ | _, PosInf => PosInf
  | NegInf, _ | _, NegInf => NegInf
  end.

Definition fsub (x y : float64) : float64 := fadd x (fneg y).

Definition fmul (x y : float64) : float64 :=
  match x, y with
  | NaN, _ | _, NaN => NaN
  | Fin a, Fin b => Fin (a * b)
  | Fin a, PosInf | PosInf, Fin a =>
      match Rsign a with Some s => inf_of_sign s | None => NaN end
  | Fin a, NegInf | NegInf, Fin a =>
      match Rsign a with Some s => inf_of_sign (negb s) | None => NaN end
  | PosInf, PosInf | NegInf, NegInf => PosInf
  | PosInf, NegInf | NegInf, PosInf => NegInf
  end.

(** [x / y] on numpy scalars and arrays *)
Definition fdiv (x y : float64) : float64 :=
  match x, y with
  | NaN, _ | _, NaN => NaN
  | Fin a, Fin b =>
      if Req_dec_T b 0 then
        match Rsign a with Some s => inf_of_sign s | None => NaN end
      else Fin (a / b)
  | Fin _, (PosInf | NegInf) => Fin 0
  | PosInf, Fin b => if Rlt_dec b 0 then NegInf else PosInf
  | NegInf, Fin b => if Rlt_dec b 0 then PosInf else NegInf
  | (PosInf | NegInf), (PosInf | NegInf) => NaN
  end.

Definition fabs (x : float64) : float64 :=
  match x with
  | Fin r => Fin (Rabs r)
  | PosInf | NegInf => PosInf
  | NaN => NaN
  end.

(** [x == y], [x < y], [x <= y] *)
Definition feqb (x y : float64) : bool :=
  match x, y with
  | Fin a, Fin b => if Req_dec_T a b then true else false
  | PosInf, PosInf | NegInf, NegInf => true
  | _, _ => false
  end.

Definition fltb (x y : float64) : bool :=
  match x, y with
  | NaN, _ | _, NaN => false
  | Fin a, Fin b => if Rlt_dec a b then true else false
  | NegInf, (Fin _ | PosInf) => true
  | Fin _, PosInf => true
  | _, _ => false
  end.

Definition fleb (x y : float64) : bool := (fltb x y || feqb x y)%bool.

(** equality of the printed forms: every NaN prints [nan] *)
Definition fsame_repr (x y : float64) : bool :=
  match x, y with
  | NaN, NaN => true
  | _, _ => feqb x y
  end.

#[export] Instance PyFloat_float64 : PyFloat float64 := {
  float_zero := Fin 0;
  float_of_int := fun z => Fin (IZR z);
  float_eqb := feqb;
  float_ltb := fltb;
  float_same_repr := fsame_repr
}.

(** [math.sqrt]: a domain error below zero *)
Definition math_sqrt (x : float64) : outcome float64 :=
  match x with
  | Fin r => if Rlt_dec r 0 then Raised ValueError else Returned (Fin (sqrt r))
  | PosInf => Returned PosInf
  | NegInf => Raised ValueError
  | NaN => Returned NaN
  end.

(** [np.sqrt]: NaN below zero *)
Definition np_sqrt (x : float64) : float64 :=
  match x with
  | Fin r => if Rlt_dec r 0 then NaN else Fin (sqrt r)
  | PosInf => PosInf
  | NegInf | NaN => NaN
  end.

Definition math_atan (x : float64) : float64 :=
  match x with
  | Fin r => Fin (atan r)
  | PosInf => Fin (PI / 2)
  | NegInf => Fin (- (PI / 2))
  | NaN => NaN
  end.

(** [math.acos]: a domain error outside [-1, 1] *)
Definition math_acos (x : float64) : outcome float64 :=
  match x with
  | Fin r =>
      if Rlt_dec r (-1) then Raised ValueError
      else if Rlt_dec 1 r then Raised ValueError
      else Returned (Fin (acos r))
  | PosInf | NegInf => Raised ValueError
  | NaN => Returned NaN
  end.

Definition math_pi : float64 := Fin PI.

(** [math.degrees(x)] is [x * (180 / pi)], [math.radians(x)] is [x * (pi / 180)] *)
Definition math_degrees (x : float64) : float64 := fmul x (Fin (180 / PI)).
Definition math_radians (x : float64) : float64 := fmul x (Fin (PI / 180)).

(** ** Arrays of three and of four values *)

Definition vec : Type := point float64.
Definition plane : Type := (float64 * float64 * float64 * float64)%type.

Definition vmap2 (f : float64 -> float64 -> float64) (u v : vec) : vec :=
  let '(u0, u1, u2) := u in
  let '(v0, v1, v2) := v in
  (f u0 v0, f u1 v1, f u2 v2).

Definition vadd : vec -> vec -> vec := vmap2 fadd.
Definition vsub : vec -> vec -> vec := vmap2 fsub.
Definition vmul : vec -> vec -> vec := vmap2 fmul.
Definition vdiv : vec -> vec -> vec := vmap2 fdiv.

(** [u.dot(v)] *)
Definition dot (u v : vec) : float64 :=
  let '(u0, u1, u2) := u in
  let '(v0, v1, v2) := v in
  fadd (fadd (fmul u0 v0) (fmul u1 v1)) (fmul u2 v2).

(** [sp.dot(sp)] on the four entries of a plane *)
Definition dot4 (p q : plane) : float64 :=
  let '(p0, p1, p2, p3) := p in
  let '(q0, q1, q2, q3) := q in
  fadd (fadd (fadd (fmul p0 q0) (fmul p1 q1)) (fmul p2 q2)) (fmul p3 q3).

(** [np.mean]: the sum over the count, NaN for an empty array *)
Definition np_sum (l : list float64) : float64 := fold_left fadd l (Fin 0).

Definition np_mean (l : list float64) : float64 :=
  fdiv (np_sum l) (Fin (INR (List.length l))).

(** [np.std]: the root of the mean squared distance to the mean *)
Definition np_std (l : list float64) : float64 :=
  let m := np_mean l in
  np_sqrt (np_mean (map (fun x => let d := fabs (fsub x m) in fmul d d) l)).

(** [[f(x) for x in l]] where [f] may raise *)
Fixpoint mapM {A B : Type} (f : A -> outcome B) (l : list A) : outcome (list B) :=
  match l with
  | [] => Returned []
  | x :: l' =>
      obind (f x) (fun y =>
      obind (mapM f l') (fun ys => Returned (y :: ys)))
  end.

(** [l[i]] on a list or an array, [i >= 0] *)
Definition getitem {A : Type} (l : list A) (i : nat) : outcome A :=
  match nth_error l i with
  | Some x => Returned x
  | None => Raised IndexError
  end.

(** ** The methods of [TestSagittalFocusing] *)

(** The attributes the methods read and write; [self_showInfos] is
    [self.rc.showInfos]. [self.dats] and [self.th0] exist only once
    they have been assigned. *)
Record self_t : Type := mkSelf {
  self_dats : option (dataset float64);
  self_sp : option plane;
  self_th0 : option float64;
  self_showInfos : bool
}.

(** [epsilon = 1.E-10] *)
Definition epsilon : float64 := Fin (1 / 10 ^ 10).

(** [get_circle_radius(point, center)] *)
Definition get_circle_radius (pt center : vec) : outcome float64 :=
  let '(x, y, z) := pt in
  let '(x0, y0, z0) := center in
  let sq := fun d : float64 => fmul d d in
  math_sqrt (fadd (fadd (sq (fsub x x0)) (sq (fsub y y0))) (sq (fsub z z0))).

(** [get_intersect_lines(p10, p11, p20, p21)], on arrays: every
    operation is taken entry by entry. *)
Definition get_intersect_lines (p10 p11 p20 p21 : vec) : vec :=
  let t := vdiv (vsub p20 p10) (vadd (vsub (vsub p11 p10) p21) p20) in
  vadd p10 (vmul t (vsub p11 p10)).

(** [get_intersect_angle(p0, p1, p2)] *)
Definition get_intersect_angle (p0 p1 p2 : vec) : outcome float64 :=
  let u := vsub p1 p0 in
  let v := vsub p2 p0 in
  obind (math_sqrt (fmul (dot u u) (dot v v))) (fun n =>
  let costheta := fdiv (dot u v) n in
  obind (math_acos costheta) (fun a => Returned (math_degrees a))).

(** [get_sag_plane_dist(P)] for [self.sp] given *)
Definition get_sag_plane_dist (sp : option plane) (P : vec)
  : outcome float64 * list (message float64) :=
  match sp with
  | None => (Returned (Fin 0), [ErrorPlaneNotSet])
  | Some sp =>
      let '(P0, P1, P2) := P in
      let '(sp0, sp1, sp2, sp3) := sp in
      (obind (math_sqrt (dot4 sp sp)) (fun n =>
         Returned (fdiv (fabs (fadd (fadd (fadd (fmul P0 sp0) (fmul P1 sp1)) (fmul P2 sp2)) sp3)) n)),
       [])
  end.

(** What [test_point_on_plane] prints. *)
Inductive plane_test : Type :=
| PointOnPlane
| PointNotOnPlane.

(** [test_point_on_plane(point, plane)]: [plane[:3]] of [None] is a TypeError *)
Definition test_point_on_plane (pt : vec) (pl : option plane) : outcome plane_test :=
  match pl with
  | None => Raised TypeError
  | Some (a, b, c, d) =>
      let _dist := fadd (dot pt (a, b, c)) d in
      Returned (if fleb _dist epsilon then PointOnPlane else PointNotOnPlane)
  end.

Section Evaluation.

(** Code of the repository that the sources at hand do not hold:
    [rotmatrix.rotate(v, axis, angle)] and
    [sloth.math.geometry3D.point_on_plane_projection(point, plane)]. *)
Variable rotate : vec -> vec -> float64 -> vec.
Variable point_on_plane_projection : vec -> option plane -> outcome vec.

(** [get_projection_point(point, plane)] *)
Definition get_projection_point (pt : vec) (pl : option plane) : outcome vec :=
  point_on_plane_projection pt pl.

(** [set_sag_plane(P0, th0)]: the new [self.sp] and [self.th0] *)
Definition set_sag_plane (self : self_t) (P0 : vec) (th0 : float64) : self_t :=
  let norm := rotate (Fin 0, Fin 0, Fin 1) (Fin 1, Fin 0, Fin 0)
                (math_radians (fsub (Fin 90) th0)) in
  let d := fneg (dot P0 norm) in
  let '(n0, n1, n2) := norm in
  mkSelf (self_dats self) (Some (n0, n1, n2, d)) (Some th0) (self_showInfos self).

(** [self.get_dats(ang, run, dats=dats)]: the list to loop over.
    [dats=None] reads [self.dats]; without a [pos] the result is the
    list of tuples. *)
Definition dats_of (self : self_t) (dats : option (dataset float64)) (ang run : Z)
  : outcome (list (float64 * points float64)) * list (message float64) :=
  match (match dats with Some d => Some d | None => self_dats self end) with
  | None => (Raised AttributeError, [])
  | Some d =>
      match get_dats (self_showInfos self) d ang run None with
      | (Returned (DatsAll l), log) => (Returned l, log)
      | (Returned (DatsOne _ _), log) => (Raised TypeError, log)
      | (Raised e, log) => (Raised e, log)
      end
  end.

(** The [try] of [eval_data_th0s]: [beta = math.atan((z0-z6)/(y6-y0))]
    on numpy scalars. *)
Definition th0_try (y0 z0 y6 z6 : float64) : outcome float64 :=
  Returned (math_atan (fdiv (fsub z0 z6) (fsub y6 y0))).

(** The four lists the loop of [eval_data_th0s] appends to. *)
Record th0_acc : Type := mkAcc {
  th0s : list float64;
  x0s : list float64;
  y0s : list float64;
  z0s : list float64
}.

(** How a loop with a [return] inside ends. *)
Inductive loop_end (A : Type) : Type :=
| Completed (a : A)
| Return0.

Arguments Completed {A} a.
Arguments Return0 {A}.

(** The [for _pos, _pts in dats] loop of [eval_data_th0s]; the handler
    prints and returns [0]. *)
Fixpoint th0s_loop (dats : list (float64 * points float64)) (acc : th0_acc)
  : outcome (loop_end th0_acc) * list (message float64) :=
  match dats with
  | [] => (Returned (Completed acc), [])
  | (_pos, _pts) :: rest =>
      match getitem _pts 0 with
      | Raised e => (Raised e, [])
      | Returned (x0, y0, z0) =>
          match getitem _pts 6 with
          | Raised e => (Raised e, [])
          | Returned (x6, y6, z6) =>
              match th0_try y0 z0 y6 z6 with
              | Raised _ => (Returned Return0, [ErrorGettingTheta0])
              | Returned beta =>
                  let th0 := math_degrees (fsub (Fin (PI / 2)) beta) in
                  th0s_loop rest
                    (mkAcc (th0s acc ++ [th0]) (x0s acc ++ [x0])
                           (y0s acc ++ [y0]) (z0s acc ++ [z0]))
              end
          end
      end
  end.

(** The [retAll] argument of [eval_data_th0s] and what it returns. *)
Inductive retAll_t : Type :=
| RetAllFalse
| RetAllTrue
| RetAllAvg.

Inductive th0s_return : Type :=
| Ret0
| RetAvgStd (avgth0 stdth0 : float64)
| RetArray (ath0s : list float64)
| RetNone.

(** [eval_data_th0s(ang, run, dats, retAll, set_sp)] without plotting *)
Definition eval_data_th0s (self : self_t) (ang run : Z) (dats : option (dataset float64))
  (retAll : retAll_t) (set_sp : bool)
  : outcome th0s_return * self_t * list (message float64) :=
  match dats_of self dats ang run with
  | (Raised e, log) => (Raised e, self, log)
  | (Returned l, log) =>
      match th0s_loop l (mkAcc [] [] [] []) with
      | (Raised e, log') => (Raised e, self, log ++ log')
      | (Returned Return0, log') => (Returned Ret0, self, log ++ log')
      | (Returned (Completed acc), log') =>
          let avgP0 := (np_mean (x0s acc), np_mean (y0s acc), np_mean (z0s acc)) in
          let avgth0 := np_mean (th0s acc) in
          let stdth0 := np_std (th0s acc) in
          let self' := if set_sp then set_sag_plane self avgP0 avgth0 else self in
          let log'' := if set_sp then [InfoPlaneSet] else [] in
          (Returned match retAll with
                    | RetAllAvg => RetAvgStd avgth0 stdth0
                    | RetAllTrue => RetArray (th0s acc)
                    | RetAllFalse => RetNone
                    end,
           self', log ++ log' ++ log'')
      end
  end.

(** What [eval_data_rs] computes for one position. *)
Record rs_item : Type := mkItem {
  item_pos : float64;
  item_cen : vec;
  item_rs : list float64;
  item_chi : list float64
}.

(** [[get_intersect_angle(cen, pj[idx], pj[idx+1]) for idx in range(a, b)]] *)
Definition chi_range (cen : vec) (pj : list vec) (idxs : list nat) : outcome (list float64) :=
  mapM (fun idx =>
          obind (getitem pj idx) (fun p1 =>
          obind (getitem pj (idx + 1)) (fun p2 =>
          get_intersect_angle cen p1 p2))) idxs.

(** The body of the loop of [eval_data_rs], without plotting *)
Definition rs_body (sp : option plane) (do_test : bool) (_pos : float64) (_pts : points float64)
  : outcome (rs_item * list plane_test) :=
  obind (mapM (fun _pt => get_projection_point _pt sp) _pts) (fun pj =>
  obind (getitem pj 0) (fun pj0 =>
  obind (getitem pj 6) (fun pj6 =>
  obind (getitem pj 5) (fun pj5 =>
  obind (getitem pj 11) (fun pj11 =>
  let cen := get_intersect_lines pj0 pj6 pj5 pj11 in
  obind (if do_test
         then obind (test_point_on_plane cen sp) (fun t => Returned [t])
         else Returned []) (fun tests =>
  obind (mapM (fun idx => obind (getitem _pts idx) (fun p => get_circle_radius p cen))
              (seq 0 12)) (fun rs =>
  obind (chi_range cen pj (seq 0 5)) (fun chi =>
  obind (chi_range cen pj (seq 6 5)) (fun chi2 =>
  Returned (mkItem _pos cen rs (chi ++ chi2), tests)))))))))).

(** The [for _pos, _pts in dats] loop of [eval_data_rs] *)
Fixpoint rs_loop (sp : option plane) (do_test : bool) (dats : list (float64 * points float64))
  : outcome (list rs_item * list plane_test) :=
  match dats with
  | [] => Returned ([], [])
  | (_pos, _pts) :: rest =>
      obind (rs_body sp do_test _pos _pts) (fun it =>
      obind (rs_loop sp do_test rest) (fun its =>
      Returned (fst it :: fst its, snd it ++ snd its)))
  end.

(** [eval_data_rs(ang, run, set_sp, do_test, retAll)] without plotting:
    the four aligned sequences [poss, cens, rss, chis] are the fields of
    the items, in order; [None] stands for [retAll=False]. *)
Definition eval_data_rs (self : self_t) (ang run : Z) (set_sp do_test retAll : bool)
  : outcome (option (list rs_item)) * self_t * list (message float64) * list plane_test :=
  let '(o1, self1, log1) :=
    if set_sp then eval_data_th0s self ang run None RetAllFalse true
    else (Returned RetNone, self, []) in
  match o1 with
  | Raised e => (Raised e, self1, log1, [])
  | Returned _ =>
      match dats_of self1 None ang run with
      | (Raised e, log2) => (Raised e, self1, log1 ++ log2, [])
      | (Returned l, log2) =>
          match rs_loop (self_sp self1) do_test l with
          | Raised e => (Raised e, self1, log1 ++ log2, [])
          | Returned (items, tests) =>
              (Returned (if retAll then Some items else None), self1, log1 ++ log2, tests)
          end
      end
  end.

End Evaluation.

Arguments Completed {A} a.
Arguments Return0 {A}.

(** ** [eval_data_dists], [eval_data] and [eval_data_loop_ang] *)

(** The attributes that [eval_data_dists] assigns: [self.poss] and
    [self.dists], a dictionary from the index of a point to the list of
    its distances.  [self.aposs], an array of the same positions, is
    read by the plot only. *)
Record dists_t : Type := mkDists {
  self_poss : list float64;
  self_dists : list (nat * list float64)
}.

(** [self.dists = {}] followed by [self.dists[ipt] = []] for [ipt] in [range(12)] *)
Definition dists_init : list (nat * list float64) :=
  fold_left (fun d ipt => Dict.set Nat.eqb ipt [] d) (seq 0 12) [].

(** The [for ipt in range(12)] loop over the points of one position:
    [self.dists[ipt].append(self.get_sag_plane_dist(_pts[ipt][0:3]))] *)
Fixpoint dists_points (sp : option plane) (_pts : points float64) (ipts : list nat)
    (ds : dists_t) : outcome unit * dists_t * list (message float64) :=
  match ipts with
  | [] => (Returned tt, ds, [])
  | ipt :: rest =>
      match Dict.get Nat.eqb ipt (self_dists ds) with
      | None => (Raised KeyError, ds, [])
      | Some col =>
          match getitem _pts ipt with
          | Raised e => (Raised e, ds, [])
          | Returned P =>
              match get_sag_plane_dist sp P with
              | (Raised e, log) => (Raised e, ds, log)
              | (Returned v, log) =>
                  let ds' := mkDists (self_poss ds)
                               (Dict.set Nat.eqb ipt (col ++ [v]) (self_dists ds)) in
                  let '(o, ds'', log') := dists_points sp _pts rest ds' in
                  (o, ds'', log ++ log')
              end
          end
      end
  end.

(** The [for _pos, _pts in dats] loop of [eval_data_dists] *)
Fixpoint dists_loop (sp : option plane) (dats : list (float64 * points float64))
    (ds : dists_t) : outcome unit * dists_t * list (message float64) :=
  match dats with
  | [] => (Returned tt, ds, [])
  | (_pos, _pts) :: rest =>
      let ds1 := mkDists (self_poss ds ++ [_pos]) (self_dists ds) in
      match dists_points sp _pts (seq 0 12) ds1 with
      | (Raised e, ds2, log) => (Raised e, ds2, log)
      | (Returned _, ds2, log) =>
          let '(o, ds3, log') := dists_loop sp rest ds2 in
          (o, ds3, log ++ log')
      end
  end.

(** [eval_data_dists(ang, run, dats)] without plotting.  The arguments
    [retAll] and [set_sp] are never read.  [prev] holds [self.poss] and
    [self.dists] as a former call left them, [None] on an object that
    has none yet. *)
Definition eval_data_dists (self : self_t) (ang run : Z) (dats : option (dataset float64))
    (prev : option dists_t)
  : outcome unit * option dists_t * list (message float64) :=
  match dats_of self dats ang run with
  | (Raised e, log) => (Raised e, prev, log)
  | (Returned l, log) =>
      let '(o, ds, log') := dists_loop (self_sp self) l (mkDists [] dists_init) in
      (o, Some ds, log ++ log')
  end.

Section EvaluationLoops.
Variable rotate : vec -> vec -> float64 -> vec.
Variable point_on_plane_projection : vec -> option plane -> outcome vec.

(** [eval_data(ang, run)] without plotting: [eval_data_th0s(ang, run)],
    whose value is dropped, then [eval_data_dists(ang, run)]. *)
Definition eval_data (self : self_t) (ang run : Z) (prev : option dists_t)
  : outcome unit * self_t * option dists_t * list (message float64) :=
  match eval_data_th0s rotate self ang run None RetAllFalse true with
  | (Raised e, self1, log) => (Raised e, self1, prev, log)
  | (Returned _, self1, log) =>
      let '(o, ds, log') := eval_data_dists self1 ang run None prev in
      (o, self1, ds, log ++ log')
  end.

(** [eval_data_loop_ang(angs, run)]:
    [[self.eval_data_rs(ang, run) for ang in angs]] *)
Fixpoint eval_data_loop_ang (self : self_t) (angs : list Z) (run : Z)
  : outcome (list (option (list rs_item))) * self_t * list (message float64) :=
  match angs with
  | [] => (Returned [], self, [])
  | ang :: rest =>
      match eval_data_rs rotate point_on_plane_projection self ang run true false true with
      | (Raised e, self1, log, _) => (Raised e, self1, log)
      | (Returned r, self1, log, _) =>
          match eval_data_loop_ang self1 rest run with
          | (Raised e, self2, log') => (Raised e, self2, log ++ log')
          | (Returned rs, self2, log') => (Returned (r :: rs), self2, log ++ log')
          end
      end
  end.

End EvaluationLoops.

(** * Vocabulary of the properties *)

(** ** Rows, streams and concrete inputs of ingestion *)

Section HeaderOfRow.
Context {F : Type} `{PyFloat F}.

(** The angle, run, position and point-index fields as the [try] reads
    them, before anything is assigned. *)
Definition header (r : row F) : outcome (Z * Z * F * Z) :=
  obind (obind (row_item r 1) py_int) (fun ang =>
  obind (obind (row_item r 2) py_int) (fun run =>
  obind (obind (row_item r 3) py_float) (fun pos =>
  obind (obind (row_item r 4) py_int) (fun pt =>
  Returned (ang, run, pos, pt))))).

End HeaderOfRow.

Section Streams.
Context {F : Type} `{PyFloat F}.

(** A data row [collection, angle, run, position, point, x, y, z]. *)
Definition data_row (ang run : Z) (pos : F) (pt : Z) (p : point F) : row F :=
  let '(x, y, z) := p in
  [CInt 0%Z; CInt ang; CInt run; CFloat pos; CInt pt; CFloat x; CFloat y; CFloat z].

(** The rows of one position group: its points in order, numbered from [k]. *)
Fixpoint group_rows_from (ang run : Z) (pos : F) (k : nat) (pts : points F) : list (row F) :=
  match pts with
  | [] => []
  | p :: t => data_row ang run pos (Z.of_nat k) p :: group_rows_from ang run pos (S k) t
  end.

Definition group_rows (ang run : Z) (g : F * points F) : list (row F) :=
  group_rows_from ang run (fst g) 0 (snd g).

End Streams.

Module IngestInputs.
Open Scope Z_scope.
Open Scope string_scope.

Definition comments_only : list (row Z) :=
  [[CText "# columns (comma separated values):"];
   [CText "# Collection"; CText "Theta"; CText "Run"]].

(** Twelve points of one position, at actuator position 5.0. *)
Definition pts12 : points Z :=
  map (fun k => (k, k + 100, k + 200)) [0; 1; 2; 3; 4; 5; 6; 7; 8; 9; 10; 11].

Definition first_group : list (row Z) := group_rows 0 0 (5, pts12).

(** A row whose actuator position is not numeric. *)
Definition bad_position_row : row Z :=
  [CInt 0; CInt 0; CInt 0; CText "n/a"; CInt 0; CFloat 1; CFloat 2; CFloat 3].

(** A row whose x coordinate is not numeric. *)
Definition bad_coordinate_row : row Z :=
  [CInt 0; CInt 0; CInt 0; CFloat 6; CInt 0; CText "n/a"; CFloat 2; CFloat 3].

End IngestInputs.

(** ** Selection *)

(** Floats that compare as numbers do: no NaN among them, [==] is
    equality and [<] a strict total order. *)
Class PyFloatOrder (F : Type) `{PyFloat F} : Prop := {
  float_eqb_eq : forall x y : F, float_eqb x y = true <-> x = y;
  float_ltb_trans : forall x y z : F,
    float_ltb x y = true -> float_ltb y z = true -> float_ltb x z = true;
  float_ltb_total : forall x y : F,
    x <> y -> float_ltb x y = true \/ float_ltb y x = true
}.

Arguments PyFloatOrder F {_}.

Section SelectionVocabulary.
Context {F : Type} `{PyFloatOrder F}.

(** The stored actuator positions of a run, as [get_dats] reads them. *)
Definition positions (d : apos_t F) : list F :=
  map (fun kv => float_of_str (fst kv)) d.

(** The [(position, points)] tuples of a run. *)
Definition tuples (d : apos_t F) : list (F * points F) :=
  map (fun kv => (float_of_str (fst kv), snd kv)) d.

Definition by_position (a b : F * points F) : Prop :=
  float_ltb (fst a) (fst b) = true.

End SelectionVocabulary.

Module SelectionInputs.
Open Scope Z_scope.

Definition two_positions : dataset Z :=
  [(0, [(0, [(Str (PyFloat_ 5), [(1, 2, 3)]); (Str (PyFloat_ 3), [(4, 5, 6)])])])].

End SelectionInputs.

(** ** Tilt, lines and their concrete inputs *)

Open Scope R_scope.

(** The tilt that the claim gives for the points of one position: the
    points 0 and 6 are finite, their [y] differ, and the tilt is
    [90 - atan((z0 - z6) / (y6 - y0))], the arctangent taken in degrees. *)
Inductive tilt_of : points float64 -> R -> Prop :=
| tilt_of_points (pts : points float64) (x0 y0 z0 x6 y6 z6 : R) :
    nth_error pts 0 = Some (Fin x0, Fin y0, Fin z0) ->
    nth_error pts 6 = Some (Fin x6, Fin y6, Fin z6) ->
    y6 <> y0 ->
    tilt_of pts (90 - atan ((z0 - z6) / (y6 - y0)) * (180 / PI)).

Module TiltInputs.

Definition origin : vec := (Fin 0, Fin 0, Fin 0).

(** Twelve points, all at the origin but the front point 0 and its
    back counterpart 6. *)
Definition twelve (p0 p6 : vec) : points float64 :=
  [p0; origin; origin; origin; origin; origin; p6; origin; origin; origin; origin; origin].

Definition one_position (pts : points float64) : dataset float64 :=
  [(0%Z, [(0%Z, [(Str (PyFloat_ (Fin 0)), pts)])])].

Definition fresh_self : self_t := mkSelf None None None false.

Definition no_rotation (v axis : vec) (angle : float64) : vec := v.

(** z0 = 10, z6 = 0, y0 = 0, y6 = 10 *)
Definition pts_45 : points float64 := twelve (Fin 0, Fin 0, Fin 10) (Fin 0, Fin 10, Fin 0).

(** y0 = y6 = 0, z0 = 10, z6 = 0: a vertical chord *)
Definition pts_vertical : points float64 := twelve (Fin 0, Fin 0, Fin 10) (Fin 0, Fin 0, Fin 0).

End TiltInputs.

(** Points with real coordinates, and the arrays that hold them. *)
Definition rvec : Type := (R * R * R)%type.

Definition fin3 (p : rvec) : vec :=
  let '(x, y, z) := p in (Fin x, Fin y, Fin z).

(** The point at parameter [t] on the line from [p] to [q]. *)
Definition line_at (p q : rvec) (t : R) : rvec :=
  let '(p0, p1, p2) := p in
  let '(q0, q1, q2) := q in
  (p0 + t * (q0 - p0), p1 + t * (q1 - p1), p2 + t * (q2 - p2)).

Definition on_line (p q x : rvec) : Prop := exists t : R, x = line_at p q t.

(** The cross product of the directions of two lines: zero when they
    are parallel. *)
Definition cross_directions (p10 p11 p20 p21 : rvec) : rvec :=
  let '(a0, a1, a2) := p10 in
  let '(b0, b1, b2) := p11 in
  let '(c0, c1, c2) := p20 in
  let '(d0, d1, d2) := p21 in
  ((b1 - a1) * (d2 - c2) - (b2 - a2) * (d1 - c1),
   (b2 - a2) * (d0 - c0) - (b0 - a0) * (d2 - c2),
   (b0 - a0) * (d1 - c1) - (b1 - a1) * (d0 - c0)).

Module IntersectionInputs.

Definition p10 : rvec := (0, 0, 0).
Definition p11 : rvec := (2, 2, 2).
Definition p20 : rvec := (0, -1, -2).
Definition p21 : rvec := (3, 5, 7).
Definition X : rvec := (1, 1, 1).

End IntersectionInputs.

(** ** What a position emits *)

(** The angle at [cen] between the projected points [idx] and [idx + 1]. *)
Definition chi_at (cen : vec) (pj : list vec) (idx : nat) (chi : float64) : Prop :=
  exists p1 p2,
    nth_error pj idx = Some p1
    /\ nth_error pj (idx + 1) = Some p2
    /\ get_intersect_angle cen p1 p2 = Returned chi.

(** The distance to [cen] of the measured point [idx]. *)
Definition radius_at (cen : vec) (pts : points float64) (idx : nat) (r : float64) : Prop :=
  exists p, nth_error pts idx = Some p /\ get_circle_radius p cen = Returned r.

(** ** Geometry on points with real coordinates *)

Definition rsub (a b : rvec) : rvec :=
  let '(a0, a1, a2) := a in
  let '(b0, b1, b2) := b in
  (a0 - b0, a1 - b1, a2 - b2).

Definition rdot (u v : rvec) : R :=
  let '(u0, u1, u2) := u in
  let '(v0, v1, v2) := v in
  u0 * v0 + u1 * v1 + u2 * v2.

(** The Euclidean distance of two points of space. *)
Definition dist3 (p c : rvec) : R := sqrt (rdot (rsub p c) (rsub p c)).

(** The angle at [c] between [a] and [b], in degrees. *)
Definition angle_deg (c a b : rvec) : R :=
  let u := rsub a c in
  let v := rsub b c in
  acos (rdot u v / sqrt (rdot u u * rdot v v)) * (180 / PI).

(** The entries of the divisor of [get_intersect_lines]. *)
Definition divisor (p10 p11 p20 p21 : rvec) : rvec :=
  let '(a0, a1, a2) := p10 in
  let '(b0, b1, b2) := p11 in
  let '(c0, c1, c2) := p20 in
  let '(d0, d1, d2) := p21 in
  (b0 - a0 - d0 + c0, b1 - a1 - d1 + c1, b2 - a2 - d2 + c2).

Definition nonzero_entries (v : rvec) : Prop :=
  let '(v0, v1, v2) := v in v0 <> 0 /\ v1 <> 0 /\ v2 <> 0.

(** What [get_intersect_lines] computes when no entry of the divisor vanishes. *)
Definition intersect_formula (p10 p11 p20 p21 : rvec) : rvec :=
  let '(a0, a1, a2) := p10 in
  let '(b0, b1, b2) := p11 in
  let '(c0, c1, c2) := p20 in
  let '(d0, d1, d2) := p21 in
  (a0 + (c0 - a0) / (b0 - a0 - d0 + c0) * (b0 - a0),
   a1 + (c1 - a1) / (b1 - a1 - d1 + c1) * (b1 - a1),
   a2 + (c2 - a2) / (b2 - a2 - d2 + c2) * (b2 - a2)).

(** Modelled from the spec: [point_on_plane_projection] of
    [sloth.math.geometry3D], which the sources at hand do not hold.
    The spec has it as the orthogonal projection of the point onto the
    plane, "point - norm * offset" in the words of
    [get_projection_point]; a plane that is [None] cannot be indexed. *)
Definition orthogonal_projection (pt : vec) (pl : option plane) : outcome vec :=
  match pl with
  | None => Raised TypeError
  | Some (a, b, c, d) =>
      let offset := fdiv (fadd (dot pt (a, b, c)) d) (dot (a, b, c) (a, b, c)) in
      Returned (vsub pt (vmul (a, b, c) (offset, offset, offset)))
  end.

Definition real_projection (A B C D : R) (p : rvec) : rvec :=
  let '(x, y, z) := p in
  let offset := (x * A + y * B + z * C + D) / (A * A + B * B + C * C) in
  (x - A * offset, y - B * offset, z - C * offset).

Definition zero3 : rvec := (0, 0, 0).

Module RadiusInputs.

(** The plane x + y + z = 0 and twelve points on it: six directions,
    the front ring at twice the distance of the back ring from the
    origin, where the chords (0,6) and (5,11) meet. *)
Definition sp : plane := (Fin 1, Fin 1, Fin 1, Fin 0).

Definition ps : list rvec :=
  [(2, -2, 0); (2, 0, -2); (0, 2, -2); (-2, 4, -2); (-2, 2, 0); (-4, 2, 2);
   (1, -1, 0); (1, 0, -1); (0, 1, -1); (-1, 2, -1); (-1, 1, 0); (-2, 1, 1)].

Definition qs : list rvec := map (real_projection 1 1 1 0) ps.

Definition cen : rvec :=
  intersect_formula (nth 0 qs zero3) (nth 6 qs zero3) (nth 5 qs zero3) (nth 11 qs zero3).

Definition item : rs_item :=
  mkItem (Fin 0) (fin3 cen)
    (map (fun i => Fin (dist3 (nth i ps zero3) cen)) (seq 0 12))
    (map (fun i => Fin (angle_deg cen (nth i qs zero3) (nth (i + 1) qs zero3))) (seq 0 5)
     ++ map (fun i => Fin (angle_deg cen (nth i qs zero3) (nth (i + 1) qs zero3))) (seq 6 5)).

End RadiusInputs.

Close Scope R_scope.

(** ** Constructions, their streams and their Datasets *)

Section Construction.
Context {F : Type} `{PyFloat F}.

(** A construction: a list of angles (angle index = place in the list),
    each a list of runs (run index = place in the list), each a list of
    position groups [(position, points)]. *)
Definition group : Type := (F * points F)%type.
Definition construction : Type := list (list (list group)).

Definition run_rows (ang run : Z) (gs : list group) : list (row F) :=
  flat_map (group_rows ang run) gs.

Fixpoint runs_rows (ang : Z) (j : nat) (runs : list (list group)) : list (row F) :=
  match runs with
  | [] => []
  | gs :: rest => run_rows ang (Z.of_nat j) gs ++ runs_rows ang (S j) rest
  end.

Fixpoint angles_rows (i : nat) (c : construction) : list (row F) :=
  match c with
  | [] => []
  | a :: rest => runs_rows (Z.of_nat i) 0 a ++ angles_rows (S i) rest
  end.

(** The record stream of a construction. *)
Definition render (c : construction) : list (row F) := angles_rows 0 c.

(** The Dataset of a construction. *)
Definition flush_group (d : apos_t F) (g : group) : apos_t F :=
  Dict.set pystr_eqb (Str (PyFloat_ (fst g))) (snd g) d.

Definition apos_of (gs : list group) : apos_t F := fold_left flush_group gs [].

Fixpoint runs_of (j : nat) (runs : list (list group)) : runs_t F :=
  match runs with
  | [] => []
  | gs :: rest => (Z.of_nat j, apos_of gs) :: runs_of (S j) rest
  end.

Fixpoint angles_of (i : nat) (c : construction) : dataset F :=
  match c with
  | [] => []
  | a :: rest => (Z.of_nat i, runs_of 0 a) :: angles_of (S i) rest
  end.

Definition dataset_of (c : construction) : dataset F := angles_of 0 c.

(** The shape of a Dataset: for each angle, for each run, for each
    position, the number of points. *)
Definition shape (d : dataset F) : list (list (list nat)) :=
  map (fun a => map (fun r => map (fun g => List.length (snd g)) (snd r)) (snd a)) d.

Definition construction_shape (c : construction) : list (list (list nat)) :=
  map (map (map (fun g : group => List.length (snd g)))) c.

(** The positions of a run print differently from one another. *)
Definition distinct_positions (gs : list group) : Prop :=
  ForallOrdPairs (fun g g' : group => float_same_repr (fst g') (fst g) = false) gs.

(** A well-formed construction for groups of [N] points: at least one
    angle, one run per angle and one position per run; every group
    carries its [N] points; positions differ within a run. *)
Definition well_formed (N : nat) (c : construction) : Prop :=
  1 <= N
  /\ c <> []
  /\ Forall (fun a =>
       a <> []
       /\ Forall (fun gs =>
            gs <> []
            /\ distinct_positions gs
            /\ Forall (fun g : group => List.length (snd g) = N) gs) a) c.

End Construction.

Arguments construction F : clear implicits.
Arguments group F : clear implicits.

Module RoundTripInputs.
Open Scope Z_scope.

(** Two angles; the first with two runs, of two and one positions. *)
Definition c2 : construction Z :=
  [ [ [ (5, [(1, 2, 3); (4, 5, 6)]); (6, [(7, 8, 9); (10, 11, 12)]) ];
      [ (5, [(13, 14, 15); (16, 17, 18)]) ] ];
    [ [ (7, [(19, 20, 21); (22, 23, 24)]) ] ] ].

End RoundTripInputs.

(** ** The reader between two rows *)

Section RowEffects.
Context {F : Type} `{PyFloat F}.
Variable N : nat.

Local Abbreviation locals := (@locals F).

(** [read_data] from row number [irow] on, in the state [s]. *)
Definition run_from (irow : nat) (rows : list (row F)) (s : locals)
  : outcome (dataset F * list (message F)) :=
  obind (read_rows N irow rows s) (fun sl => Returned (final_flush (fst sl), snd sl)).

(** The assignments of a data row, in the order of the [try]. *)
Definition flush_pending (s : locals) : locals :=
  if _ptx s
  then set_pts (np_zeros N)
         (set_ptx false
            (set_apos (Dict.set pystr_eqb (Str (_bpos s)) (_pts s) (_apos s)) s))
  else s.

Definition mark_complete (pos : F) (k : nat) (s : locals) : locals :=
  if (Z.of_nat k =? Z.of_nat N - 1)%Z then set_ptx true (set_bpos (PyFloat_ pos) s) else s.

Definition run_change (run : Z) (s : locals) : locals :=
  if negb (run =? _rnx s)%Z
  then set_frun false
         (set_apos []
            (set_rnx run (set_runs (Dict.set Z.eqb (_rnx s) (_apos s) (_runs s)) s)))
  else s.

Definition angle_change (ang : Z) (s : locals) : locals :=
  if negb (ang =? _angx s)%Z
  then
    let s1 := if _frun s
              then set_apos [] (set_runs (Dict.set Z.eqb (_rnx s) (_apos s) (_runs s)) s)
              else s in
    set_runs [] (set_rnx 0%Z
      (set_angx ang (set_angs (Dict.set Z.eqb (_angx s1) (_runs s1) (angs s1)) s1)))
  else s.

Definition data_row_effect (ang run : Z) (pos : F) (k : nat) (p : point F) (s : locals)
  : locals :=
  let s2 := flush_pending (set_frun true s) in
  angle_change ang
    (run_change run (mark_complete pos k (set_pts (list_set (_pts s2) k p) s2))).

End RowEffects.

Section Continuation.
Context {F : Type} `{PyFloat F}.
Variable N : nat.

Local Abbreviation locals := (@locals F).

(** Reading [rows] from [s] goes on from [s']: whatever follows is read
    from [s'], and nothing is printed meanwhile. *)
Definition continues (rows : list (row F)) (s s' : locals) : Prop :=
  forall rest irow, exists irow',
    run_from N irow (rows ++ rest) s = run_from N irow' rest s'.

(** The buffer after the points [t] have been written from index [k] on. *)
Fixpoint overwrite {A : Type} (k : nat) (t buf : list A) : list A :=
  match t with
  | [] => buf
  | p :: t' => overwrite (S k) t' (list_set buf k p)
  end.

End Continuation.

Section PendingState.
Context {F : Type} `{PyFloat F}.
Variable N : nat.
Hypothesis HN : 1 <= N.

Local Abbreviation locals := (@locals F).

(** The state with a group read and not yet flushed: [Pv] is the
    position map once that group is flushed. *)
Definition pend (A : dataset F) (R : runs_t F) (Pv : apos_t F) (j i : Z) (s : locals) : Prop :=
  exists (P : apos_t F) (g : group F),
    s = mkLocals (snd g) P R (PyFloat_ (fst g)) true j i true A
    /\ flush_group P g = Pv
    /\ List.length (snd g) = N.

End PendingState.

Section Bindings.
Context {F : Type} `{PyFloat F}.

(** With positions that print differently, flushing keeps every group. *)
Definition binding_of (g : group F) : pystr * points F := (Str (PyFloat_ (fst g)), snd g).

End Bindings.

Section WellFormedParts.
Context {F : Type} `{PyFloat F}.
Variable N : nat.
Hypothesis HN : 1 <= N.

Local Abbreviation locals := (@locals F).

Definition groups_ok (gs : list (group F)) : Prop :=
  Forall (fun g : group F => List.length (snd g) = N) gs.

Definition run_ok (gs : list (group F)) : Prop := gs <> [] /\ groups_ok gs.

Definition angle_ok (a : list (list (group F))) : Prop := a <> [] /\ Forall run_ok a.

End WellFormedParts.

Section DataRows.
Context {F : Type} `{PyFloat F}.
Variable N : nat.

(** The rows of a stream that are not comments. *)
Fixpoint data_rows (rows : list (row F)) : list (row F) :=
  match rows with
  | [] => []
  | r :: rest =>
      match is_comment r with
      | Returned true => data_rows rest
      | _ => r :: data_rows rest
      end
  end.

End DataRows.

Module ShapeInputs.
Import RoundTripInputs.
Open Scope Z_scope.
Open Scope string_scope.

(** The stream of [c2] under two comment rows. *)
Definition commented : list (row Z) :=
  [CText "# columns (comma separated values):"]
    :: [CText "# Collection"; CText "Theta"; CText "Run"]
    :: render c2.

End ShapeInputs.

Module CenterInputs.
Open Scope R_scope.

(** The plane x + y + z = 0 and twelve points on it.  The chord
    through the points 0 and 6 and the chord through the points 5 and
    11 both pass through the origin: the first at parameter 2, the
    second at parameter 3/2. *)
Definition sp : plane := (Fin 1, Fin 1, Fin 1, Fin 0).

Definition ps : list rvec :=
  [(2, -2, 0); (2, 0, -2); (0, 2, -2); (-2, 4, -2); (-2, 2, 0); (-6, 3, 3);
   (1, -1, 0); (1, 0, -1); (0, 1, -1); (-1, 2, -1); (-1, 1, 0); (-2, 1, 1)].

Definition qs : list rvec := map (real_projection 1 1 1 0) ps.

End CenterInputs.

(** ** Ingestion: what holds of every stream *)

Section IngestVocabulary.
Context {F : Type} `{PyFloat F}.

Local Abbreviation locals := (@locals F).
Local Abbreviation stmt := (@stmt F).

(** The Dataset of [read_data], without what was printed. *)
Definition read_dataset (rows : list (row F)) (N : nat) : outcome (dataset F) :=
  obind (read_data rows N) (fun r => Returned (fst r)).

(** Every position of the Dataset holds [N] points. *)
Definition points_per_position (N : nat) (d : dataset F) : Prop :=
  Forall (fun a : Z * runs_t F =>
    Forall (fun r : Z * apos_t F =>
      Forall (fun g : pystr * points F => List.length (snd g) = N) (snd r)) (snd a)) d.

(** The Dataset holds the points [pts] under some angle, run and position. *)
Definition holds_points (d : dataset F) (pts : points F) : Prop :=
  exists ang runs run apos key,
    In (ang, runs) d /\ In (run, apos) runs /\ In (key, pts) apos.

(** What the statements of [read_data] keep true of its variables: the
    buffer and every array already flushed hold [N] points. *)
Definition buffers_sized (N : nat) (s : locals) : Prop :=
  List.length (_pts s) = N
  /\ Forall (fun g : pystr * points F => List.length (snd g) = N) (_apos s)
  /\ Forall (fun r : Z * apos_t F =>
       Forall (fun g : pystr * points F => List.length (snd g) = N) (snd r)) (_runs s)
  /\ points_per_position N (angs s).

(** A statement keeps [I], and what it returns satisfies [Q]. *)
Definition keeps {A : Type} (I : locals -> Prop) (c : stmt A) (Q : A -> Prop) : Prop :=
  forall s, I s ->
    I (snd (c s)) /\ forall a, fst (c s) = Returned a -> Q a.

End IngestVocabulary.

Section CollectionVocabulary.
Context {F : Type} `{PyFloat F}.

(** Two rows that differ in their first field at most, both comments
    or both not. *)
Definition same_but_collection (r r' : row F) : Prop :=
  tl r = tl r' /\ is_comment r = is_comment r'.

End CollectionVocabulary.

Module CollectionInputs.

(** The row with its first field replaced by the collection number [n]. *)
Definition relabel (n : Z) (r : row Z) : row Z := CInt n :: tl r.

End CollectionInputs.

(** ** Selection: floats that are what they print *)

(** Floats whose [==] holds between equal values only, and that print
    the same exactly when they are the same value. *)
Class PyFloatExact (F : Type) `{PyFloat F} : Prop := {
  float_eqb_sound : forall x y : F, float_eqb x y = true -> x = y;
  float_same_repr_eq : forall x y : F, float_same_repr x y = true <-> x = y
}.

Arguments PyFloatExact F {_}.

Section KeyVocabulary.
Context {F : Type} `{PyFloat F}.

(** A key written by a flush inside the loop: [str] of a float. *)
Definition float_key (k : pystr) : Prop := exists f : F, k = Str (PyFloat_ f).

End KeyVocabulary.

Module LookupInputs.
Open Scope Z_scope.

(** The run of [SelectionInputs.two_positions], written in the other order. *)
Definition two_positions_swapped : dataset Z :=
  [(0, [(0, [(Str (PyFloat_ 3), [(4, 5, 6)]); (Str (PyFloat_ 5), [(1, 2, 3)])])])].

(** Two keys that read as the same number, ['0'] and ['0.0']. *)
Definition equal_positions : dataset Z :=
  [(0, [(0, [(Str (PyInt 0), [(1, 2, 3)]); (Str (PyFloat_ 0), [(4, 5, 6)])])])].

End LookupInputs.

(** ** Values that are not negative, distances to a plane *)

Open Scope R_scope.

(** A value that is neither an infinity nor NaN. *)
Definition isfinite (x : float64) : bool :=
  match x with
  | Fin _ => true
  | _ => false
  end.

(** A value that is not negative: zero or above, [inf], or [nan]. *)
Definition nonneg_or_nan (x : float64) : Prop :=
  match x with
  | Fin r => 0 <= r
  | PosInf => True
  | NegInf => False
  | NaN => True
  end.

(** The distance of a point to the plane [A x + B y + C z + D = 0], as
    the line of [get_sag_plane_dist] that is commented out has it. *)
Definition plane_distance (A B C D : R) (p : rvec) : R :=
  let '(x, y, z) := p in
  Rabs (x * A + y * B + z * C + D) / sqrt (A * A + B * B + C * C).

Close Scope R_scope.

(** ** Tilts, distances and runs of the evaluations *)

Open Scope R_scope.

(** A tilt in degrees: between 0 and 180, or [nan]. *)
Definition tilt_in_range (t : float64) : Prop :=
  t = NaN \/ exists r : R, t = Fin r /\ 0 <= r <= 180.

Close Scope R_scope.

(** The distance to the plane of the point [ipt] of a position. *)
Definition distance_at (sp : option plane) (ipt : nat) (rec : float64 * points float64)
    (v : float64) : Prop :=
  exists P, nth_error (snd rec) ipt = Some P
            /\ fst (get_sag_plane_dist sp P) = Returned v.

(** The run of a Dataset under an angle and a run number. *)
Definition run_of {F : Type} (d : dataset F) (ang run : Z) : option (apos_t F) :=
  match Dict.get Z.eqb ang d with
  | Some runs => Dict.get Z.eqb run runs
  | None => None
  end.

Module EvaluationInputs.
Import TiltInputs.
Open Scope R_scope.

(** z0 = z6 = 0, y0 = 0, y6 = 1: a chord that lies flat *)
Definition pts_flat : points float64 := twelve (Fin 0, Fin 0, Fin 0) (Fin 0, Fin 1, Fin 0).

(** An object whose Dataset holds one run without a position. *)
Definition self_empty_run : self_t :=
  mkSelf (Some [(0%Z, [(0%Z, [])])]) None None false.

(** An object that holds the twelve points of [RadiusInputs] at
    position 0 of angle 0, run 0, and their plane. *)
Definition self_radius : self_t :=
  mkSelf (Some (one_position (map fin3 RadiusInputs.ps))) (Some RadiusInputs.sp) None false.

(** A rotation that gives the normal (1, 1, 1) whatever the angle. *)
Definition to_diagonal (v axis : vec) (angle : float64) : vec := (Fin 1, Fin 1, Fin 1).

End EvaluationInputs.

(** * Properties *)

(** ** Ingestion: comment rows, early stop *)

Section IngestFacts.
Context {F : Type} `{PyFloat F}.

Lemma read_rows_comments (N : nat) (rows : list (row F)) :
  Forall (fun r => is_comment r = Returned true) rows ->
  forall irow s, read_rows N irow rows s = Returned (s, []).
Proof.
  induction 1 as [|r rows Hr _ IH]; intros irow s; cbn [read_rows].
  - reflexivity.
  - rewrite Hr. apply IH.
Qed.

(** Rows read without an error line leave the loop running. *)
Lemma read_rows_app (N : nat) (pre rest : list (row F)) :
  forall irow s s',
  read_rows N irow pre s = Returned (s', []) ->
  read_rows N irow (pre ++ rest) s = read_rows N (irow + List.length pre) rest s'.
Proof.
  induction pre as [|r pre IH]; intros irow s s' Hpre;
    cbn [read_rows app List.length] in *.
  - injection Hpre as ->. now rewrite Nat.add_0_r.
  - destruct (is_comment r) as [[|]|e]; try discriminate.
    + rewrite (IH _ _ _ Hpre). f_equal. lia.
    + destruct (row_body N r s) as [[[]|e] s1]; try discriminate.
      rewrite (IH _ _ _ Hpre). f_equal. lia.
Qed.

(** A row whose header does not parse raises before any assignment
    other than [_frun = True]. *)
Lemma row_body_header_raises (N : nat) (r : row F) (e : exn) (s : locals) :
  header r = Raised e ->
  row_body N r s = (Raised e, set_frun true s).
Proof.
  unfold header, row_body, bind, assign, eval. intros Hh.
  destruct (obind (row_item r 1) py_int) as [ang|e1]; cbn in *; [|congruence].
  destruct (obind (row_item r 2) py_int) as [run|e2]; cbn in *; [|congruence].
  destruct (obind (row_item r 3) py_float) as [pos|e3]; cbn in *; [|congruence].
  destruct (obind (row_item r 4) py_int) as [pt|e4]; cbn in *; [discriminate|congruence].
Qed.

Lemma final_flush_frun (b : bool) (s : locals) :
  final_flush (set_frun b s) = final_flush s.
Proof. reflexivity. Qed.

End IngestFacts.

(** ** Claims on ingestion *)

Section IngestClaims.
Context {F : Type} `{PyFloat F}.

(** C9: a stream with no data row (an empty file, or comment rows only)
    gives a Dataset that is not empty: the final flush binds angle 0 to
    run 0 to the position key ['0'], whose points are the zero buffer. *)
Theorem read_data_without_data_rows (N : nat) (rows : list (row F)) :
  Forall (fun r => is_comment r = Returned true) rows ->
  read_data rows N
  = Returned ([(0%Z, [(0%Z, [(Str (PyInt 0), np_zeros N)])])], []).
Proof.
  intros Hc. unfold read_data.
  rewrite (read_rows_comments N Hc). reflexivity.
Qed.

(** C8, as the code has it: when ingestion stops at a data row whose
    angle, run, position or point-index field is missing or not
    numeric, one error line is printed, with the 1-based row number and
    the raw row, and the Dataset returned is the one of the rows before
    it: nothing in the Dataset marks the stop. *)
Theorem read_data_stops_unmarked (N : nat) (pre rest : list (row F)) (bad : row F)
    (d : dataset F) (e : exn) :
  read_data pre N = Returned (d, []) ->
  is_comment bad = Returned false ->
  header bad = Raised e ->
  read_data (pre ++ bad :: rest) N
  = Returned (d, [ErrorReadingLine (List.length pre + 1) bad]).
Proof.
  unfold read_data. intros Hpre Hc Hh.
  destruct (read_rows N 0 pre (init_locals N)) as [[s' log]|e'] eqn:E;
    cbn [obind fst snd] in Hpre; [|discriminate].
  injection Hpre as <- ->.
  erewrite read_rows_app by exact E.
  cbn [read_rows]. rewrite Hc, (row_body_header_raises N bad s' Hh).
  cbn [obind fst snd]. now rewrite final_flush_frun.
Qed.

End IngestClaims.

(** ** Ingestion on concrete streams (floats with integer values) *)

Module IngestExamples.
Import IngestInputs.
Open Scope Z_scope.
Open Scope string_scope.

Lemma read_data_without_data_rows_witness :
  read_data comments_only 12
  = Returned ([(0, [(0, [(Str (PyInt 0), np_zeros 12)])])], []).
Proof.
  apply read_data_without_data_rows. repeat constructor.
Defined.

Lemma read_data_stops_unmarked_witness :
  read_data (first_group ++ bad_position_row :: first_group) 12
  = Returned ([(0, [(0, [(Str (PyFloat_ 5), pts12)])])],
              [ErrorReadingLine 13 bad_position_row]).
Proof.
  apply (@read_data_stops_unmarked Z _ 12 first_group first_group bad_position_row
           [(0, [(0, [(Str (PyFloat_ 5), pts12)])])] ValueError);
    vm_compute; reflexivity.
Defined.

(** C8, as stated, fails: the stream cut short by a malformed row and
    the stream that simply ends there return the same Dataset, so
    nothing computed from the returned Dataset tells them apart. *)
Lemma truncation_not_in_dataset :
  ~ exists marked : dataset Z -> bool,
      forall rows d log,
        read_data rows 12 = Returned (d, log) ->
        (marked d = true <-> log <> []).
Proof.
  intros [marked Hm].
  assert (H1 : read_data first_group 12
               = Returned ([(0, [(0, [(Str (PyFloat_ 5), pts12)])])], []))
    by (vm_compute; reflexivity).
  assert (H2 : read_data (first_group ++ [bad_position_row]) 12
               = Returned ([(0, [(0, [(Str (PyFloat_ 5), pts12)])])],
                           [ErrorReadingLine 13 bad_position_row]))
    by (vm_compute; reflexivity).
  apply Hm in H1. apply Hm in H2.
  destruct H1 as [H1 _], H2 as [_ H2].
  apply H1; [|reflexivity]. apply H2. discriminate.
Qed.

(** C3 at a failing input: a valid first group followed by a row whose
    x coordinate is not numeric.  The group is flushed while the row is
    read, the row then fails, and the final flush writes the fresh zero
    buffer over the group: the Dataset keeps the key and loses the
    points. *)
Lemma read_data_bad_coordinate :
  read_data first_group 12
  = Returned ([(0, [(0, [(Str (PyFloat_ 5), pts12)])])], [])
  /\ read_data (first_group ++ [bad_coordinate_row]) 12
     = Returned ([(0, [(0, [(Str (PyFloat_ 5), np_zeros 12)])])],
                 [ErrorReadingLine 13 bad_coordinate_row]).
Proof. split; vm_compute; reflexivity. Qed.

(** The comment test stands outside the [try]: an empty row leaves
    [read_data] with an IndexError. *)
Lemma read_data_empty_row :
  read_data (first_group ++ [[]]) 12 = Raised IndexError.
Proof. vm_compute. reflexivity. Qed.

End IngestExamples.

(** ** Selection: [get_dats] with a position that matches nothing *)

#[export] Instance PyFloatOrder_Z : PyFloatOrder Z.
Proof.
  split; cbn.
  - intros x y. apply Z.eqb_eq.
  - intros x y z Hxy Hyz. apply Z.ltb_lt in Hxy, Hyz. apply Z.ltb_lt. lia.
  - intros x y Hne. rewrite !Z.ltb_lt. lia.
Qed.

Section Selection.
Context {F : Type} `{PyFloatOrder F}.

Lemma float_eqb_neq (x y : F) : x <> y -> float_eqb x y = false.
Proof.
  intros Hne. destruct (float_eqb x y) eqn:E; [|reflexivity].
  apply float_eqb_eq in E. contradiction.
Qed.

Lemma sort_insert_sorted (x : F * points F) (l : list (F * points F)) :
  StronglySorted by_position l ->
  ~ In (fst x) (map fst l) ->
  exists l', sort_insert x l = Returned l'
             /\ Permutation (x :: l) l'
             /\ StronglySorted by_position l'.
Proof.
  induction l as [|y l IH]; intros Hs Hnin; cbn [sort_insert].
  - exists [x]. repeat split; auto. constructor; constructor.
  - apply StronglySorted_inv in Hs as [Hs Hy].
    assert (Hxy : fst x <> fst y) by (intros E; apply Hnin; left; auto).
    unfold tuple_lt. rewrite (float_eqb_neq Hxy). cbn [obind].
    destruct (float_ltb (fst x) (fst y)) eqn:Elt.
    + exists (x :: y :: l). repeat split; auto.
      constructor; [constructor; assumption|].
      constructor; [exact Elt|].
      rewrite Forall_forall in Hy |- *. intros z Hz.
      unfold by_position. eapply float_ltb_trans; [exact Elt|]. now apply Hy.
    + destruct IH as (l' & -> & Hp & Hs'); auto.
      { intros Hin. apply Hnin. right. exact Hin. }
      cbn [obind]. exists (y :: l'). repeat split.
      * rewrite perm_swap. now constructor.
      * constructor; [assumption|].
        apply (Permutation_Forall Hp). constructor; [|assumption].
        destruct (float_ltb_total Hxy) as [C|C]; [congruence|exact C].
Qed.

Lemma py_sort_sorted (l : list (F * points F)) :
  NoDup (map fst l) ->
  exists l', py_sort l = Returned l'
             /\ Permutation l l'
             /\ StronglySorted by_position l'.
Proof.
  induction l as [|x l IH]; intros Hnd; cbn [py_sort].
  - exists []. repeat split; auto. constructor.
  - cbn [map] in Hnd. apply NoDup_cons_iff in Hnd as [Hx Hnd].
    destruct (IH Hnd) as (l1 & -> & Hp & Hs). cbn [obind].
    destruct (@sort_insert_sorted x l1 Hs) as (l' & E & Hp' & Hs').
    { intros Hin. apply Hx. eapply Permutation_in; [|exact Hin].
      apply Permutation_map. now symmetry. }
    exists l'. repeat split; auto.
    rewrite <- Hp'. now constructor.
Qed.

Lemma get_dats_loop_unmatched (showInfos : bool) (pos : F) (d : apos_t F) :
  ~ In pos (positions d) ->
  forall acc,
  NoDup (map fst acc ++ positions d) ->
  StronglySorted by_position acc ->
  exists l, get_dats_loop showInfos (Some pos) d acc = (Returned (DatsAll l), [])
            /\ get_dats_loop showInfos None d acc = (Returned (DatsAll l), [])
            /\ Permutation l (acc ++ tuples d)
            /\ StronglySorted by_position l.
Proof.
  induction d as [|[k pts] d IH]; intros Hpos acc Hnd Hs; cbn [get_dats_loop].
  - exists acc. cbn. rewrite app_nil_r. auto.
  - change (positions ((k, pts) :: d))
      with (float_of_str k :: positions d) in Hpos, Hnd.
    assert (Hk : float_of_str k <> pos) by (intros E; apply Hpos; left; exact E).
    cbn [pos_matches]. rewrite (float_eqb_neq Hk).
    destruct (@py_sort_sorted (acc ++ [(float_of_str k, pts)])) as (l1 & -> & Hp1 & Hs1).
    { rewrite map_app. cbn [map fst].
      apply NoDup_app_remove_r with (l' := positions d).
      rewrite <- app_assoc. exact Hnd. }
    destruct (IH (fun Hin => Hpos (or_intror Hin)) l1) as (l & E1 & E2 & Hp & Hs').
    { eapply Permutation_NoDup; [|exact Hnd].
      change (float_of_str k :: positions d) with ([float_of_str k] ++ positions d).
      rewrite app_assoc. apply Permutation_app_tail.
      change [float_of_str k] with (map fst [(float_of_str k, pts)]).
      rewrite <- map_app. now apply Permutation_map. }
    { exact Hs1. }
    exists l. repeat split; auto.
    rewrite Hp.
    change (tuples ((k, pts) :: d)) with ([(float_of_str k, pts)] ++ tuples d).
    rewrite app_assoc. apply Permutation_app_tail. now symmetry.
Qed.


End Selection.

Module SelectionExamples.
Import SelectionInputs.
Open Scope Z_scope.


(** What the call returns there: both positions, the lower one first. *)
Lemma get_dats_unmatched_pos_value :
  get_dats false two_positions 0 0 (Some 4)
  = (Returned (DatsAll [(3, [(4, 5, 6)]); (5, [(1, 2, 3)])]), []).
Proof. vm_compute. reflexivity. Qed.

(** Two keys that read as the same number, ['0'] and ['0.0']: the sort
    compares the point arrays and raises. *)
Lemma get_dats_equal_positions :
  get_dats false [(0, [(0, [(Str (PyInt 0), [(1, 2, 3)]); (Str (PyFloat_ 0), [(4, 5, 6)])])])]
    0 0 None
  = (Raised ValueError, []).
Proof. vm_compute. reflexivity. Qed.

End SelectionExamples.

(** ** Arithmetic on finite values *)

Open Scope R_scope.

Lemma fdiv_fin (a b : R) : b <> 0 -> fdiv (Fin a) (Fin b) = Fin (a / b).
Proof.
  intros Hb. unfold fdiv. destruct (Req_dec_T b 0); [contradiction|reflexivity].
Qed.

Lemma fdiv_pos_zero (a b : R) : 0 < a -> b = 0 -> fdiv (Fin a) (Fin b) = PosInf.
Proof.
  intros Ha Hb. unfold fdiv, Rsign.
  destruct (Req_dec_T b 0); [|contradiction].
  destruct (Rlt_dec 0 a); [reflexivity|contradiction].
Qed.

Lemma fdiv_neg_zero (a b : R) : a < 0 -> b = 0 -> fdiv (Fin a) (Fin b) = NegInf.
Proof.
  intros Ha Hb. unfold fdiv, Rsign.
  destruct (Req_dec_T b 0); [|contradiction].
  destruct (Rlt_dec 0 a); [lra|].
  destruct (Rlt_dec a 0); [reflexivity|contradiction].
Qed.

Lemma fdiv_zero_zero (a b : R) : a = 0 -> b = 0 -> fdiv (Fin a) (Fin b) = NaN.
Proof.
  intros Ha Hb. unfold fdiv, Rsign.
  destruct (Req_dec_T b 0); [|contradiction].
  destruct (Rlt_dec 0 a); [lra|].
  destruct (Rlt_dec a 0); [lra|reflexivity].
Qed.

Lemma math_sqrt_fin (r : R) : 0 <= r -> math_sqrt (Fin r) = Returned (Fin (sqrt r)).
Proof.
  intros Hr. unfold math_sqrt. destruct (Rlt_dec r 0); [lra|reflexivity].
Qed.

Lemma math_acos_fin (r : R) : -1 <= r <= 1 -> math_acos (Fin r) = Returned (Fin (acos r)).
Proof.
  intros Hr. unfold math_acos.
  destruct (Rlt_dec r (-1)); [lra|]. destruct (Rlt_dec 1 r); [lra|reflexivity].
Qed.

(** ** The tilt of [eval_data_th0s] *)

Section TiltFacts.
Variable rotate : vec -> vec -> float64 -> vec.

Lemma th0_finite (y0 z0 y6 z6 : R) :
  y6 <> y0 ->
  math_degrees (fsub (Fin (PI / 2))
                  (math_atan (fdiv (fsub (Fin z0) (Fin z6)) (fsub (Fin y6) (Fin y0)))))
  = Fin (90 - atan ((z0 - z6) / (y6 - y0)) * (180 / PI)).
Proof.
  intros Hy. cbn [fsub fneg fadd].
  rewrite fdiv_fin by lra. cbn [math_atan fsub fneg fadd math_degrees fmul].
  f_equal. unfold Rminus. field. apply PI_neq0.
Qed.

(** The loop appends the claimed tilt for each position that has one. *)
Lemma th0s_loop_tilts (l : list (float64 * points float64)) (ths : list R) :
  Forall2 (fun rec th => tilt_of (snd rec) th) l ths ->
  forall acc, exists acc',
    th0s_loop l acc = (Returned (Completed acc'), [])
    /\ th0s acc' = th0s acc ++ map Fin ths.
Proof.
  induction 1 as [|[pos pts] th l ths Ht _ IH]; intros acc; cbn [th0s_loop].
  - exists acc. cbn. now rewrite app_nil_r.
  - cbn [snd] in Ht. destruct Ht as [pts x0 y0 z0 x6 y6 z6 H0 H6 Hy].
    unfold getitem. rewrite H0, H6. unfold th0_try.
    rewrite th0_finite by exact Hy.
    destruct (IH (mkAcc (th0s acc ++ [Fin (90 - atan ((z0 - z6) / (y6 - y0)) * (180 / PI))])
                        (x0s acc ++ [Fin x0]) (y0s acc ++ [Fin y0]) (z0s acc ++ [Fin z0])))
      as (acc' & -> & E).
    exists acc'. split; [reflexivity|].
    rewrite E. cbn [th0s map]. now rewrite <- app_assoc.
Qed.

(** The [try] holds numpy arithmetic only, which never raises: the
    handler that prints the error and returns 0 is never entered. *)
Lemma th0s_loop_never_returns_0 (l : list (float64 * points float64)) :
  forall acc, exists o,
    th0s_loop l acc = (o, []) /\ o <> Returned Return0.
Proof.
  induction l as [|[pos pts] l IH]; intros acc; cbn [th0s_loop].
  - eexists. split; [reflexivity|discriminate].
  - destruct (getitem pts 0) as [[[x0 y0] z0]|e].
    2:{ eexists. split; [reflexivity|discriminate]. }
    destruct (getitem pts 6) as [[[x6 y6] z6]|e].
    2:{ eexists. split; [reflexivity|discriminate]. }
    unfold th0_try. apply IH.
Qed.


End TiltFacts.

(** ** The tilt on concrete positions *)

Module TiltExamples.
Import TiltInputs.

Lemma tilt_45 : 90 - atan ((10 - 0) / (10 - 0)) * (180 / PI) = 45.
Proof.
  replace ((10 - 0) / (10 - 0)) with 1 by (field; lra).
  rewrite atan_1. field. apply PI_neq0.
Qed.


(** C6 at a failing input: y6 = y0 with z0 above z6.  The quotient is
    numpy's [inf], its arctangent is pi/2 and the tilt 0 degrees: the
    array of tilts is returned, nothing is printed, the value 0 of the
    handler is not what comes back. *)
Lemma eval_data_th0s_vertical_chord (rotate : vec -> vec -> float64 -> vec) :
  eval_data_th0s rotate fresh_self 0 0 (Some (one_position pts_vertical)) RetAllTrue false
  = (Returned (RetArray [Fin 0]), fresh_self, []).
Proof.
  unfold eval_data_th0s.
  change (dats_of fresh_self (Some (one_position pts_vertical)) 0 0)
    with (Returned [(Fin 0, pts_vertical)], @nil (message float64)).
  cbn [th0s_loop getitem nth_error pts_vertical twelve th0_try fsub fneg fadd].
  rewrite fdiv_pos_zero by lra.
  cbn [math_atan fsub fneg fadd math_degrees fmul th0s_loop app th0s].
  replace ((PI / 2 + - (PI / 2)) * (180 / PI)) with 0
    by (field; apply PI_neq0).
  reflexivity.
Qed.

End TiltExamples.


(** ** No plane configured *)

Section PlaneFacts.
Variable rotate : vec -> vec -> float64 -> vec.
Variable point_on_plane_projection : vec -> option plane -> outcome vec.

(** With [set_sp] the plane is set by [eval_data_th0s] before any point
    is projected. *)
Lemma eval_data_rs_sets_plane (self self' : self_t) (ang run : Z) (do_test retAll : bool)
    (res : option (list rs_item)) (log : list (message float64)) (tests : list plane_test) :
  eval_data_rs rotate point_on_plane_projection self ang run true do_test retAll
  = (Returned res, self', log, tests) ->
  exists sp, self_sp self' = Some sp.
Proof.
  unfold eval_data_rs, eval_data_th0s.
  destruct (dats_of self None ang run) as [[l|e] log0]; [|discriminate].
  destruct (th0s_loop_never_returns_0 l (mkAcc [] [] [] [])) as (o & -> & Ho).
  destruct o as [[acc|]|e]; [|congruence|discriminate].
  set (self1 := set_sag_plane rotate self _ _).
  assert (Hsp : exists sp, self_sp self1 = Some sp).
  { unfold self1, set_sag_plane.
    destruct (rotate _ _ _) as [[n0 n1] n2]. eexists. reflexivity. }
  destruct (dats_of self1 None ang run) as [[l2|e] log2]; [|discriminate].
  destruct (rs_loop point_on_plane_projection (self_sp self1) do_test l2) as [[items ts]|e];
    [|discriminate].
  intros E. injection E as _ <- _ _. exact Hsp.
Qed.


End PlaneFacts.


(** ** Intersection of two lines *)

Lemma fin3_eq (a b c a' b' c' : R) :
  a = a' -> b = b' -> c = c' -> (Fin a, Fin b, Fin c) = (Fin a', Fin b', Fin c').
Proof. now intros -> -> ->. Qed.

(** X2: [get_intersect_lines] solves [p10 + t (p11 - p10) = p20 + t (p21 - p20)]
    entry by entry, one [t] per entry.  It returns the common point of
    the two lines when they reach it at the same parameter and no entry
    of the divisor vanishes. *)
Lemma get_intersect_lines_same_parameter (p10 p11 p20 p21 X : rvec) (t : R) :
  X = line_at p10 p11 t ->
  X = line_at p20 p21 t ->
  (let '(a0, a1, a2) := p10 in
   let '(b0, b1, b2) := p11 in
   let '(c0, c1, c2) := p20 in
   let '(d0, d1, d2) := p21 in
   b0 - a0 - d0 + c0 <> 0 /\ b1 - a1 - d1 + c1 <> 0 /\ b2 - a2 - d2 + c2 <> 0) ->
  get_intersect_lines (fin3 p10) (fin3 p11) (fin3 p20) (fin3 p21) = fin3 X.
Proof.
  destruct p10 as [[a0 a1] a2], p11 as [[b0 b1] b2],
           p20 as [[c0 c1] c2], p21 as [[d0 d1] d2], X as [[x0 x1] x2].
  cbn [line_at]. intros E1 E2 (H0 & H1 & H2).
  injection E1 as -> -> ->. injection E2 as E0 E1 E2.
  unfold get_intersect_lines, vdiv, vsub, vadd, vmul, vmap2, fin3.
  cbn [fsub fneg fadd].
  rewrite !fdiv_fin by (unfold Rminus in *; lra).
  cbn [fmul fadd].
  assert (T0 : (c0 + - a0) / (b0 + - a0 + - d0 + c0) = t)
    by (apply Rmult_eq_reg_r with (b0 + - a0 + - d0 + c0);
        [field_simplify; unfold Rminus in *; lra|unfold Rminus in *; lra]).
  assert (T1 : (c1 + - a1) / (b1 + - a1 + - d1 + c1) = t)
    by (apply Rmult_eq_reg_r with (b1 + - a1 + - d1 + c1);
        [field_simplify; unfold Rminus in *; lra|unfold Rminus in *; lra]).
  assert (T2 : (c2 + - a2) / (b2 + - a2 + - d2 + c2) = t)
    by (apply Rmult_eq_reg_r with (b2 + - a2 + - d2 + c2);
        [field_simplify; unfold Rminus in *; lra|unfold Rminus in *; lra]).
  rewrite T0, T1, T2. reflexivity.
Qed.

Module IntersectionExamples.
Import IntersectionInputs.

(** C4 at a failing input: the two lines are not parallel and meet at
    X = (1, 1, 1), at parameter 1/2 on the first and 1/3 on the second;
    [get_intersect_lines] returns (0, 1/2, 4/7). *)
Lemma get_intersect_lines_misses :
  on_line p10 p11 X
  /\ on_line p20 p21 X
  /\ cross_directions p10 p11 p20 p21 <> (0, 0, 0)
  /\ get_intersect_lines (fin3 p10) (fin3 p11) (fin3 p20) (fin3 p21)
     = fin3 (0, 1 / 2, 4 / 7)
  /\ fin3 (0, 1 / 2, 4 / 7) <> fin3 X.
Proof.
  repeat split.
  - exists (1 / 2). unfold X, p10, p11, line_at. f_equal; try f_equal; field.
  - exists (1 / 3). unfold X, p20, p21, line_at. f_equal; try f_equal; field.
  - unfold cross_directions, p10, p11, p20, p21. intros E. injection E as E0 _ _. lra.
  - unfold get_intersect_lines, vdiv, vsub, vadd, vmul, vmap2, fin3, p10, p11, p20, p21.
    cbn [fsub fneg fadd].
    rewrite !fdiv_fin by lra. cbn [fmul fadd].
    apply fin3_eq; field.
  - unfold fin3, X. intros E. injection E as E0 _ _. lra.
Qed.

End IntersectionExamples.

(** ** The radius evaluation of one position *)

Lemma mapM_Forall2 {A B : Type} (f : A -> outcome B) (l : list A) (ys : list B) :
  mapM f l = Returned ys -> Forall2 (fun x y => f x = Returned y) l ys.
Proof.
  revert ys. induction l as [|x l IH]; intros ys; cbn [mapM].
  - intros E. injection E as <-. constructor.
  - destruct (f x) as [y|e] eqn:Ef; cbn [obind]; [|discriminate].
    destruct (mapM f l) as [ys'|e]; cbn [obind]; [|discriminate].
    intros E. injection E as <-. constructor; auto.
Qed.

Lemma mapM_map {A B : Type} (f : A -> outcome B) (g : A -> B) (l : list A) :
  (forall x, In x l -> f x = Returned (g x)) -> mapM f l = Returned (map g l).
Proof.
  induction l as [|x l IH]; intros Hf; cbn [mapM map].
  - reflexivity.
  - rewrite (Hf x (or_introl eq_refl)). cbn [obind].
    rewrite IH by (intros y Hy; apply Hf; now right). reflexivity.
Qed.

Lemma getitem_Returned {A : Type} (l : list A) (i : nat) (x : A) :
  getitem l i = Returned x -> nth_error l i = Some x.
Proof.
  unfold getitem. destruct (nth_error l i); [|discriminate].
  intros E. now injection E as ->.
Qed.

Section RadiusClaims.
Variable point_on_plane_projection : vec -> option plane -> outcome vec.

Lemma chi_range_spec (cen : vec) (pj : list vec) (idxs : list nat) (chi : list float64) :
  chi_range cen pj idxs = Returned chi -> Forall2 (chi_at cen pj) idxs chi.
Proof.
  intros E. apply mapM_Forall2 in E.
  induction E as [|idx c idxs chi Hc _ IH]; constructor; [|exact IH].
  destruct (getitem pj idx) as [p1|e] eqn:E1; cbn [obind] in Hc; [|discriminate].
  destruct (getitem pj (idx + 1)) as [p2|e] eqn:E2; cbn [obind] in Hc; [|discriminate].
  exists p1, p2. auto using getitem_Returned.
Qed.


End RadiusClaims.

(** ** The radius evaluation on finite, non-degenerate points *)

Lemma orthogonal_projection_fin (A B C D : R) (p : rvec) :
  A * A + B * B + C * C <> 0 ->
  orthogonal_projection (fin3 p) (Some (Fin A, Fin B, Fin C, Fin D))
  = Returned (fin3 (real_projection A B C D p)).
Proof.
  intros Hn. destruct p as [[x y] z].
  unfold orthogonal_projection, real_projection, fin3, dot, vsub, vmul, vmap2.
  cbn [fmul fadd]. rewrite fdiv_fin by exact Hn.
  cbn [fmul fsub fneg fadd]. reflexivity.
Qed.

Lemma get_circle_radius_fin (p c : rvec) :
  get_circle_radius (fin3 p) (fin3 c) = Returned (Fin (dist3 p c)).
Proof.
  destruct p as [[x y] z], c as [[x0 y0] z0].
  unfold get_circle_radius, dist3, rsub, rdot, fin3. cbn [fsub fneg fadd fmul].
  rewrite math_sqrt_fin.
  - reflexivity.
  - pose proof (Rle_0_sqr (x + - x0)). pose proof (Rle_0_sqr (y + - y0)).
    pose proof (Rle_0_sqr (z + - z0)). unfold Rsqr in *. lra.
Qed.

Lemma get_intersect_lines_fin (p10 p11 p20 p21 : rvec) :
  nonzero_entries (divisor p10 p11 p20 p21) ->
  get_intersect_lines (fin3 p10) (fin3 p11) (fin3 p20) (fin3 p21)
  = fin3 (intersect_formula p10 p11 p20 p21).
Proof.
  destruct p10 as [[a0 a1] a2], p11 as [[b0 b1] b2],
           p20 as [[c0 c1] c2], p21 as [[d0 d1] d2].
  unfold nonzero_entries, divisor. intros (H0 & H1 & H2).
  unfold get_intersect_lines, intersect_formula, vdiv, vsub, vadd, vmul, vmap2, fin3.
  cbn [fsub fneg fadd]. rewrite !fdiv_fin by (unfold Rminus in *; assumption).
  reflexivity.
Qed.

Lemma cauchy_schwarz (u v : rvec) :
  rdot u v * rdot u v <= rdot u u * rdot v v.
Proof.
  destruct u as [[a b] c], v as [[x y] z]. unfold rdot.
  assert (E : (a * a + b * b + c * c) * (x * x + y * y + z * z)
              - (a * x + b * y + c * z) * (a * x + b * y + c * z)
              = (a * y - b * x) * (a * y - b * x) + (a * z - c * x) * (a * z - c * x)
                + (b * z - c * y) * (b * z - c * y)) by ring.
  pose proof (Rle_0_sqr (a * y - b * x)). pose proof (Rle_0_sqr (a * z - c * x)).
  pose proof (Rle_0_sqr (b * z - c * y)). unfold Rsqr in *. lra.
Qed.

Lemma rdot_self_pos (u : rvec) : u <> (0, 0, 0) -> 0 < rdot u u.
Proof.
  destruct u as [[a b] c]. unfold rdot. intros Hu.
  pose proof (Rle_0_sqr a). pose proof (Rle_0_sqr b). pose proof (Rle_0_sqr c).
  unfold Rsqr in *.
  destruct (Req_dec_T (a * a + b * b + c * c) 0) as [E|E]; [|lra].
  exfalso. apply Hu.
  assert (a * a = 0) by lra. assert (b * b = 0) by lra. assert (c * c = 0) by lra.
  f_equal; [f_equal|]; now apply Rsqr_0_uniq.
Qed.

Lemma rsub_nonzero (a c : rvec) : a <> c -> rsub a c <> (0, 0, 0).
Proof.
  destruct a as [[a0 a1] a2], c as [[c0 c1] c2]. unfold rsub.
  intros Hne E. injection E as E0 E1 E2. apply Hne.
  f_equal; [f_equal|]; lra.
Qed.

Lemma ratio_bounds (x n : R) : 0 < n -> x * x <= n * n -> -1 <= x / n <= 1.
Proof.
  intros Hn Hx. assert (Hb : - n <= x <= n) by nra.
  split; apply Rmult_le_reg_r with n; try lra;
    unfold Rdiv; rewrite Rmult_assoc, Rinv_l by lra; lra.
Qed.

Lemma get_intersect_angle_fin (c a b : rvec) :
  a <> c -> b <> c ->
  get_intersect_angle (fin3 c) (fin3 a) (fin3 b) = Returned (Fin (angle_deg c a b)).
Proof.
  intros Ha Hb.
  pose proof (rdot_self_pos (rsub_nonzero Ha)) as Hu.
  pose proof (rdot_self_pos (rsub_nonzero Hb)) as Hv.
  pose proof (cauchy_schwarz (rsub a c) (rsub b c)) as Hcs.
  unfold angle_deg.
  assert (Hp : 0 < rdot (rsub a c) (rsub a c) * rdot (rsub b c) (rsub b c))
    by (apply Rmult_lt_0_compat; assumption).
  set (n := sqrt (rdot (rsub a c) (rsub a c) * rdot (rsub b c) (rsub b c))).
  assert (Hn : 0 < n) by (apply sqrt_lt_R0; exact Hp).
  assert (Hnn : n * n = rdot (rsub a c) (rsub a c) * rdot (rsub b c) (rsub b c))
    by (apply sqrt_sqrt; lra).
  destruct a as [[a0 a1] a2], b as [[b0 b1] b2], c as [[c0 c1] c2].
  unfold get_intersect_angle, fin3, vsub, vmap2, dot. cbn [fsub fneg fadd fmul].
  unfold rsub, rdot in *. unfold Rminus in *.
  rewrite math_sqrt_fin by lra. cbn [obind]. fold n.
  rewrite fdiv_fin by lra.
  rewrite math_acos_fin by (apply ratio_bounds; [exact Hn|rewrite Hnn; exact Hcs]).
  cbn [obind math_degrees fmul]. reflexivity.
Qed.

Section RadiusFinite.
Variable point_on_plane_projection : vec -> option plane -> outcome vec.

Lemma mapM_fin3 (sp : option plane) (ps qs : list rvec) :
  Forall2 (fun p q => point_on_plane_projection (fin3 p) sp = Returned (fin3 q)) ps qs ->
  mapM (fun _pt => point_on_plane_projection _pt sp) (map fin3 ps)
  = Returned (map fin3 qs).
Proof.
  induction 1 as [|p q ps qs Hpq _ IH]; cbn [mapM map].
  - reflexivity.
  - rewrite Hpq. cbn [obind]. rewrite IH. reflexivity.
Qed.

Lemma getitem_map_fin3 (l : list rvec) (i : nat) :
  (i < List.length l)%nat ->
  getitem (map fin3 l) i = Returned (fin3 (nth i l zero3)).
Proof.
  intros Hi. unfold getitem.
  rewrite nth_error_map, (nth_error_nth' l zero3 Hi). reflexivity.
Qed.

(** On finite points whose projections are finite, when no entry of
    the divisor vanishes and no projected point falls on the center,
    the body returns: the center by the formula of
    [get_intersect_lines], the radii as Euclidean distances of the
    measured points, the chi values as angles at the center. *)
Lemma rs_body_finite (sp : plane) (_pos : float64) (ps qs : list rvec) :
  let cen := intersect_formula (nth 0 qs zero3) (nth 6 qs zero3)
                               (nth 5 qs zero3) (nth 11 qs zero3) in
  Forall2 (fun p q => point_on_plane_projection (fin3 p) (Some sp) = Returned (fin3 q))
          ps qs ->
  (12 <= List.length ps)%nat ->
  nonzero_entries (divisor (nth 0 qs zero3) (nth 6 qs zero3)
                           (nth 5 qs zero3) (nth 11 qs zero3)) ->
  (forall i : nat, (i < 12)%nat -> nth i qs zero3 <> cen) ->
  rs_body point_on_plane_projection (Some sp) false _pos (map fin3 ps)
  = Returned
      (mkItem _pos (fin3 cen)
         (map (fun i => Fin (dist3 (nth i ps zero3) cen)) (seq 0 12))
         (map (fun i => Fin (angle_deg cen (nth i qs zero3) (nth (i + 1) qs zero3)))
              (seq 0 5)
          ++ map (fun i => Fin (angle_deg cen (nth i qs zero3) (nth (i + 1) qs zero3)))
                 (seq 6 5)),
       []).
Proof.
  intros cen Hpj Hlen Hdiv Hne.
  assert (Hlq : (12 <= List.length qs)%nat)
    by (rewrite <- (Forall2_length Hpj); exact Hlen).
  unfold rs_body, get_projection_point.
  rewrite (mapM_fin3 Hpj). cbn [obind].
  rewrite !getitem_map_fin3 by lia. cbn [obind].
  rewrite get_intersect_lines_fin by exact Hdiv. fold cen.
  rewrite (mapM_map _ (fun i => Fin (dist3 (nth i ps zero3) cen))).
  2:{ intros i Hi. apply in_seq in Hi.
      rewrite getitem_map_fin3 by lia. cbn [obind]. apply get_circle_radius_fin. }
  cbn [obind]. unfold chi_range.
  rewrite (mapM_map _ (fun i => Fin (angle_deg cen (nth i qs zero3) (nth (i + 1) qs zero3)))
             (seq 0 5)).
  2:{ intros i Hi. apply in_seq in Hi.
      rewrite !getitem_map_fin3 by lia. cbn [obind].
      apply get_intersect_angle_fin; apply Hne; lia. }
  cbn [obind].
  rewrite (mapM_map _ (fun i => Fin (angle_deg cen (nth i qs zero3) (nth (i + 1) qs zero3)))
             (seq 6 5)).
  2:{ intros i Hi. apply in_seq in Hi.
      rewrite !getitem_map_fin3 by lia. cbn [obind].
      apply get_intersect_angle_fin; apply Hne; lia. }
  reflexivity.
Qed.

End RadiusFinite.

Module RadiusExamples.
Import RadiusInputs.

Lemma cen_origin : cen = (0, 0, 0).
Proof.
  unfold cen, qs, ps, intersect_formula, real_projection. cbn [map nth].
  f_equal; [f_equal|]; field.
Qed.

Lemma rs_body_item :
  rs_body orthogonal_projection (Some sp) false (Fin 0) (map fin3 ps) = Returned (item, []).
Proof.
  apply (@rs_body_finite orthogonal_projection sp (Fin 0) ps qs).
  - unfold qs. induction ps as [|p l IH]; constructor; [|exact IH].
    apply orthogonal_projection_fin. lra.
  - cbn. lia.
  - unfold nonzero_entries, divisor, qs, ps, real_projection. cbn [map nth].
    repeat split; lra.
  - fold cen. rewrite cen_origin. intros i Hi.
    do 12 (destruct i as [|i];
           [unfold qs, ps, real_projection; cbn [map nth];
            intros E; injection E as E0 E1 E2; lra|]).
    lia.
Qed.


(** There the center is the origin and the first radius is the
    distance of the point (2, -2, 0) from it. *)
Lemma item_values :
  item_cen item = fin3 (0, 0, 0)
  /\ nth 0 (item_rs item) NaN = Fin (sqrt 8).
Proof.
  unfold item. cbn [item_cen item_rs map seq nth ps].
  rewrite cen_origin. split; [reflexivity|].
  unfold dist3, rsub, rdot. do 2 f_equal. ring.
Qed.

End RadiusExamples.

Close Scope R_scope.

(** * Ingestion of a stream built from a known grouping *)

Module RoundTripExamples.
Import RoundTripInputs.
Open Scope Z_scope.

Lemma read_data_render_c2 :
  read_data (render c2) 2 = Returned (dataset_of c2, [])
  /\ shape (dataset_of c2) = [[[2; 2]; [2]]; [[2]]]%nat.
Proof. split; vm_compute; reflexivity. Qed.

End RoundTripExamples.

(** ** One data row, one group *)

Ltac simpl_locals :=
  cbn [_ptx _pts _apos _runs _bpos _rnx _angx _frun angs negb
       set_frun set_apos set_ptx set_pts set_bpos set_runs set_rnx set_angx set_angs] in *.

Section RowsOfGroups.
Context {F : Type} `{PyFloat F}.
Variable N : nat.

Local Abbreviation run_from := (run_from N).
Local Abbreviation flush_pending := (flush_pending N).
Local Abbreviation mark_complete := (mark_complete N).
Local Abbreviation data_row_effect := (data_row_effect N).

Local Abbreviation locals := (@locals F).

Lemma read_data_run_from (rows : list (row F)) :
  read_data rows N = run_from 0 rows (init_locals N).
Proof. reflexivity. Qed.

(** [_frun] is assigned at the head of every row and not read by the
    final flush: its value between rows does not matter. *)
Lemma run_from_frun (b : bool) (rows : list (row F)) :
  forall irow s, run_from irow rows (set_frun b s) = run_from irow rows s.
Proof.
  unfold run_from. induction rows as [|r rows IH]; intros irow s; cbn [read_rows].
  - reflexivity.
  - destruct (is_comment r) as [[|]|e]; [apply IH| |reflexivity].
    change (row_body N r (set_frun b s)) with (row_body N r s). reflexivity.
Qed.

Lemma np_zeros_length : List.length (np_zeros (F:=F) N) = N.
Proof. apply repeat_length. Qed.

Lemma list_set_length {A : Type} (l : list A) (i : nat) (x : A) :
  List.length (list_set l i x) = List.length l.
Proof.
  revert i. induction l as [|y l IH]; intros [|i]; cbn; auto.
Qed.

Lemma array_setitem_in_range (a : points F) (k : nat) (x y z : F) :
  k < List.length a ->
  array_setitem a (Z.of_nat k) [x; y; z] = Returned (list_set a k (x, y, z)).
Proof.
  intros Hk. unfold array_setitem.
  destruct (Z.of_nat k <? 0)%Z eqn:E; [apply Z.ltb_lt in E; lia|].
  replace ((0 <=? Z.of_nat k)%Z && (Z.of_nat k <? Z.of_nat (List.length a))%Z)%bool
    with true.
  - now rewrite Nat2Z.id.
  - symmetry. apply andb_true_iff. split; [apply Z.leb_le|apply Z.ltb_lt]; lia.
Qed.

(** A data row with a point index in range is read without an exception. *)
Lemma row_body_data (ang run : Z) (pos : F) (k : nat) (p : point F) (s : locals) :
  k < N ->
  List.length (_pts s) = N ->
  row_body N (data_row ang run pos (Z.of_nat k) p) s
  = (Returned tt, data_row_effect ang run pos k p s).
Proof.
  intros Hk Hlen. destruct p as [[x y] z].
  destruct s as [pts apos runs bpos ptx rnx angx frun angs0]. cbn [_pts] in Hlen.
  unfold row_body, data_row_effect, flush_pending, mark_complete, run_change, angle_change,
    bind, assign, eval, read, when, ret, data_row.
  cbn [row_item nth_error obind py_int py_float last3 List.length Nat.sub skipn map_float].
  simpl_locals.
  destruct ptx; simpl_locals.
  - rewrite array_setitem_in_range by (rewrite np_zeros_length; exact Hk).
    destruct (Z.of_nat k =? Z.of_nat N - 1)%Z; simpl_locals;
      destruct (run =? rnx)%Z; simpl_locals;
      destruct (ang =? angx)%Z; simpl_locals; reflexivity.
  - rewrite array_setitem_in_range by (rewrite Hlen; exact Hk).
    destruct (Z.of_nat k =? Z.of_nat N - 1)%Z; simpl_locals;
      destruct (run =? rnx)%Z; simpl_locals;
      destruct (ang =? angx)%Z; simpl_locals; reflexivity.
Qed.

End RowsOfGroups.

Section GroupSteps.
Context {F : Type} `{PyFloat F}.
Variable N : nat.

Local Abbreviation continues := (continues N).

Local Abbreviation locals := (@locals F).

Lemma continues_nil (s : locals) : continues [] s s.
Proof. intros rest irow. exists irow. reflexivity. Qed.

Lemma continues_app (rows1 rows2 : list (row F)) (s s1 s2 : locals) :
  continues rows1 s s1 -> continues rows2 s1 s2 -> continues (rows1 ++ rows2) s s2.
Proof.
  intros H1 H2 rest irow. rewrite <- app_assoc.
  destruct (H1 (rows2 ++ rest) irow) as [i1 ->]. apply H2.
Qed.

Lemma continues_frun (b : bool) (rows : list (row F)) (s s' : locals) :
  continues rows s (set_frun b s') -> continues rows s s'.
Proof.
  intros Hc rest irow. destruct (Hc rest irow) as [i' ->].
  exists i'. apply run_from_frun.
Qed.

Lemma continues_row (ang run : Z) (pos : F) (k : nat) (p : point F) (s : locals) :
  k < N ->
  List.length (_pts s) = N ->
  continues [data_row ang run pos (Z.of_nat k) p] s (data_row_effect N ang run pos k p s).
Proof.
  intros Hk Hlen rest irow. exists (S irow).
  unfold run_from. cbn [app read_rows].
  replace (is_comment (data_row ang run pos (Z.of_nat k) p)) with (@Returned bool false)
    by (destruct p as [[x y] z]; reflexivity).
  rewrite row_body_data by assumption. reflexivity.
Qed.

Lemma firstn_list_set {A : Type} (buf : list A) (k : nat) (p : A) :
  k < List.length buf ->
  firstn (S k) (list_set buf k p) = firstn k buf ++ [p].
Proof.
  revert k. induction buf as [|y buf IH]; intros k Hk; cbn in Hk; [lia|].
  destruct k as [|k]; [reflexivity|].
  cbn [list_set]. rewrite firstn_cons, IH by lia. reflexivity.
Qed.

Lemma overwrite_firstn {A : Type} (t : list A) :
  forall k buf, List.length buf = k + List.length t ->
  overwrite k t buf = firstn k buf ++ t.
Proof.
  induction t as [|p t IH]; intros k buf Hlen; cbn [overwrite List.length] in *.
  - rewrite Nat.add_0_r in Hlen. rewrite <- Hlen, firstn_all. now rewrite app_nil_r.
  - rewrite IH by (rewrite list_set_length; lia).
    rewrite firstn_list_set by lia. now rewrite <- app_assoc.
Qed.

(** The fields after a data row. *)
Lemma data_row_effect_fields (ang run : Z) (pos : F) (k : nat) (p : point F) (s : locals) :
  let s2 := flush_pending N (set_frun true s) in
  let s0 := angle_change ang (run_change run s2) in
  let last := (Z.of_nat k =? Z.of_nat N - 1)%Z in
  data_row_effect N ang run pos k p s
  = mkLocals (list_set (_pts s2) k p) (_apos s0) (_runs s0)
      (if last then PyFloat_ pos else _bpos s) last
      (_rnx s0) (_angx s0) (_frun s0) (angs s0).
Proof.
  destruct s as [pts apos runs bpos ptx rnx angx frun angs0].
  unfold data_row_effect, flush_pending, mark_complete, run_change, angle_change.
  simpl_locals.
  destruct ptx; simpl_locals;
    destruct (Z.of_nat k =? Z.of_nat N - 1)%Z; simpl_locals;
    destruct (run =? rnx)%Z; simpl_locals;
    destruct (ang =? angx)%Z; simpl_locals; reflexivity.
Qed.

(** After a data row the current run and angle are those of the row,
    when the row opens a new angle with run 0 or stays in the angle. *)
Lemma header_change_fields (ang run : Z) (s : locals) :
  (ang =? _angx s)%Z = true \/ run = 0%Z ->
  let s0 := angle_change ang (run_change run s) in
  _rnx s0 = run /\ _angx s0 = ang.
Proof.
  destruct s as [pts apos runs bpos ptx rnx angx frun angs0].
  unfold run_change, angle_change. simpl_locals. intros Hc.
  destruct (run =? rnx)%Z eqn:Er; simpl_locals;
    destruct (ang =? angx)%Z eqn:Ea; simpl_locals;
    try apply Z.eqb_eq in Er; try apply Z.eqb_eq in Ea;
    destruct Hc as [Hc|Hc]; try discriminate; subst; auto.
Qed.

(** The rows of a group after the first: only the buffer changes, and
    the last row marks the position complete. *)
Lemma continues_rest_rows (ang run : Z) (pos : F) (t : points F) :
  forall (k : nat) (s : locals),
  t <> [] ->
  k + List.length t = N ->
  List.length (_pts s) = N ->
  _ptx s = false -> _rnx s = run -> _angx s = ang ->
  continues (group_rows_from ang run pos k t) s
    (mkLocals (overwrite k t (_pts s)) (_apos s) (_runs s) (PyFloat_ pos) true
       run ang true (angs s)).
Proof.
  induction t as [|p t IH]; intros k s Hne Hk Hlen Hptx Hrnx Hangx; [contradiction|].
  cbn [group_rows_from overwrite List.length] in *.
  change (data_row ang run pos (Z.of_nat k) p :: group_rows_from ang run pos (S k) t)
    with ([data_row ang run pos (Z.of_nat k) p] ++ group_rows_from ang run pos (S k) t).
  eapply continues_app; [apply continues_row; [lia|exact Hlen]|].
  rewrite data_row_effect_fields.
  destruct s as [pts apos runs bpos ptx rnx angx frun angs0]. simpl_locals.
  subst ptx rnx angx.
  unfold flush_pending, run_change, angle_change. simpl_locals.
  rewrite !Z.eqb_refl. simpl_locals.
  destruct t as [|p' t].
  - cbn [group_rows_from overwrite List.length] in *.
    replace (Z.of_nat k =? Z.of_nat N - 1)%Z with true
      by (symmetry; apply Z.eqb_eq; lia).
    apply continues_nil.
  - replace (Z.of_nat k =? Z.of_nat N - 1)%Z with false
      by (symmetry; apply Z.eqb_neq; cbn [List.length] in *; lia).
    apply (IH (S k)); simpl_locals; auto; try discriminate.
    + cbn [List.length] in *. lia.
    + rewrite list_set_length. exact Hlen.
Qed.

End GroupSteps.

(** ** Groups one after the other *)

Section Pending.
Context {F : Type} `{PyFloat F}.
Variable N : nat.
Hypothesis HN : 1 <= N.

Local Abbreviation pend := (pend N).

Local Abbreviation locals := (@locals F).

Lemma flush_pending_length (s : locals) :
  List.length (_pts s) = N ->
  List.length (_pts (flush_pending N (set_frun true s))) = N.
Proof.
  destruct s as [pts apos runs bpos ptx rnx angx frun angs0].
  unfold flush_pending. simpl_locals. intros Hlen.
  destruct ptx; simpl_locals; [apply np_zeros_length|exact Hlen].
Qed.

(** A whole group: the pending group is flushed, the run and the angle
    are switched if the first row says so, and the group read becomes
    the pending one. *)
Lemma continues_group (ang run : Z) (g : group F) (s : locals) :
  List.length (snd g) = N ->
  List.length (_pts s) = N ->
  (ang =? _angx s)%Z = true \/ run = 0%Z ->
  let s0 := angle_change ang (run_change run (flush_pending N (set_frun true s))) in
  continues N (group_rows ang run g) s
    (mkLocals (snd g) (_apos s0) (_runs s0) (PyFloat_ (fst g)) true run ang true (angs s0)).
Proof.
  destruct g as [pos pts]. cbn [fst snd]. intros Hg Hlen Hc. cbv zeta.
  pose proof (flush_pending_length s Hlen) as Hlen2.
  destruct (@header_change_fields F ang run (flush_pending N (set_frun true s))) as [Hr Ha].
  { destruct s as [? ? ? ? [|] ? ? ? ?]; exact Hc. }
  set (s0 := angle_change ang (run_change run (flush_pending N (set_frun true s)))) in *.
  destruct pts as [|p t]; [cbn in Hg; lia|].
  unfold group_rows. cbn [fst snd group_rows_from].
  change (data_row ang run pos (Z.of_nat 0) p :: group_rows_from ang run pos 1 t)
    with ([data_row ang run pos (Z.of_nat 0) p] ++ group_rows_from ang run pos 1 t).
  eapply continues_app; [apply continues_row; [lia|exact Hlen]|].
  rewrite data_row_effect_fields. cbv zeta. fold s0. rewrite Hr, Ha.
  destruct t as [|p' t].
  - cbn [group_rows_from List.length] in *.
    replace (Z.of_nat 0 =? Z.of_nat N - 1)%Z with true
      by (symmetry; apply Z.eqb_eq; lia).
    apply continues_frun with (b := _frun s0).
    destruct (_pts (flush_pending N (set_frun true s))) as [|y [|y' l]];
      cbn [List.length] in Hlen2; try lia.
    apply continues_nil.
  - replace (Z.of_nat 0 =? Z.of_nat N - 1)%Z with false
      by (symmetry; apply Z.eqb_neq; cbn [List.length] in *; lia).
    replace (p :: p' :: t)
      with (overwrite 1 (p' :: t) (list_set (_pts (flush_pending N (set_frun true s))) 0 p)).
    + apply (@continues_rest_rows F _ N ang run pos (p' :: t) 1
               (mkLocals (list_set (_pts (flush_pending N (set_frun true s))) 0 p)
                  (_apos s0) (_runs s0) (_bpos s) false run ang (_frun s0) (angs s0)));
        simpl_locals; auto; try discriminate;
        try (rewrite list_set_length; exact Hlen2);
        simpl in *; lia.
    + change (overwrite 1 (p' :: t) (list_set (_pts (flush_pending N (set_frun true s))) 0 p))
        with (overwrite 0 (p :: p' :: t) (_pts (flush_pending N (set_frun true s)))).
      rewrite overwrite_firstn by (cbn [List.length] in *; lia). reflexivity.
Qed.

Lemma pend_same (A : dataset F) (R : runs_t F) (Pv : apos_t F) (j i : Z) (s : locals)
    (g' : group F) :
  pend A R Pv j i s ->
  List.length (snd g') = N ->
  exists s', continues N (group_rows i j g') s s' /\ pend A R (flush_group Pv g') j i s'.
Proof.
  intros (P & g & -> & <- & Hg) Hg'.
  eexists. split.
  - apply continues_group; simpl_locals; auto. left. apply Z.eqb_refl.
  - unfold flush_pending, run_change, angle_change. simpl_locals.
    rewrite !Z.eqb_refl. simpl_locals.
    exists (flush_group P g), g'. auto.
Qed.

Lemma pend_new_run (A : dataset F) (R : runs_t F) (Pv : apos_t F) (j i run : Z) (s : locals)
    (g' : group F) :
  pend A R Pv j i s ->
  List.length (snd g') = N ->
  run <> j ->
  exists s', continues N (group_rows i run g') s s'
             /\ pend A (Dict.set Z.eqb j Pv R) (flush_group [] g') run i s'.
Proof.
  intros (P & g & -> & <- & Hg) Hg' Hrun.
  eexists. split.
  - apply continues_group; simpl_locals; auto. left. apply Z.eqb_refl.
  - unfold flush_pending, run_change, angle_change. simpl_locals.
    replace (run =? j)%Z with false by (symmetry; now apply Z.eqb_neq).
    simpl_locals. rewrite Z.eqb_refl. simpl_locals.
    exists [], g'. auto.
Qed.

Lemma pend_new_angle (A : dataset F) (R : runs_t F) (Pv : apos_t F) (j i ang : Z) (s : locals)
    (g' : group F) :
  pend A R Pv j i s ->
  List.length (snd g') = N ->
  ang <> i ->
  exists s', continues N (group_rows ang 0 g') s s'
             /\ pend (Dict.set Z.eqb i (Dict.set Z.eqb j Pv R) A) [] (flush_group [] g')
                  0 ang s'.
Proof.
  intros (P & g & -> & <- & Hg) Hg' Hang.
  eexists. split.
  - apply continues_group; simpl_locals; auto.
  - unfold flush_pending, run_change, angle_change. simpl_locals.
    assert (Ea : (ang =? i)%Z = false) by now apply Z.eqb_neq.
    destruct (0 =? j)%Z eqn:Ej; simpl_locals; rewrite Ea; simpl_locals.
    + apply Z.eqb_eq in Ej. subst j. exists [], g'. auto.
    + exists [], g'. auto.
Qed.

Lemma pend_init (g' : group F) :
  List.length (snd g') = N ->
  exists s', continues N (group_rows 0 0 g') (init_locals N) s'
             /\ pend [] [] (flush_group [] g') 0 0 s'.
Proof.
  intros Hg'. eexists. split.
  - apply continues_group; [exact Hg'|apply np_zeros_length|now right].
  - exists [], g'. auto.
Qed.

(** At the end of the stream the pending group, its run and its angle
    are flushed. *)
Lemma pend_final (A : dataset F) (R : runs_t F) (Pv : apos_t F) (j i : Z) (s : locals)
    (irow : nat) :
  pend A R Pv j i s ->
  run_from N irow [] s = Returned (Dict.set Z.eqb i (Dict.set Z.eqb j Pv R) A, []).
Proof.
  intros (P & g & -> & <- & Hg). reflexivity.
Qed.

End Pending.

(** ** Keys that are new to a dictionary *)

Lemma dict_set_fresh {K V : Type} (eqb : K -> K -> bool) (k : K) (v : V) (d : list (K * V)) :
  (forall kv, In kv d -> eqb k (fst kv) = false) ->
  Dict.set eqb k v d = d ++ [(k, v)].
Proof.
  induction d as [|[k' v'] d IH]; intros Hf; cbn [Dict.set app].
  - reflexivity.
  - pose proof (Hf (k', v') (or_introl eq_refl)) as E. cbn [fst] in E. rewrite E.
    rewrite IH by (intros kv Hkv; apply Hf; now right). reflexivity.
Qed.

Section DatasetOf.
Context {F : Type} `{PyFloat F}.

Lemma runs_of_keys (l : list (list (group F))) :
  forall (j0 : nat) kv, In kv (runs_of j0 l) ->
  exists n : nat, fst kv = Z.of_nat n /\ j0 <= n < j0 + List.length l.
Proof.
  induction l as [|gs l IH]; intros j0 kv; cbn [runs_of In List.length].
  - intros [].
  - intros [<-|Hin].
    + exists j0. cbn. split; [reflexivity|lia].
    + destruct (IH _ _ Hin) as (n & E & Hn). exists n. split; [exact E|lia].
Qed.

Lemma runs_of_app (l1 l2 : list (list (group F))) :
  forall j0, runs_of j0 (l1 ++ l2) = runs_of j0 l1 ++ runs_of (j0 + List.length l1) l2.
Proof.
  induction l1 as [|gs l1 IH]; intros j0; cbn [runs_of app List.length].
  - now rewrite Nat.add_0_r.
  - rewrite IH. do 3 f_equal. lia.
Qed.

Lemma runs_of_snoc (done : list (list (group F))) (cur : list (group F)) :
  Dict.set Z.eqb (Z.of_nat (List.length done)) (apos_of cur) (runs_of 0 done)
  = runs_of 0 (done ++ [cur]).
Proof.
  rewrite dict_set_fresh.
  - rewrite runs_of_app. reflexivity.
  - intros kv Hkv. destruct (runs_of_keys _ _ _ Hkv) as (n & -> & Hn).
    apply Z.eqb_neq. lia.
Qed.

Lemma angles_of_keys (c : construction F) :
  forall (i0 : nat) kv, In kv (angles_of i0 c) ->
  exists n : nat, fst kv = Z.of_nat n /\ i0 <= n < i0 + List.length c.
Proof.
  induction c as [|a c IH]; intros i0 kv; cbn [angles_of In List.length].
  - intros [].
  - intros [<-|Hin].
    + exists i0. cbn. split; [reflexivity|lia].
    + destruct (IH _ _ Hin) as (n & E & Hn). exists n. split; [exact E|lia].
Qed.

Lemma angles_of_app (c1 c2 : construction F) :
  forall i0, angles_of i0 (c1 ++ c2) = angles_of i0 c1 ++ angles_of (i0 + List.length c1) c2.
Proof.
  induction c1 as [|a c1 IH]; intros i0; cbn [angles_of app List.length].
  - now rewrite Nat.add_0_r.
  - rewrite IH. do 3 f_equal. lia.
Qed.

Lemma angles_of_snoc (done : construction F) (cur : list (list (group F))) :
  Dict.set Z.eqb (Z.of_nat (List.length done)) (runs_of 0 cur) (angles_of 0 done)
  = angles_of 0 (done ++ [cur]).
Proof.
  rewrite dict_set_fresh.
  - rewrite angles_of_app. reflexivity.
  - intros kv Hkv. destruct (angles_of_keys _ _ _ Hkv) as (n & -> & Hn).
    apply Z.eqb_neq. lia.
Qed.

Lemma fold_flush_distinct (gs : list (group F)) :
  forall done : list (group F),
  distinct_positions gs ->
  (forall g g', In g gs -> In g' done -> float_same_repr (fst g) (fst g') = false) ->
  fold_left flush_group gs (map binding_of done) = map binding_of (done ++ gs).
Proof.
  induction gs as [|g gs IH]; intros done Hd Hnew; cbn [fold_left].
  - now rewrite app_nil_r.
  - inversion Hd as [|g0 gs0 Hg Hd']; subst.
    unfold flush_group at 2. rewrite dict_set_fresh.
    + change (map binding_of done ++ [(Str (PyFloat_ (fst g)), snd g)])
        with (map binding_of done ++ map binding_of [g]).
      rewrite <- map_app, IH.
      * now rewrite <- app_assoc.
      * exact Hd'.
      * intros g1 g2 H1 H2. apply in_app_or in H2 as [H2|[<-|[]]].
        -- apply Hnew; [now right|exact H2].
        -- rewrite Forall_forall in Hg. now apply Hg.
    + intros kv Hkv. apply in_map_iff in Hkv as (g' & <- & Hg').
      cbn. apply Hnew; [now left|exact Hg'].
Qed.

Lemma apos_of_distinct (gs : list (group F)) :
  distinct_positions gs -> apos_of gs = map binding_of gs.
Proof.
  intros Hd. unfold apos_of.
  apply fold_flush_distinct with (done := []); [exact Hd|intros g g' _ []].
Qed.

Lemma shape_dataset_of (N : nat) (c : construction F) :
  well_formed N c -> shape (dataset_of c) = construction_shape c.
Proof.
  intros (_ & _ & Hc). unfold dataset_of, shape, construction_shape.
  generalize 0 at 1. induction Hc as [|a c (_ & Ha) _ IH]; intros i0; cbn [angles_of map].
  - reflexivity.
  - rewrite IH. f_equal. cbn [snd].
    generalize 0. induction Ha as [|gs a (_ & Hd & _) _ IHa]; intros j0; cbn [runs_of map].
    + reflexivity.
    + rewrite IHa. f_equal. cbn [snd].
      rewrite (apos_of_distinct Hd), map_map. reflexivity.
Qed.

End DatasetOf.

(** ** Runs, angles, the whole stream *)

Section RoundTrip.
Context {F : Type} `{PyFloat F}.
Variable N : nat.
Hypothesis HN : 1 <= N.

Local Abbreviation groups_ok := (groups_ok N).
Local Abbreviation run_ok := (run_ok N).
Local Abbreviation angle_ok := (angle_ok N).

Local Abbreviation locals := (@locals F).

(** Further positions of the current run. *)
Lemma pend_run_same (A : dataset F) (R : runs_t F) (j i : Z) (gs : list (group F)) :
  forall (Pv : apos_t F) (s : locals),
  pend N A R Pv j i s ->
  groups_ok gs ->
  exists s', continues N (run_rows i j gs) s s'
             /\ pend N A R (fold_left flush_group gs Pv) j i s'.
Proof.
  induction gs as [|g gs IH]; intros Pv s Hp Hok.
  - exists s. split; [apply continues_nil|exact Hp].
  - pose proof (Forall_inv Hok) as Hg. pose proof (Forall_inv_tail Hok) as Hok'.
    destruct (pend_same HN g Hp Hg) as (s1 & Hc1 & Hp1).
    destruct (IH _ _ Hp1 Hok') as (s' & Hc & Hp').
    exists s'. split; [|exact Hp'].
    unfold run_rows. cbn [flat_map]. eapply continues_app; eassumption.
Qed.

(** The first run after the current one. *)
Lemma pend_run_new (A : dataset F) (R : runs_t F) (Pv : apos_t F) (j i run : Z)
    (gs : list (group F)) (s : locals) :
  pend N A R Pv j i s ->
  run_ok gs ->
  run <> j ->
  exists s', continues N (run_rows i run gs) s s'
             /\ pend N A (Dict.set Z.eqb j Pv R) (apos_of gs) run i s'.
Proof.
  intros Hp [Hne Hok] Hrun. destruct gs as [|g gs]; [contradiction|].
  pose proof (Forall_inv Hok) as Hg. pose proof (Forall_inv_tail Hok) as Hok'.
  destruct (pend_new_run HN g Hp Hg Hrun) as (s1 & Hc1 & Hp1).
  destruct (pend_run_same Hp1 Hok') as (s' & Hc & Hp').
  exists s'. split; [|exact Hp'].
  unfold run_rows. cbn [flat_map]. eapply continues_app; eassumption.
Qed.

(** The first run of the next angle. *)
Lemma pend_run_new_angle (A : dataset F) (R : runs_t F) (Pv : apos_t F) (j i ang : Z)
    (gs : list (group F)) (s : locals) :
  pend N A R Pv j i s ->
  run_ok gs ->
  ang <> i ->
  exists s', continues N (run_rows ang 0 gs) s s'
             /\ pend N (Dict.set Z.eqb i (Dict.set Z.eqb j Pv R) A) [] (apos_of gs) 0 ang s'.
Proof.
  intros Hp [Hne Hok] Hang. destruct gs as [|g gs]; [contradiction|].
  pose proof (Forall_inv Hok) as Hg. pose proof (Forall_inv_tail Hok) as Hok'.
  destruct (pend_new_angle HN g Hp Hg Hang) as (s1 & Hc1 & Hp1).
  destruct (pend_run_same Hp1 Hok') as (s' & Hc & Hp').
  exists s'. split; [|exact Hp'].
  unfold run_rows. cbn [flat_map]. eapply continues_app; eassumption.
Qed.

(** The first run of the stream. *)
Lemma pend_run_first (gs : list (group F)) :
  run_ok gs ->
  exists s', continues N (run_rows 0 0 gs) (init_locals N) s'
             /\ pend N [] [] (apos_of gs) 0 0 s'.
Proof.
  intros [Hne Hok]. destruct gs as [|g gs]; [contradiction|].
  pose proof (Forall_inv Hok) as Hg. pose proof (Forall_inv_tail Hok) as Hok'.
  destruct (pend_init HN g Hg) as (s1 & Hc1 & Hp1).
  destruct (pend_run_same Hp1 Hok') as (s' & Hc & Hp').
  exists s'. split; [|exact Hp'].
  unfold run_rows. cbn [flat_map]. eapply continues_app; eassumption.
Qed.

(** The runs of an angle after its current run [cur], the runs [done]
    before it being flushed already. *)
Lemma pend_runs_rest (A : dataset F) (i : Z) (rest : list (list (group F))) :
  forall (done : list (list (group F))) (cur : list (group F)) (s : locals),
  pend N A (runs_of 0 done) (apos_of cur) (Z.of_nat (List.length done)) i s ->
  Forall run_ok rest ->
  exists s' R' Pv' j',
    continues N (runs_rows i (S (List.length done)) rest) s s'
    /\ pend N A R' Pv' j' i s'
    /\ Dict.set Z.eqb j' Pv' R' = runs_of 0 (done ++ cur :: rest).
Proof.
  induction rest as [|gs rest IH]; intros done cur s Hp Hok.
  - exists s, (runs_of 0 done), (apos_of cur), (Z.of_nat (List.length done)).
    split; [apply continues_nil|]. split; [exact Hp|]. apply runs_of_snoc.
  - pose proof (Forall_inv Hok) as Hgs. pose proof (Forall_inv_tail Hok) as Hok'.
    destruct (@pend_run_new _ _ _ _ i (Z.of_nat (S (List.length done))) gs s Hp Hgs)
      as (s1 & Hc1 & Hp1); [lia|].
    rewrite runs_of_snoc in Hp1.
    replace (S (List.length done)) with (List.length (done ++ [cur])) in Hp1, Hc1 |- *
      by (rewrite length_app; cbn; lia).
    destruct (IH (done ++ [cur]) gs s1 Hp1 Hok') as (s' & R' & Pv' & j' & Hc & Hp' & E).
    exists s', R', Pv', j'. split; [|split; [exact Hp'|]].
    + cbn [runs_rows]. eapply continues_app; eassumption.
    + rewrite E, <- app_assoc. reflexivity.
Qed.

(** The angles after the current one [cur], the angles [done] before it
    being flushed already. *)
Lemma pend_angles_rest (rest : construction F) :
  forall (done : construction F) (cur : list (list (group F)))
         (R : runs_t F) (Pv : apos_t F) (j : Z) (s : locals),
  pend N (angles_of 0 done) R Pv j (Z.of_nat (List.length done)) s ->
  Dict.set Z.eqb j Pv R = runs_of 0 cur ->
  Forall angle_ok rest ->
  exists s' A' R' Pv' j' i',
    continues N (angles_rows (S (List.length done)) rest) s s'
    /\ pend N A' R' Pv' j' i' s'
    /\ Dict.set Z.eqb i' (Dict.set Z.eqb j' Pv' R') A' = angles_of 0 (done ++ cur :: rest).
Proof.
  induction rest as [|a rest IH]; intros done cur R Pv j s Hp Hcur Hok.
  - exists s, (angles_of 0 done), R, Pv, j, (Z.of_nat (List.length done)).
    split; [apply continues_nil|]. split; [exact Hp|].
    rewrite Hcur. apply angles_of_snoc.
  - pose proof (Forall_inv Hok) as [Hne Ha]. pose proof (Forall_inv_tail Hok) as Hok'.
    destruct a as [|gs a]; [contradiction|].
    pose proof (Forall_inv Ha) as Hgs. pose proof (Forall_inv_tail Ha) as Ha'.
    destruct (@pend_run_new_angle _ _ _ _ _ (Z.of_nat (S (List.length done))) gs s Hp Hgs)
      as (s1 & Hc1 & Hp1); [lia|].
    rewrite Hcur in Hp1.
    assert (Hp1' : pend N (angles_of 0 (done ++ [cur])) [] (apos_of gs) 0
                     (Z.of_nat (S (List.length done))) s1).
    { refine (eq_rect _ (fun A => pend N A _ _ _ _ _) Hp1 _ _). apply angles_of_snoc. }
    clear Hp1. rename Hp1' into Hp1.
    destruct (@pend_runs_rest _ (Z.of_nat (S (List.length done))) a [] gs s1 Hp1 Ha')
      as (s2 & R2 & Pv2 & j2 & Hc2 & Hp2 & E2).
    replace (S (List.length done)) with (List.length (done ++ [cur])) in Hp2, Hc1, Hc2 |- *
      by (rewrite length_app; cbn; lia).
    destruct (IH (done ++ [cur]) (gs :: a) R2 Pv2 j2 s2 Hp2 E2 Hok')
      as (s' & A' & R' & Pv' & j' & i' & Hc & Hp' & E).
    exists s', A', R', Pv', j', i'. split; [|split; [exact Hp'|]].
    + cbn [angles_rows runs_rows]. rewrite <- app_assoc.
      eapply continues_app; [exact Hc1|]. eapply continues_app; eassumption.
    + rewrite E, <- app_assoc. reflexivity.
Qed.

(** The whole stream of a construction is read without an error line
    and gives the Dataset of the construction. *)
Lemma read_data_render (c : construction F) :
  c <> [] ->
  Forall angle_ok c ->
  read_data (render c) N = Returned (dataset_of c, []).
Proof.
  intros Hne Hok. destruct c as [|a c]; [contradiction|].
  pose proof (Forall_inv Hok) as [Hane Ha]. pose proof (Forall_inv_tail Hok) as Hok'.
  destruct a as [|gs a]; [contradiction|].
  pose proof (Forall_inv Ha) as Hgs. pose proof (Forall_inv_tail Ha) as Ha'.
  destruct (pend_run_first Hgs) as (s1 & Hc1 & Hp1).
  destruct (@pend_runs_rest [] 0%Z a [] gs s1 Hp1 Ha')
    as (s2 & R2 & Pv2 & j2 & Hc2 & Hp2 & E2).
  destruct (@pend_angles_rest c [] (gs :: a) R2 Pv2 j2 s2 Hp2 E2 Hok')
    as (s' & A' & R' & Pv' & j' & i' & Hc & Hp' & E).
  assert (Hall : continues N (render (((gs :: a) :: c))) (init_locals N) s').
  { unfold render. cbn [angles_rows runs_rows]. rewrite <- app_assoc.
    eapply continues_app; [exact Hc1|]. eapply continues_app; eassumption. }
  rewrite read_data_run_from.
  destruct (Hall [] 0) as [irow' E']. rewrite app_nil_r in E'. rewrite E'.
  rewrite (pend_final irow' Hp'), E. reflexivity.
Qed.

End RoundTrip.

(** ** Comment rows among the data rows *)

Section Comments.
Context {F : Type} `{PyFloat F}.
Variable N : nat.

Lemma read_rows_data_rows (rows : list (row F)) :
  forall irow irow' s s',
  read_rows N irow (data_rows rows) s = Returned (s', []) ->
  read_rows N irow' rows s = Returned (s', []).
Proof.
  induction rows as [|r rows IH]; intros irow irow' s s'; cbn [data_rows read_rows].
  - auto.
  - destruct (is_comment r) as [[|]|e] eqn:Ec.
    + apply IH.
    + cbn [read_rows]. rewrite Ec.
      destruct (row_body N r s) as [[[]|e] s1]; [apply IH|discriminate].
    + cbn [read_rows]. rewrite Ec. discriminate.
Qed.

Lemma read_data_data_rows (rows : list (row F)) (d : dataset F) :
  read_data (data_rows rows) N = Returned (d, []) ->
  read_data rows N = Returned (d, []).
Proof.
  unfold read_data.
  destruct (read_rows N 0 (data_rows rows) (init_locals N)) as [[s' log]|e] eqn:E;
    cbn [obind fst snd]; [|discriminate].
  intros E'. injection E' as <- ->.
  rewrite (@read_rows_data_rows rows 0 0 _ _ E). reflexivity.
Qed.

End Comments.

(** ** The claim on well-formed streams *)

Section RoundTripClaim.
Context {F : Type} `{PyFloat F}.


End RoundTripClaim.

Module ShapeExamples.
Import ShapeInputs.
Import RoundTripInputs.
Open Scope Z_scope.
Open Scope string_scope.

Lemma c2_well_formed : well_formed 2 c2.
Proof.
  unfold well_formed, c2, distinct_positions. split; [lia|]. split; [discriminate|].
  repeat (constructor; try split; try discriminate; try reflexivity).
Qed.


End ShapeExamples.

(** ** Streams that do not start at angle 0 *)

Module OffsetExamples.
Open Scope Z_scope.

(** A single group filed under angle 1: the angle change on its first
    row flushes an empty run 0 under angle 0, which the stream never
    had. *)
Lemma read_data_first_angle_1 :
  read_data (group_rows 1 0 (5, [(1, 2, 3); (4, 5, 6)])) 2
  = Returned ([(0, [(0, [])]); (1, [(0, [(Str (PyFloat_ 5), [(1, 2, 3); (4, 5, 6)])])])],
              []).
Proof. vm_compute. reflexivity. Qed.

End OffsetExamples.

(** ** A position whose chords meet at different parameters *)

Module CenterExamples.
Import CenterInputs.
Open Scope R_scope.

Lemma qs_ps : qs = ps.
Proof.
  assert (E : forall x y z : R, x + y + z = 0 -> real_projection 1 1 1 0 (x, y, z) = (x, y, z)).
  { intros x y z Hp. unfold real_projection.
    replace (x * 1 + y * 1 + z * 1 + 0) with 0 by lra.
    f_equal; [f_equal|]; field. }
  unfold qs, ps. cbn [map]. rewrite !E by lra. reflexivity.
Qed.

Lemma cen_value :
  intersect_formula (nth 0 qs zero3) (nth 6 qs zero3) (nth 5 qs zero3) (nth 11 qs zero3)
  = (2 / 5, - (1 / 3), 0).
Proof.
  rewrite qs_ps. unfold ps, intersect_formula. cbn [nth].
  f_equal; [f_equal|]; field.
Qed.

(** C1 at a failing input: the projected points are the points
    themselves, the chords (0,6) and (5,11) are not parallel and meet
    at the origin, and the center that [eval_data_rs] emits for the
    position is (2/5, -1/3, 0), a point of neither chord nor of the
    plane. *)
Lemma rs_body_center_off_chords :
  on_line (nth 0 qs zero3) (nth 6 qs zero3) (0, 0, 0)
  /\ on_line (nth 5 qs zero3) (nth 11 qs zero3) (0, 0, 0)
  /\ cross_directions (nth 0 qs zero3) (nth 6 qs zero3) (nth 5 qs zero3) (nth 11 qs zero3)
     <> (0, 0, 0)
  /\ exists item,
       rs_body orthogonal_projection (Some sp) false (Fin 0) (map fin3 ps)
       = Returned (item, [])
       /\ item_cen item = fin3 (2 / 5, - (1 / 3), 0)
       /\ item_cen item <> fin3 (0, 0, 0).
Proof.
  split; [|split; [|split]].
  - rewrite qs_ps. exists 2. unfold ps, line_at. cbn [nth]. f_equal; [f_equal|]; field.
  - rewrite qs_ps. exists (3 / 2). unfold ps, line_at. cbn [nth]. f_equal; [f_equal|]; field.
  - rewrite qs_ps. unfold ps, cross_directions. cbn [nth].
    intros E. injection E as E0 _ _. lra.
  - eexists. split.
    + apply (@rs_body_finite orthogonal_projection sp (Fin 0) ps qs).
      * unfold qs. induction ps as [|p l IH]; constructor; [|exact IH].
        apply orthogonal_projection_fin. lra.
      * cbn. lia.
      * rewrite qs_ps. unfold nonzero_entries, divisor, ps. cbn [nth]. repeat split; lra.
      * rewrite cen_value, qs_ps. intros i Hi.
        do 12 (destruct i as [|i];
               [unfold ps; cbn [nth]; intros E; injection E; intros; lra|]).
        lia.
    + cbn [item_cen]. rewrite cen_value. split; [reflexivity|].
      unfold fin3. intros E. injection E; intros; lra.
Qed.

End CenterExamples.

(** ** Two chords that meet at the same parameter *)

Module SameParameterExamples.
Open Scope R_scope.

(** The chords from (2,-2,0) to (1,-1,0) and from (-4,2,2) to (-2,1,1)
    both reach the origin at parameter 2. *)
Lemma get_intersect_lines_same_parameter_witness :
  get_intersect_lines (fin3 (2, -2, 0)) (fin3 (1, -1, 0)) (fin3 (-4, 2, 2)) (fin3 (-2, 1, 1))
  = fin3 (0, 0, 0).
Proof.
  apply (@get_intersect_lines_same_parameter
           (2, -2, 0) (1, -1, 0) (-4, 2, 2) (-2, 1, 1) (0, 0, 0) 2).
  - unfold line_at. f_equal; [f_equal|]; field.
  - unfold line_at. f_equal; [f_equal|]; field.
  - repeat split; lra.
Defined.

End SameParameterExamples.

(** * Further properties *)

(** ** Ingestion: exceptions, the error line, the rows after it *)

Section IngestErrors.
Context {F : Type} `{PyFloat F}.

Lemma is_comment_raises (r : row F) (e : exn) :
  is_comment r = Raised e -> e = IndexError.
Proof.
  unfold is_comment, row_item.
  destruct (nth_error r 0) as [[z|f|[|a s]]|]; cbn; congruence.
Qed.

Lemma read_rows_raises (N : nat) (rows : list (row F)) :
  forall irow s e,
  read_rows N irow rows s = Raised e ->
  e = IndexError /\ Exists (fun r => is_comment r = Raised IndexError) rows.
Proof.
  induction rows as [|r rows IH]; intros irow s e; cbn [read_rows].
  - discriminate.
  - destruct (is_comment r) as [[|]|e'] eqn:Ec.
    + intros E. destruct (IH _ _ _ E) as [-> Hex]. split; [reflexivity|now right].
    + destruct (row_body N r s) as [[[]|e1] s1]; [|discriminate].
      intros E. destruct (IH _ _ _ E) as [-> Hex]. split; [reflexivity|now right].
    + intros E. injection E as <-.
      pose proof (is_comment_raises _ Ec) as ->. split; [reflexivity|now left].
Qed.

(** X4: the only exception that leaves [read_data] is the IndexError
    of the comment test: some row of the stream is empty or starts with
    an empty field. *)
Theorem read_data_raises (N : nat) (rows : list (row F)) (e : exn) :
  read_data rows N = Raised e ->
  e = IndexError /\ Exists (fun r => is_comment r = Raised IndexError) rows.
Proof.
  unfold read_data.
  destruct (read_rows N 0 rows (init_locals N)) as [[s' log]|e'] eqn:E;
    cbn [obind]; [discriminate|].
  intros E'. injection E' as <-. exact (read_rows_raises _ _ _ _ E).
Qed.

Lemma read_rows_error_line (N : nat) (rows : list (row F)) :
  forall irow s s' msgs,
  read_rows N irow rows s = Returned (s', msgs) ->
  msgs = []
  \/ exists k r, msgs = [ErrorReadingLine (irow + k + 1) r]
                 /\ nth_error rows k = Some r
                 /\ is_comment r = Returned false.
Proof.
  induction rows as [|r rows IH]; intros irow s s' msgs; cbn [read_rows].
  - intros E. injection E as _ <-. now left.
  - destruct (is_comment r) as [[|]|e'] eqn:Ec; [| |discriminate].
    + intros E. destruct (IH _ _ _ _ E) as [->|(k & r' & -> & Hk & Hc)]; [now left|].
      right. exists (S k), r'. repeat split; auto. do 2 f_equal. lia.
    + destruct (row_body N r s) as [[[]|e1] s1].
      * intros E. destruct (IH _ _ _ _ E) as [->|(k & r' & -> & Hk & Hc)]; [now left|].
        right. exists (S k), r'. repeat split; auto. do 2 f_equal. lia.
      * intros E. injection E as _ <-. right. exists 0, r. repeat split; auto.
        do 2 f_equal. lia.
Qed.

(** X5: [read_data] prints at most one error line; the line names a
    data row of the stream by its 1-based number, comment rows counted,
    and shows that row. *)
Theorem read_data_error_line (N : nat) (rows : list (row F)) (d : dataset F)
    (msgs : list (message F)) :
  read_data rows N = Returned (d, msgs) ->
  msgs = []
  \/ exists k r, msgs = [ErrorReadingLine (k + 1) r]
                 /\ nth_error rows k = Some r
                 /\ is_comment r = Returned false.
Proof.
  unfold read_data.
  destruct (read_rows N 0 rows (init_locals N)) as [[s' log]|e'] eqn:E;
    cbn [obind fst snd]; [|discriminate].
  intros E'. injection E' as _ <-.
  exact (read_rows_error_line _ _ _ _ E).
Qed.

Lemma read_rows_ignores_rest (N : nat) (rows : list (row F)) :
  forall irow s s' n r,
  read_rows N irow rows s = Returned (s', [ErrorReadingLine n r]) ->
  irow < n
  /\ forall rest,
       read_rows N irow (firstn (n - irow) rows ++ rest) s
       = Returned (s', [ErrorReadingLine n r]).
Proof.
  induction rows as [|r0 rows IH]; intros irow s s' n r; cbn [read_rows].
  - discriminate.
  - destruct (is_comment r0) as [[|]|e'] eqn:Ec; [| |discriminate].
    + intros E. destruct (IH _ _ _ _ _ E) as [Hlt Hrest]. split; [lia|].
      intros rest. replace (n - irow) with (S (n - S irow)) by lia.
      cbn [firstn app read_rows]. rewrite Ec. apply Hrest.
    + destruct (row_body N r0 s) as [[[]|e1] s1] eqn:Eb.
      * intros E. destruct (IH _ _ _ _ _ E) as [Hlt Hrest]. split; [lia|].
        intros rest. replace (n - irow) with (S (n - S irow)) by lia.
        cbn [firstn app read_rows]. rewrite Ec, Eb. apply Hrest.
      * intros E. injection E as <- <- <-. split; [lia|].
        intros rest. replace (irow + 1 - irow) with 1 by lia.
        cbn [firstn app read_rows]. rewrite Ec, Eb. reflexivity.
Qed.

(** X6: nothing after the row of the error line is read: whatever
    stands in place of the rows that follow it, the Dataset and the
    error line are the same. *)
Theorem read_data_ignores_rest (N : nat) (rows rest : list (row F)) (d : dataset F)
    (n : nat) (r : row F) :
  read_data rows N = Returned (d, [ErrorReadingLine n r]) ->
  read_data (firstn n rows ++ rest) N = Returned (d, [ErrorReadingLine n r]).
Proof.
  unfold read_data.
  destruct (read_rows N 0 rows (init_locals N)) as [[s' log]|e'] eqn:E;
    cbn [obind fst snd]; [|discriminate].
  intros E'. injection E' as <- ->.
  destruct (read_rows_ignores_rest _ _ _ _ E) as [_ Hrest].
  specialize (Hrest rest). rewrite Nat.sub_0_r in Hrest. rewrite Hrest. reflexivity.
Qed.

End IngestErrors.

(** ** What every Dataset of [read_data] satisfies *)

Lemma dict_set_Forall {K V : Type} (eqb : K -> K -> bool) (Q : V -> Prop)
    (k : K) (v : V) (d : list (K * V)) :
  Forall (fun kv => Q (snd kv)) d -> Q v ->
  Forall (fun kv => Q (snd kv)) (Dict.set eqb k v d).
Proof.
  intros Hd Hv. induction Hd as [|[k' v'] d Hkv Hd IH]; cbn [Dict.set].
  - constructor; [exact Hv|constructor].
  - destruct (eqb k k'); constructor; auto.
Qed.

Lemma dict_set_in {K V : Type} (eqb : K -> K -> bool) (k : K) (v : V) (d : list (K * V)) :
  exists k', In (k', v) (Dict.set eqb k v d).
Proof.
  induction d as [|[k0 v0] d [k' IH]]; cbn [Dict.set].
  - exists k. now left.
  - destruct (eqb k k0).
    + exists k0. now left.
    + exists k'. now right.
Qed.

Section Invariant.
Context {F : Type} `{PyFloat F}.
Variable N : nat.

Local Abbreviation locals := (@locals F).
Local Abbreviation stmt := (@stmt F).

Lemma keeps_ret {A : Type} (I : locals -> Prop) (a : A) (Q : A -> Prop) :
  Q a -> keeps I (ret a) Q.
Proof. intros Ha s Hs. cbn. split; [exact Hs|]. intros a' E. now injection E as <-. Qed.

Lemma keeps_bind {A B : Type} (I : locals -> Prop) (c : stmt A) (k : A -> stmt B)
    (Q : A -> Prop) (Q' : B -> Prop) :
  keeps I c Q -> (forall a, Q a -> keeps I (k a) Q') -> keeps I (bind c k) Q'.
Proof.
  intros Hc Hk s Hs. unfold bind. destruct (Hc s Hs) as [Hs' Ha].
  destruct (c s) as [[a|e] s']; cbn [fst snd] in *.
  - apply (Hk a (Ha a eq_refl) s' Hs').
  - split; [exact Hs'|discriminate].
Qed.

Lemma keeps_eval {A : Type} (I : locals -> Prop) (o : outcome A) (Q : A -> Prop) :
  (forall a, o = Returned a -> Q a) -> keeps I (eval o) Q.
Proof. intros Ho s Hs. cbn. split; [exact Hs|exact Ho]. Qed.

Lemma keeps_read {A : Type} (I : locals -> Prop) (f : locals -> A) (Q : A -> Prop) :
  (forall s, I s -> Q (f s)) -> keeps I (read f) Q.
Proof.
  intros Hf s Hs. cbn. split; [exact Hs|]. intros a E. injection E as <-. now apply Hf.
Qed.

Lemma keeps_assign (I : locals -> Prop) (f : locals -> locals) :
  (forall s, I s -> I (f s)) -> keeps I (assign f) (fun _ => True).
Proof. intros Hf s Hs. cbn. split; [now apply Hf|trivial]. Qed.

Lemma keeps_when (I : locals -> Prop) (b : bool) (c : stmt unit) :
  keeps I c (fun _ => True) -> keeps I (when b c) (fun _ => True).
Proof. intros Hc. destruct b; cbn [when]; [exact Hc|now apply keeps_ret]. Qed.

Lemma array_setitem_length (a : points F) (pt : Z) (xyz : list F) (a' : points F) :
  array_setitem a pt xyz = Returned a' -> List.length a' = List.length a.
Proof.
  unfold array_setitem.
  destruct (_ && _)%bool; [|discriminate].
  destruct xyz as [|x [|y [|z [|]]]]; try discriminate.
  intros E. injection E as <-. apply list_set_length.
Qed.

Lemma row_body_keeps (r : row F) :
  keeps (buffers_sized N) (row_body N r) (fun _ => True).
Proof.
  unfold row_body.
  eapply keeps_bind with (Q := fun _ => True).
  { apply keeps_assign. intros s Hs. exact Hs. }
  intros _ _. eapply keeps_bind with (Q := fun _ => True); [now apply keeps_eval|].
  intros ang _. eapply keeps_bind with (Q := fun _ => True); [now apply keeps_eval|].
  intros run _. eapply keeps_bind with (Q := fun _ => True); [now apply keeps_eval|].
  intros pos _. eapply keeps_bind with (Q := fun _ => True); [now apply keeps_eval|].
  intros pt _. eapply keeps_bind with (Q := fun _ => True); [now apply keeps_read|].
  intros ptx _. eapply keeps_bind with (Q := fun _ => True).
  { apply keeps_when.
    eapply keeps_bind with (Q := fun _ => True).
    { apply keeps_assign. intros s (Hp & Ha & Hr & Hd). repeat split; auto.
      cbn. apply dict_set_Forall with (Q := fun pts : points F => List.length pts = N); auto. }
    intros _ _. eapply keeps_bind with (Q := fun _ => True).
    { apply keeps_assign. intros s Hs. exact Hs. }
    intros _ _. apply keeps_assign. intros s (Hp & Ha & Hr & Hd). repeat split; auto.
    cbn. apply repeat_length. }
  intros _ _. eapply keeps_bind with (Q := fun _ => True); [now apply keeps_eval|].
  intros xyz _.
  eapply keeps_bind with (Q := fun pts : points F => List.length pts = N).
  { apply keeps_read. intros s Hs. apply Hs. }
  intros pts Hpts.
  eapply keeps_bind with (Q := fun pts : points F => List.length pts = N).
  { apply keeps_eval. intros a E. rewrite (array_setitem_length _ _ _ E). exact Hpts. }
  intros pts' Hpts'. eapply keeps_bind with (Q := fun _ => True).
  { apply keeps_assign. intros s (Hp & Ha & Hr & Hd). repeat split; auto. }
  intros _ _. eapply keeps_bind with (Q := fun _ => True).
  { apply keeps_when. eapply keeps_bind with (Q := fun _ => True);
      [|intros _ _]; apply keeps_assign; intros s Hs; exact Hs. }
  intros _ _. eapply keeps_bind with (Q := fun _ => True); [now apply keeps_read|].
  intros rnx _. eapply keeps_bind with (Q := fun _ => True).
  { apply keeps_when.
    eapply keeps_bind with (Q := fun _ => True).
    { apply keeps_assign. intros s (Hp & Ha & Hr & Hd). repeat split; auto.
      cbn. apply dict_set_Forall
        with (Q := fun ap : apos_t F =>
                     Forall (fun g : pystr * points F => List.length (snd g) = N) ap); auto. }
    intros _ _. eapply keeps_bind with (Q := fun _ => True).
    { apply keeps_assign. intros s Hs. exact Hs. }
    intros _ _. eapply keeps_bind with (Q := fun _ => True).
    { apply keeps_assign. intros s (Hp & Ha & Hr & Hd). repeat split; auto. }
    intros _ _. apply keeps_assign. intros s Hs. exact Hs. }
  intros _ _. eapply keeps_bind with (Q := fun _ => True); [now apply keeps_read|].
  intros angx _. apply keeps_when.
  eapply keeps_bind with (Q := fun _ => True); [now apply keeps_read|].
  intros frun _. eapply keeps_bind with (Q := fun _ => True).
  { apply keeps_when. eapply keeps_bind with (Q := fun _ => True).
    { apply keeps_assign. intros s (Hp & Ha & Hr & Hd). repeat split; auto.
      cbn. apply dict_set_Forall
        with (Q := fun ap : apos_t F =>
                     Forall (fun g : pystr * points F => List.length (snd g) = N) ap); auto. }
    intros _ _. apply keeps_assign. intros s (Hp & Ha & Hr & Hd). repeat split; auto. }
  intros _ _. eapply keeps_bind with (Q := fun _ => True).
  { apply keeps_assign. intros s (Hp & Ha & Hr & Hd). repeat split; auto.
    cbn. apply dict_set_Forall
      with (Q := fun rs : runs_t F =>
                   Forall (fun r : Z * apos_t F =>
                     Forall (fun g : pystr * points F => List.length (snd g) = N) (snd r)) rs);
      auto. }
  intros _ _. eapply keeps_bind with (Q := fun _ => True).
  { apply keeps_assign. intros s Hs. exact Hs. }
  intros _ _. eapply keeps_bind with (Q := fun _ => True).
  { apply keeps_assign. intros s Hs. exact Hs. }
  intros _ _. apply keeps_assign. intros s (Hp & Ha & Hr & Hd). repeat split; auto.
Qed.

Lemma read_rows_keeps (rows : list (row F)) :
  forall irow s s' msgs,
  buffers_sized N s ->
  read_rows N irow rows s = Returned (s', msgs) ->
  buffers_sized N s'.
Proof.
  induction rows as [|r rows IH]; intros irow s s' msgs Hs; cbn [read_rows].
  - intros E. injection E as <- _. exact Hs.
  - destruct (is_comment r) as [[|]|e]; [apply IH; exact Hs| |discriminate].
    destruct (row_body_keeps r Hs) as [Hs1 _].
    destruct (row_body N r s) as [[[]|e1] s1]; cbn [snd] in Hs1.
    + apply IH. exact Hs1.
    + intros E. injection E as <- _. exact Hs1.
Qed.

Lemma init_locals_sized : buffers_sized N (init_locals N).
Proof.
  repeat split; cbn; try constructor. apply repeat_length.
Qed.

Lemma final_flush_sized (s : locals) :
  buffers_sized N s ->
  points_per_position N (final_flush s) /\ holds_points (final_flush s) (_pts s).
Proof.
  intros (Hp & Ha & Hr & Hd). unfold final_flush. split.
  - apply dict_set_Forall
      with (Q := fun rs : runs_t F =>
                   Forall (fun r : Z * apos_t F =>
                     Forall (fun g : pystr * points F => List.length (snd g) = N) (snd r)) rs);
      [exact Hd|].
    apply dict_set_Forall
      with (Q := fun ap : apos_t F =>
                   Forall (fun g : pystr * points F => List.length (snd g) = N) ap);
      [exact Hr|].
    apply dict_set_Forall with (Q := fun pts : points F => List.length pts = N); auto.
  - set (apos := Dict.set pystr_eqb (Str (_bpos s)) (_pts s) (_apos s)).
    set (runs := Dict.set Z.eqb (_rnx s) apos (_runs s)).
    destruct (dict_set_in pystr_eqb (Str (_bpos s)) (_pts s) (_apos s)) as [key Hkey].
    destruct (dict_set_in Z.eqb (_rnx s) apos (_runs s)) as [run Hrun].
    destruct (dict_set_in Z.eqb (_angx s) runs (angs s)) as [ang Hang].
    exists ang, runs, run, apos, key. auto.
Qed.

(** X7: in every Dataset that [read_data] returns each position holds
    exactly [N] points, [N] being [pts_shape[0]], and there is at least
    one position. *)
Theorem read_data_points_per_position (rows : list (row F)) (d : dataset F)
    (msgs : list (message F)) :
  read_data rows N = Returned (d, msgs) ->
  points_per_position N d /\ exists pts, holds_points d pts.
Proof.
  unfold read_data.
  destruct (read_rows N 0 rows (init_locals N)) as [[s' log]|e'] eqn:E;
    cbn [obind fst snd]; [|discriminate].
  intros E'. injection E' as <- _.
  destruct (final_flush_sized (read_rows_keeps _ _ init_locals_sized E)) as [Hp Hh].
  split; [exact Hp|]. exists (_pts s'). exact Hh.
Qed.

Lemma read_rows_skips_comments (rows : list (row F)) :
  forall irow irow' s,
  match read_rows N irow rows s, read_rows N irow' (data_rows rows) s with
  | Returned (s1, m1), Returned (s2, m2) => s1 = s2 /\ List.length m1 = List.length m2
  | Raised e1, Raised e2 => e1 = e2
  | _, _ => False
  end.
Proof.
  induction rows as [|r rows IH]; intros irow irow' s; cbn [read_rows data_rows].
  - auto.
  - destruct (is_comment r) as [[|]|e] eqn:Ec.
    + apply IH.
    + cbn [read_rows]. rewrite Ec.
      destruct (row_body N r s) as [[[]|e1] s1]; [apply IH|auto].
    + cbn [read_rows]. rewrite Ec. reflexivity.
Qed.

(** X8: comment rows do not change the Dataset: a stream and the
    stream without its comment rows give the same Dataset, or raise the
    same exception. *)
Theorem read_data_skips_comments (rows : list (row F)) :
  read_dataset rows N = read_dataset (data_rows rows) N.
Proof.
  unfold read_dataset, read_data.
  pose proof (read_rows_skips_comments rows 0 0 (init_locals N)) as Hc.
  destruct (read_rows N 0 rows (init_locals N)) as [[s1 m1]|e1],
           (read_rows N 0 (data_rows rows) (init_locals N)) as [[s2 m2]|e2];
    cbn [obind fst snd]; try contradiction.
  - destruct Hc as [-> _]. reflexivity.
  - now subst.
Qed.

End Invariant.

(** ** The collection field *)

Section Collection.
Context {F : Type} `{PyFloat F}.
Variable N : nat.

Local Abbreviation locals := (@locals F).

Lemma last3_cons (c : cell F) (t : row F) :
  3 <= List.length t -> last3 (c :: t) = last3 t.
Proof.
  intros Ht. unfold last3. cbn [List.length].
  replace (S (List.length t) - 3) with (S (List.length t - 3)) by lia. reflexivity.
Qed.

Lemma row_body_collection (c c' : cell F) (t : row F) (s : locals) :
  row_body N (c :: t) s = row_body N (c' :: t) s.
Proof.
  destruct (nth_error t 3) as [c4|] eqn:E4.
  - assert (Ht : 3 <= List.length t).
    { assert (3 < List.length t) by (apply nth_error_Some; congruence). lia. }
    unfold row_body. now rewrite (last3_cons c t Ht), (last3_cons c' t Ht).
  - destruct t as [|c1 [|c2 [|c3 [|c4 t]]]]; try discriminate E4;
      unfold row_body, bind, assign, eval, row_item; cbn [nth_error obind];
      repeat (match goal with
              | |- context [py_int ?x] => destruct (py_int x)
              | |- context [py_float ?x] => destruct (py_float x)
              end; cbn [obind]);
      reflexivity.
Qed.

Lemma read_rows_collection (rows rows' : list (row F)) :
  Forall2 same_but_collection rows rows' ->
  forall irow s,
  match read_rows N irow rows s, read_rows N irow rows' s with
  | Returned (s1, m1), Returned (s2, m2) => s1 = s2 /\ List.length m1 = List.length m2
  | Raised e1, Raised e2 => e1 = e2
  | _, _ => False
  end.
Proof.
  induction 1 as [|r r' rows rows' [Ht Hc] _ IH]; intros irow s; cbn [read_rows].
  - auto.
  - rewrite <- Hc. destruct (is_comment r) as [[|]|e] eqn:Ec; [apply IH| |reflexivity].
    assert (Eb : row_body N r s = row_body N r' s).
    { destruct r as [|c t]; [cbn in Ec; discriminate Ec|].
      destruct r' as [|c' t']; [cbn in Hc; discriminate Hc|].
      cbn [tl] in Ht. subst t'. apply row_body_collection. }
    rewrite <- Eb. destruct (row_body N r s) as [[[]|e1] s1]; [apply IH|auto].
Qed.

(** X9: the first field of a data row, the collection, is never
    read: two streams that differ in the first fields of their rows
    only, comment rows staying comment rows, give the same Dataset. *)
Theorem read_data_ignores_collection (rows rows' : list (row F)) :
  Forall2 same_but_collection rows rows' ->
  read_dataset rows N = read_dataset rows' N.
Proof.
  intros Hrows. unfold read_dataset, read_data.
  pose proof (read_rows_collection Hrows 0 (init_locals N)) as Hc.
  destruct (read_rows N 0 rows (init_locals N)) as [[s1 m1]|e1],
           (read_rows N 0 rows' (init_locals N)) as [[s2 m2]|e2];
    cbn [obind fst snd]; try contradiction.
  - destruct Hc as [-> _]. reflexivity.
  - now subst.
Qed.

End Collection.

(** ** Stopped and relabelled streams (floats with integer values) *)

Module IngestErrorExamples.
Import IngestInputs.
Import CollectionInputs.
Open Scope Z_scope.
Open Scope string_scope.

Lemma read_data_raises_witness :
  IndexError = IndexError
  /\ Exists (fun r : row Z => is_comment r = Raised IndexError) (first_group ++ [[]]).
Proof.
  apply (@read_data_raises Z _ 12 (first_group ++ [[]]) IndexError).
  vm_compute. reflexivity.
Defined.

Lemma read_data_error_line_witness :
  [ErrorReadingLine 13 bad_position_row] = []
  \/ exists k r,
       [ErrorReadingLine 13 bad_position_row] = [ErrorReadingLine (k + 1) r]
       /\ nth_error (first_group ++ bad_position_row :: first_group) k = Some r
       /\ is_comment r = Returned false.
Proof.
  apply (@read_data_error_line Z _ 12 (first_group ++ bad_position_row :: first_group)
           [(0, [(0, [(Str (PyFloat_ 5), pts12)])])]
           [ErrorReadingLine 13 bad_position_row]).
  vm_compute. reflexivity.
Defined.

Lemma read_data_ignores_rest_witness :
  read_data (firstn 13 (first_group ++ bad_position_row :: first_group) ++ comments_only) 12
  = Returned ([(0, [(0, [(Str (PyFloat_ 5), pts12)])])],
              [ErrorReadingLine 13 bad_position_row]).
Proof.
  apply (@read_data_ignores_rest Z _ 12 (first_group ++ bad_position_row :: first_group)
           comments_only [(0, [(0, [(Str (PyFloat_ 5), pts12)])])] 13 bad_position_row).
  vm_compute. reflexivity.
Defined.

Lemma read_data_points_per_position_witness :
  points_per_position 12 [(0, [(0, [(Str (PyFloat_ 5), np_zeros 12)])])]
  /\ exists pts, holds_points [(0, [(0, [(Str (PyFloat_ 5), np_zeros 12)])])] pts.
Proof.
  apply (@read_data_points_per_position Z _ 12 (first_group ++ [bad_coordinate_row])
           [(0, [(0, [(Str (PyFloat_ 5), np_zeros 12)])])]
           [ErrorReadingLine 13 bad_coordinate_row]).
  vm_compute. reflexivity.
Defined.

Lemma read_data_ignores_collection_witness :
  read_dataset first_group 12 = read_dataset (map (relabel 7) first_group) 12.
Proof.
  apply (@read_data_ignores_collection Z _ 12 first_group (map (relabel 7) first_group)).
  unfold first_group, group_rows. cbn [fst snd group_rows_from pts12 map].
  repeat constructor.
Defined.

End IngestErrorExamples.

(** ** Floats that are what they print *)

#[export] Instance PyFloatExact_Z : PyFloatExact Z.
Proof.
  split; cbn.
  - intros x y. apply Z.eqb_eq.
  - intros x y. apply Z.eqb_eq.
Qed.

Lemma feqb_sound (x y : float64) : feqb x y = true -> x = y.
Proof.
  destruct x as [a| | |], y as [b| | |]; cbn; try discriminate; try reflexivity.
  destruct (Req_dec_T a b) as [->|]; [reflexivity|discriminate].
Qed.

Lemma feqb_refl (x : float64) : x <> NaN -> feqb x x = true.
Proof.
  destruct x as [a| | |]; cbn; try reflexivity; [|congruence].
  destruct (Req_dec_T a a); [reflexivity|contradiction].
Qed.

#[export] Instance PyFloatExact_float64 : PyFloatExact float64.
Proof.
  split; cbn.
  - exact feqb_sound.
  - intros x y. split.
    + destruct x as [a| | |], y as [b| | |]; cbn; try discriminate; try reflexivity.
      destruct (Req_dec_T a b) as [->|]; [reflexivity|discriminate].
    + intros <-. destruct x as [a| | |]; cbn; try reflexivity.
      destruct (Req_dec_T a a); [reflexivity|contradiction].
Qed.

(** ** Dictionaries whose keys compare by equality *)

Section DictLaws.
Context {K V : Type}.
Variable eqb : K -> K -> bool.
Hypothesis eqb_eq : forall a b, eqb a b = true <-> a = b.

Lemma eqb_refl_true (k : K) : eqb k k = true.
Proof. now apply eqb_eq. Qed.

Lemma eqb_neq_false (k k' : K) : k <> k' -> eqb k k' = false.
Proof.
  intros Hne. destruct (eqb k k') eqn:E; [|reflexivity].
  apply eqb_eq in E. contradiction.
Qed.

Lemma dict_get_set_same (k : K) (v : V) (d : list (K * V)) :
  Dict.get eqb k (Dict.set eqb k v d) = Some v.
Proof.
  induction d as [|[k0 v0] d IH]; cbn [Dict.set Dict.get].
  - now rewrite eqb_refl_true.
  - destruct (eqb k k0) eqn:E; cbn [Dict.get]; rewrite E; auto.
Qed.

Lemma dict_get_set_other (k k' : K) (v : V) (d : list (K * V)) :
  k' <> k ->
  Dict.get eqb k' (Dict.set eqb k v d) = Dict.get eqb k' d.
Proof.
  intros Hne. induction d as [|[k0 v0] d IH]; cbn [Dict.set Dict.get].
  - now rewrite (eqb_neq_false Hne).
  - destruct (eqb k k0) eqn:E; cbn [Dict.get].
    + apply eqb_eq in E. subst k0. now rewrite (eqb_neq_false Hne).
    + now rewrite IH.
Qed.

Lemma dict_get_In (k : K) (v : V) (d : list (K * V)) :
  Dict.get eqb k d = Some v -> In (k, v) d.
Proof.
  induction d as [|[k0 v0] d IH]; cbn [Dict.get]; [discriminate|].
  destruct (eqb k k0) eqn:E.
  - apply eqb_eq in E. subst k0. intros E'. injection E' as ->. now left.
  - intros E'. right. auto.
Qed.

Lemma dict_set_keys (k : K) (v : V) (d : list (K * V)) :
  Dict.keys (Dict.set eqb k v d) = Dict.keys d
  \/ (~ In k (Dict.keys d) /\ Dict.keys (Dict.set eqb k v d) = Dict.keys d ++ [k]).
Proof.
  unfold Dict.keys. induction d as [|[k0 v0] d IH]; cbn [Dict.set map app].
  - right. split; [intros []|reflexivity].
  - destruct (eqb k k0) eqn:E; cbn [map fst].
    + now left.
    + destruct IH as [->|[Hnin ->]]; [now left|].
      right. split; [|reflexivity].
      intros [->|Hin]; [|contradiction].
      rewrite eqb_refl_true in E. discriminate.
Qed.

Lemma dict_set_keys_NoDup (k : K) (v : V) (d : list (K * V)) :
  NoDup (Dict.keys d) -> NoDup (Dict.keys (Dict.set eqb k v d)).
Proof.
  intros Hnd. destruct (dict_set_keys k v d) as [->|[Hnin ->]]; [exact Hnd|].
  apply NoDup_app; [exact Hnd|constructor; [intros []|constructor]|].
  intros x Hx [<-|[]]. contradiction.
Qed.

End DictLaws.

(** ** [get_dats]: what it returns and what it raises *)

Section SelectionReturns.
Context {F : Type} `{PyFloatExact F}.

Lemma float_eqb_distinct (x y : F) : x <> y -> float_eqb x y = false.
Proof.
  intros Hne. destruct (float_eqb x y) eqn:E; [|reflexivity].
  apply float_eqb_sound in E. contradiction.
Qed.

Lemma sort_insert_returns (x : F * points F) (l : list (F * points F)) :
  ~ In (fst x) (map fst l) ->
  exists l', sort_insert x l = Returned l' /\ Permutation (x :: l) l'.
Proof.
  induction l as [|y l IH]; intros Hnin; cbn [sort_insert].
  - exists [x]. auto.
  - assert (Hxy : fst x <> fst y) by (intros E; apply Hnin; left; auto).
    unfold tuple_lt. rewrite (float_eqb_distinct Hxy). cbn [obind].
    destruct (float_ltb (fst x) (fst y)).
    + exists (x :: y :: l). auto.
    + destruct IH as (l' & -> & Hp).
      { intros Hin. apply Hnin. right. exact Hin. }
      cbn [obind]. exists (y :: l'). split; [reflexivity|].
      rewrite perm_swap. now constructor.
Qed.

Lemma py_sort_returns (l : list (F * points F)) :
  NoDup (map fst l) ->
  exists l', py_sort l = Returned l' /\ Permutation l l'.
Proof.
  induction l as [|x l IH]; intros Hnd; cbn [py_sort].
  - exists []. auto.
  - cbn [map] in Hnd. apply NoDup_cons_iff in Hnd as [Hx Hnd].
    destruct (IH Hnd) as (l1 & -> & Hp). cbn [obind].
    destruct (@sort_insert_returns x l1) as (l' & E & Hp').
    { intros Hin. apply Hx. eapply Permutation_in; [|exact Hin].
      apply Permutation_map. now symmetry. }
    exists l'. split; [exact E|]. rewrite <- Hp'. now constructor.
Qed.

Lemma sort_insert_raises (x : F * points F) (l : list (F * points F)) (e : exn) :
  sort_insert x l = Raised e -> e = ValueError.
Proof.
  induction l as [|y l IH]; cbn [sort_insert]; [discriminate|].
  unfold tuple_lt. destruct (float_eqb (fst x) (fst y)); cbn [obind]; [congruence|].
  destruct (float_ltb (fst x) (fst y)); [discriminate|].
  destruct (sort_insert x l) as [l'|e']; cbn [obind]; [discriminate|].
  intros E. injection E as <-. now apply IH.
Qed.

Lemma py_sort_raises (l : list (F * points F)) (e : exn) :
  py_sort l = Raised e -> e = ValueError.
Proof.
  induction l as [|x l IH]; cbn [py_sort]; [discriminate|].
  destruct (py_sort l) as [l1|e1]; cbn [obind].
  - apply sort_insert_raises.
  - intros E. injection E as <-. now apply IH.
Qed.

Lemma get_dats_loop_raises (showInfos : bool) (pos : option F) (d : apos_t F) :
  forall acc e log,
  get_dats_loop showInfos pos d acc = (Raised e, log) -> e = ValueError /\ log = [].
Proof.
  induction d as [|[k pts] d IH]; intros acc e log; cbn [get_dats_loop]; [discriminate|].
  destruct (pos_matches (float_of_str k) pos); [discriminate|].
  destruct (py_sort (acc ++ [(float_of_str k, pts)])) as [l|e1] eqn:E.
  - apply IH.
  - intros E'. injection E' as <- <-. split; [|reflexivity].
    exact (py_sort_raises _ E).
Qed.

Lemma NoDup_step (acc l1 : list (F * points F)) (p : F) (pts : points F) (rest : list F) :
  NoDup (map fst acc ++ p :: rest) ->
  Permutation (acc ++ [(p, pts)]) l1 ->
  NoDup (map fst l1 ++ rest).
Proof.
  intros Hnd Hp. eapply Permutation_NoDup; [|exact Hnd].
  change (p :: rest) with ([p] ++ rest).
  rewrite app_assoc. apply Permutation_app_tail.
  change [p] with (map fst [(p, pts)]).
  rewrite <- map_app. now apply Permutation_map.
Qed.

Lemma get_dats_loop_returns (showInfos : bool) (pos : option F) (d : apos_t F) :
  forall acc,
  NoDup (map fst acc ++ positions d) ->
  exists r log, get_dats_loop showInfos pos d acc = (Returned r, log).
Proof.
  induction d as [|[k pts] d IH]; intros acc Hnd; cbn [get_dats_loop].
  - eauto.
  - destruct (pos_matches (float_of_str k) pos); [eauto|].
    change (positions ((k, pts) :: d)) with (float_of_str k :: positions d) in Hnd.
    destruct (@py_sort_returns (acc ++ [(float_of_str k, pts)])) as (l1 & -> & Hp1).
    { rewrite map_app. cbn [map fst].
      apply NoDup_app_remove_r with (l' := positions d).
      rewrite <- app_assoc. exact Hnd. }
    apply IH. eapply NoDup_step; [exact Hnd|exact Hp1].
Qed.

Lemma get_dats_loop_matched (showInfos : bool) (pos : F) (d : apos_t F)
    (k : pystr) (pts : points F) :
  float_eqb pos pos = true ->
  float_of_str k = pos ->
  In (k, pts) d ->
  forall acc,
  NoDup (map fst acc ++ positions d) ->
  get_dats_loop showInfos (Some pos) d acc
  = (Returned (DatsOne pos pts), if showInfos then [InfoDataForPosition pos] else []).
Proof.
  intros Hrefl Hk. induction d as [|[k0 pts0] d IH]; intros Hin acc Hnd; [destruct Hin|].
  cbn [get_dats_loop pos_matches].
  change (positions ((k0, pts0) :: d)) with (float_of_str k0 :: positions d) in Hnd.
  assert (Hhead : ~ In (float_of_str k0) (positions d)).
  { apply NoDup_remove_2 in Hnd. intros Hin'. apply Hnd. apply in_or_app. now right. }
  destruct (float_eqb (float_of_str k0) pos) eqn:E.
  - apply float_eqb_sound in E. rewrite E.
    destruct Hin as [Heq|Hin].
    + injection Heq as _ ->. reflexivity.
    + exfalso. apply Hhead. rewrite E, <- Hk.
      unfold positions. apply in_map_iff. exists (k, pts). auto.
  - destruct Hin as [Heq|Hin].
    + injection Heq as -> _. rewrite Hk, Hrefl in E. discriminate.
    + destruct (@py_sort_returns (acc ++ [(float_of_str k0, pts0)])) as (l1 & -> & Hp1).
      { rewrite map_app. cbn [map fst].
        apply NoDup_app_remove_r with (l' := positions d).
        rewrite <- app_assoc. exact Hnd. }
      apply IH; [exact Hin|]. eapply NoDup_step; [exact Hnd|exact Hp1].
Qed.

(** X11: with a [pos] that equals a stored position, the stored
    positions of the run being distinct numbers, [get_dats] returns the
    two-element list of that position and its points, and prints its
    line under [showInfos]. *)
Theorem get_dats_matched_pos (showInfos : bool) (dats : dataset F) (ang run : Z)
    (runs : runs_t F) (d : apos_t F) (k : pystr) (pts : points F) :
  Dict.get Z.eqb ang dats = Some runs ->
  Dict.get Z.eqb run runs = Some d ->
  NoDup (positions d) ->
  In (k, pts) d ->
  float_eqb (float_of_str k) (float_of_str k) = true ->
  get_dats showInfos dats ang run (Some (float_of_str k))
  = (Returned (DatsOne (float_of_str k) pts),
     if showInfos then [InfoDataForPosition (float_of_str k)] else []).
Proof.
  intros Ha Hr Hnd Hin Hrefl. unfold get_dats. rewrite Ha, Hr.
  now apply get_dats_loop_matched with (k := k).
Qed.

(** X12: when [get_dats] raises, either it raises a NameError and the
    Dataset does not hold the angle or the run, or it raises the
    ValueError of the sort and two stored positions of the run are the
    same number.  Nothing is printed in either case. *)
Theorem get_dats_raises (showInfos : bool) (dats : dataset F) (ang run : Z)
    (pos : option F) (e : exn) (log : list (message F)) :
  get_dats showInfos dats ang run pos = (Raised e, log) ->
  log = []
  /\ ((e = NameError
       /\ (Dict.get Z.eqb ang dats = None
           \/ exists runs, Dict.get Z.eqb ang dats = Some runs
                           /\ Dict.get Z.eqb run runs = None))
      \/ (e = ValueError
          /\ exists runs d, Dict.get Z.eqb ang dats = Some runs
                            /\ Dict.get Z.eqb run runs = Some d
                            /\ ~ NoDup (positions d))).
Proof.
  unfold get_dats.
  destruct (Dict.get Z.eqb ang dats) as [runs|] eqn:Ea.
  - destruct (Dict.get Z.eqb run runs) as [d|] eqn:Er.
    + intros E. destruct (get_dats_loop_raises _ _ _ _ E) as [-> ->].
      split; [reflexivity|]. right. split; [reflexivity|].
      exists runs, d. repeat split; auto.
      intros Hnd. destruct (@get_dats_loop_returns showInfos pos d [] Hnd) as (r & log' & E').
      congruence.
    + intros E. injection E as <- <-. split; [reflexivity|]. left.
      split; [reflexivity|]. right. exists runs. auto.
  - intros E. injection E as <- <-. split; [reflexivity|]. left.
    split; [reflexivity|]. now left.
Qed.

End SelectionReturns.

(** ** [get_dats] and the order of insertion *)

Section SelectionOrder.
Context {F : Type} `{PyFloatOrder F}.
Hypothesis float_ltb_irrefl : forall x : F, float_ltb x x = false.

Lemma sorted_unique (l l' : list (F * points F)) :
  StronglySorted by_position l ->
  StronglySorted by_position l' ->
  Permutation l l' ->
  l = l'.
Proof.
  revert l'. induction l as [|x l IH]; intros l' Hs Hs' Hp.
  - apply Permutation_nil in Hp. now subst.
  - destruct l' as [|y l'].
    { symmetry in Hp. apply Permutation_nil in Hp. discriminate. }
    apply StronglySorted_inv in Hs as [Hs Hx].
    apply StronglySorted_inv in Hs' as [Hs' Hy].
    rewrite Forall_forall in Hx, Hy.
    assert (Exy : x = y).
    { assert (Hx' : In x (y :: l')) by (eapply Permutation_in; [exact Hp|now left]).
      assert (Hy' : In y (x :: l))
        by (eapply Permutation_in; [symmetry; exact Hp|now left]).
      destruct Hx' as [->|Hx']; [reflexivity|].
      destruct Hy' as [->|Hy']; [reflexivity|].
      pose proof (Hx _ Hy') as Lxy. pose proof (Hy _ Hx') as Lyx.
      unfold by_position in Lxy, Lyx.
      pose proof (float_ltb_trans _ _ _ Lxy Lyx) as C.
      rewrite float_ltb_irrefl in C. discriminate. }
    subst y. f_equal. apply IH; auto.
    eapply Permutation_cons_inv. exact Hp.
Qed.

Lemma get_dats_loop_all (showInfos : bool) (d : apos_t F) :
  forall acc,
  NoDup (map fst acc ++ positions d) ->
  StronglySorted by_position acc ->
  exists l, get_dats_loop showInfos None d acc = (Returned (DatsAll l), [])
            /\ Permutation l (acc ++ tuples d)
            /\ StronglySorted by_position l.
Proof.
  induction d as [|[k pts] d IH]; intros acc Hnd Hs; cbn [get_dats_loop pos_matches].
  - exists acc. cbn. rewrite app_nil_r. auto.
  - change (positions ((k, pts) :: d)) with (float_of_str k :: positions d) in Hnd.
    destruct (@py_sort_sorted _ _ _ (acc ++ [(float_of_str k, pts)])) as (l1 & -> & Hp1 & Hs1).
    { rewrite map_app. cbn [map fst].
      apply NoDup_app_remove_r with (l' := positions d).
      rewrite <- app_assoc. exact Hnd. }
    destruct (IH l1) as (l & E & Hp & Hs').
    { eapply Permutation_NoDup; [|exact Hnd].
      change (float_of_str k :: positions d) with ([float_of_str k] ++ positions d).
      rewrite app_assoc. apply Permutation_app_tail.
      change [float_of_str k] with (map fst [(float_of_str k, pts)]).
      rewrite <- map_app. now apply Permutation_map. }
    { exact Hs1. }
    exists l. repeat split; auto.
    rewrite Hp.
    change (tuples ((k, pts) :: d)) with ([(float_of_str k, pts)] ++ tuples d).
    rewrite app_assoc. apply Permutation_app_tail. now symmetry.
Qed.


End SelectionOrder.

(** ** From the stream to the selector *)

Lemma dict_set_Forall_keys {K V : Type} (eqb : K -> K -> bool) (Q : K -> Prop)
    (k : K) (v : V) (d : list (K * V)) :
  Forall (fun kv => Q (fst kv)) d -> Q k ->
  Forall (fun kv => Q (fst kv)) (Dict.set eqb k v d).
Proof.
  intros Hd Hk. induction Hd as [|[k' v'] d Hkv Hd IH]; cbn [Dict.set].
  - constructor; [exact Hk|constructor].
  - destruct (eqb k k'); constructor; auto.
Qed.

Section StreamToSelector.
Context {F : Type} `{PyFloatExact F}.

Lemma pystr_eqb_eq (a b : pystr) : pystr_eqb a b = true <-> a = b.
Proof.
  destruct a as [[x|x]], b as [[y|y]]; cbn [pystr_eqb].
  - rewrite Z.eqb_eq. split; [now intros ->|congruence].
  - split; discriminate.
  - split; discriminate.
  - rewrite float_same_repr_eq. split; [now intros ->|congruence].
Qed.

Lemma fold_flush_keys (gs : list (group F)) :
  forall d0 : apos_t F,
  NoDup (Dict.keys d0) ->
  Forall (fun kv => float_key (fst kv)) d0 ->
  NoDup (Dict.keys (fold_left flush_group gs d0))
  /\ Forall (fun kv => float_key (fst kv)) (fold_left flush_group gs d0).
Proof.
  induction gs as [|g gs IH]; intros d0 Hnd Hk; cbn [fold_left]; [auto|].
  apply IH.
  - apply dict_set_keys_NoDup; [exact pystr_eqb_eq|exact Hnd].
  - apply dict_set_Forall_keys; [exact Hk|]. now exists (fst g).
Qed.

Lemma positions_NoDup (d : apos_t F) :
  NoDup (Dict.keys d) ->
  Forall (fun kv => float_key (fst kv)) d ->
  NoDup (positions d).
Proof.
  unfold Dict.keys, positions. induction d as [|[k pts] d IH]; cbn [map fst]; intros Hnd Hk.
  - constructor.
  - apply NoDup_cons_iff in Hnd as [Hnin Hnd].
    pose proof (Forall_inv Hk) as [f Hf]. pose proof (Forall_inv_tail Hk) as Hk'.
    cbn [fst] in Hf. subst k.
    constructor; [|now apply IH].
    intros Hin. apply in_map_iff in Hin as ([k' pts'] & E & Hin').
    rewrite Forall_forall in Hk'. destruct (Hk' _ Hin') as [f' Hf'].
    cbn [fst] in E, Hf'. subst k'. cbn [float_of_str] in E. subst f'.
    apply Hnin. apply in_map_iff. exists (Str (PyFloat_ f), pts'). auto.
Qed.

Lemma apos_of_positions_NoDup (gs : list (group F)) : NoDup (positions (apos_of gs)).
Proof.
  destruct (@fold_flush_keys gs []) as [Hnd Hk]; [constructor|constructor|].
  now apply positions_NoDup.
Qed.

Lemma fold_flush_get_other (p : F) (gs : list (group F)) :
  Forall (fun g' : group F => fst g' <> p) gs ->
  forall d0 : apos_t F,
  Dict.get pystr_eqb (Str (PyFloat_ p)) (fold_left flush_group gs d0)
  = Dict.get pystr_eqb (Str (PyFloat_ p)) d0.
Proof.
  induction 1 as [|g gs Hg _ IH]; intros d0; cbn [fold_left]; [reflexivity|].
  rewrite IH. unfold flush_group. apply dict_get_set_other; [exact pystr_eqb_eq|].
  intros E. injection E as E. now symmetry in E.
Qed.

(** The last group written at a position is the one the run keeps. *)
Lemma apos_of_get_last (before after : list (group F)) (g : group F) :
  Forall (fun g' : group F => fst g' <> fst g) after ->
  Dict.get pystr_eqb (Str (PyFloat_ (fst g))) (apos_of (before ++ g :: after)) = Some (snd g).
Proof.
  intros Hafter. unfold apos_of. rewrite fold_left_app. cbn [fold_left].
  rewrite (fold_flush_get_other Hafter). unfold flush_group at 1.
  apply dict_get_set_same. exact pystr_eqb_eq.
Qed.

Lemma runs_of_get (a : list (list (group F))) :
  forall (j0 j : nat) (gs : list (group F)),
  nth_error a j = Some gs ->
  Dict.get Z.eqb (Z.of_nat (j0 + j)) (runs_of j0 a) = Some (apos_of gs).
Proof.
  induction a as [|gs0 a IH]; intros j0 [|j] gs; cbn [nth_error runs_of Dict.get];
    try discriminate.
  - intros E. injection E as ->. rewrite Nat.add_0_r, Z.eqb_refl. reflexivity.
  - intros E. replace (Z.of_nat (j0 + S j) =? Z.of_nat j0)%Z with false
      by (symmetry; apply Z.eqb_neq; lia).
    replace (j0 + S j) with (S j0 + j) by lia. now apply IH.
Qed.

Lemma angles_of_get (c : construction F) :
  forall (i0 i : nat) (a : list (list (group F))),
  nth_error c i = Some a ->
  Dict.get Z.eqb (Z.of_nat (i0 + i)) (angles_of i0 c) = Some (runs_of 0 a).
Proof.
  induction c as [|a0 c IH]; intros i0 [|i] a; cbn [nth_error angles_of Dict.get];
    try discriminate.
  - intros E. injection E as ->. rewrite Nat.add_0_r, Z.eqb_refl. reflexivity.
  - intros E. replace (Z.of_nat (i0 + S i) =? Z.of_nat i0)%Z with false
      by (symmetry; apply Z.eqb_neq; lia).
    replace (i0 + S i) with (S i0 + i) by lia. now apply IH.
Qed.


End StreamToSelector.

(** ** Selection and round trip on concrete Datasets *)

Module LookupExamples.
Import SelectionInputs.
Import LookupInputs.
Import RoundTripInputs.
Open Scope Z_scope.

Lemma get_dats_matched_pos_witness :
  get_dats true two_positions 0 0 (Some 3)
  = (Returned (DatsOne 3 [(4, 5, 6)]), [InfoDataForPosition 3]).
Proof.
  apply (@get_dats_matched_pos Z _ _ true two_positions 0 0
           [(0, [(Str (PyFloat_ 5), [(1, 2, 3)]); (Str (PyFloat_ 3), [(4, 5, 6)])])]
           [(Str (PyFloat_ 5), [(1, 2, 3)]); (Str (PyFloat_ 3), [(4, 5, 6)])]
           (Str (PyFloat_ 3)) [(4, 5, 6)]).
  - reflexivity.
  - reflexivity.
  - cbn. repeat constructor; cbn; intuition discriminate.
  - right. left. reflexivity.
  - reflexivity.
Defined.

Lemma get_dats_raises_witness :
  @nil (message Z) = []
  /\ ((ValueError = NameError
       /\ (Dict.get Z.eqb 0 equal_positions = None
           \/ exists runs, Dict.get Z.eqb 0 equal_positions = Some runs
                           /\ Dict.get Z.eqb 0 runs = None))
      \/ (ValueError = ValueError
          /\ exists runs d, Dict.get Z.eqb 0 equal_positions = Some runs
                            /\ Dict.get Z.eqb 0 runs = Some d
                            /\ ~ NoDup (positions d))).
Proof.
  apply (@get_dats_raises Z _ _ false equal_positions 0 0 None ValueError []).
  vm_compute. reflexivity.
Defined.


Lemma c2_angles_ok : Forall (angle_ok 2) c2.
Proof.
  unfold c2, angle_ok, run_ok, groups_ok.
  repeat (constructor; try (split; [discriminate|])); try reflexivity.
Qed.


End LookupExamples.

(** ** The geometry helpers on all of numpy's values *)

Open Scope R_scope.

(** ** Arithmetic that cannot go below zero *)

Lemma fadd_comm (x y : float64) : fadd x y = fadd y x.
Proof.
  destruct x as [a| | |], y as [b| | |]; cbn; try reflexivity.
  f_equal. ring.
Qed.

Lemma fmul_comm (x y : float64) : fmul x y = fmul y x.
Proof.
  destruct x as [a| | |], y as [b| | |]; cbn; try reflexivity.
  f_equal. ring.
Qed.

Lemma fsq_nonneg (d : float64) : nonneg_or_nan (fmul d d).
Proof.
  destruct d as [a| | |]; cbn; auto.
  pose proof (Rle_0_sqr a) as Ha. unfold Rsqr in Ha. exact Ha.
Qed.

Lemma fadd_nonneg (x y : float64) :
  nonneg_or_nan x -> nonneg_or_nan y -> nonneg_or_nan (fadd x y).
Proof.
  destruct x as [a| | |], y as [b| | |]; cbn; auto; try contradiction. lra.
Qed.

Lemma math_sqrt_nonneg (x : float64) :
  nonneg_or_nan x -> exists n, math_sqrt x = Returned n /\ nonneg_or_nan n.
Proof.
  destruct x as [a| | |]; cbn; try contradiction.
  - intros Ha. destruct (Rlt_dec a 0); [lra|].
    exists (Fin (sqrt a)). split; [reflexivity|]. cbn. apply sqrt_pos.
  - intros _. exists PosInf. split; [reflexivity|exact I].
  - intros _. exists NaN. split; [reflexivity|exact I].
Qed.

Lemma fabs_nonneg (x : float64) : nonneg_or_nan (fabs x).
Proof. destruct x as [a| | |]; cbn; auto. apply Rabs_pos. Qed.

Lemma fdiv_nonneg (x y : float64) :
  nonneg_or_nan x -> nonneg_or_nan y -> nonneg_or_nan (fdiv x y).
Proof.
  destruct x as [a| | |], y as [b| | |]; cbn; auto; try contradiction.
  - intros Ha Hb. destruct (Req_dec_T b 0) as [->|Hb0].
    + unfold Rsign. destruct (Rlt_dec 0 a); [exact I|].
      destruct (Rlt_dec a 0); [lra|exact I].
    + cbn. apply Rmult_le_pos; [exact Ha|].
      apply Rlt_le, Rinv_0_lt_compat. lra.
  - intros _ _. lra.
  - intros _ Hb. destruct (Rlt_dec b 0); [lra|exact I].
Qed.

Lemma fsq_fsub_comm (x y : float64) :
  fmul (fsub x y) (fsub x y) = fmul (fsub y x) (fsub y x).
Proof.
  destruct x as [a| | |], y as [b| | |]; cbn; try reflexivity.
  f_equal. ring.
Qed.

(** ** [get_circle_radius] *)

Lemma dist3_zero (p c : rvec) : dist3 p c = 0 <-> p = c.
Proof.
  destruct p as [[x y] z], c as [[x0 y0] z0]. unfold dist3, rsub, rdot.
  pose proof (Rle_0_sqr (x - x0)) as Hx. pose proof (Rle_0_sqr (y - y0)) as Hy.
  pose proof (Rle_0_sqr (z - z0)) as Hz. unfold Rsqr in *.
  split.
  - intros E. apply sqrt_eq_0 in E; [|lra].
    assert (Ex : (x - x0) * (x - x0) = 0) by lra.
    assert (Ey : (y - y0) * (y - y0) = 0) by lra.
    assert (Ez : (z - z0) * (z - z0) = 0) by lra.
    apply Rsqr_0_uniq in Ex, Ey, Ez.
    f_equal; [f_equal|]; lra.
  - intros E. injection E as -> -> ->.
    replace ((x0 - x0) * (x0 - x0) + (y0 - y0) * (y0 - y0) + (z0 - z0) * (z0 - z0))
      with 0 by ring.
    apply sqrt_0.
Qed.


(** ** [get_sag_plane_dist] *)

Lemma dot4_nonneg (sp : plane) : nonneg_or_nan (dot4 sp sp).
Proof.
  destruct sp as [[[a b] c] d]. unfold dot4.
  repeat apply fadd_nonneg; apply fsq_nonneg.
Qed.

(** X15: [get_sag_plane_dist] never raises, whatever the plane and
    the point, and what it returns is not negative. *)
Theorem get_sag_plane_dist_never_raises (sp : option plane) (P : vec) :
  exists v log, get_sag_plane_dist sp P = (Returned v, log) /\ nonneg_or_nan v.
Proof.
  destruct sp as [sp|]; cbn [get_sag_plane_dist].
  - destruct P as [[P0 P1] P2]. pose proof (dot4_nonneg sp) as Hn.
    destruct sp as [[[a b] c] d].
    destruct (math_sqrt_nonneg _ Hn) as (n & -> & Hn'). cbn [obind].
    eexists. eexists. split; [reflexivity|].
    apply fdiv_nonneg; [apply fabs_nonneg|exact Hn'].
  - exists (Fin 0), [ErrorPlaneNotSet]. split; [reflexivity|]. cbn. lra.
Qed.

Lemma sum_sqr_pos (A B C : R) : (A, B, C) <> (0, 0, 0) -> 0 < A * A + B * B + C * C.
Proof. intros Hn. exact (rdot_self_pos Hn). Qed.

Lemma get_sag_plane_dist_fin (A B C D : R) (p : rvec) :
  (A, B, C) <> (0, 0, 0) ->
  get_sag_plane_dist (Some (Fin A, Fin B, Fin C, Fin D)) (fin3 p)
  = (Returned (Fin (let '(x, y, z) := p in
                    Rabs (x * A + y * B + z * C + D)
                    / sqrt (A * A + B * B + C * C + D * D))), []).
Proof.
  intros Hn. pose proof (sum_sqr_pos Hn) as Hp.
  pose proof (Rle_0_sqr D) as HD. unfold Rsqr in HD.
  destruct p as [[x y] z]. unfold get_sag_plane_dist, fin3, dot4. cbn [fmul fadd fabs].
  rewrite math_sqrt_fin by lra. cbn [obind].
  rewrite fdiv_fin; [reflexivity|].
  assert (0 < sqrt (A * A + B * B + C * C + D * D)) by (apply sqrt_lt_R0; lra). lra.
Qed.


(** ** [set_sag_plane] and the point it is given *)

Section PlaneThroughPoint.
Variable rotate : vec -> vec -> float64 -> vec.

(** X17: the plane that [set_sag_plane] sets passes through the point
    it is given: when the rotated normal is finite and not zero,
    [get_sag_plane_dist] of that point is zero and [test_point_on_plane]
    finds it on the plane. *)
Theorem set_sag_plane_through_P0 (self : self_t) (P0 n : rvec) (th0 : float64) :
  rotate (Fin 0, Fin 0, Fin 1) (Fin 1, Fin 0, Fin 0) (math_radians (fsub (Fin 90) th0))
  = fin3 n ->
  n <> (0, 0, 0) ->
  get_sag_plane_dist (self_sp (set_sag_plane rotate self (fin3 P0) th0)) (fin3 P0)
  = (Returned (Fin 0), [])
  /\ test_point_on_plane (fin3 P0) (self_sp (set_sag_plane rotate self (fin3 P0) th0))
     = Returned PointOnPlane.
Proof.
  intros Hrot Hn. unfold set_sag_plane. rewrite Hrot.
  destruct n as [[A B] C], P0 as [[x y] z]. cbn [fin3 self_sp dot fmul fadd fneg].
  split.
  - change (Fin x, Fin y, Fin z) with (fin3 (x, y, z)).
    rewrite (get_sag_plane_dist_fin (- (x * A + y * B + z * C)) (x, y, z) Hn).
    do 3 f_equal.
    replace (x * A + y * B + z * C + - (x * A + y * B + z * C)) with 0 by ring.
    rewrite Rabs_R0. unfold Rdiv. ring.
  - unfold test_point_on_plane, dot. cbn [fmul fadd].
    replace (x * A + y * B + z * C + - (x * A + y * B + z * C)) with 0 by ring.
    unfold fleb, epsilon, fltb.
    destruct (Rlt_dec 0 (1 / 10 ^ 10)) as [_|Hc]; [reflexivity|].
    exfalso. apply Hc. apply Rdiv_lt_0_compat; [lra|]. apply pow_lt. lra.
Qed.

End PlaneThroughPoint.

(** ** [test_point_on_plane] looks at one side of the plane only *)

(** X18: [test_point_on_plane] compares the signed offset, not its
    absolute value: at every distance from a plane there is a point
    that it reports on the plane. *)
Theorem test_point_on_plane_one_sided (A B C D dist : R) :
  (A, B, C) <> (0, 0, 0) ->
  0 <= dist ->
  exists p : rvec,
    plane_distance A B C D p = dist
    /\ test_point_on_plane (fin3 p) (Some (Fin A, Fin B, Fin C, Fin D))
       = Returned PointOnPlane.
Proof.
  intros Hn Hd. pose proof (sum_sqr_pos Hn) as Hp.
  remember (A * A + B * B + C * C) as n2 eqn:En2.
  assert (Hq : 0 < sqrt n2) by (apply sqrt_lt_R0; exact Hp).
  assert (Hqq : sqrt n2 * sqrt n2 = n2) by (apply sqrt_sqrt; lra).
  remember (sqrt n2) as q eqn:Eq.
  set (k := - (D / n2 + dist / q)).
  assert (Es : k * A * A + k * B * B + k * C * C + D = - (dist * q)).
  { replace (k * A * A + k * B * B + k * C * C) with (k * n2) by (rewrite En2; ring).
    unfold k. rewrite <- Hqq. field. lra. }
  exists (k * A, k * B, k * C). split.
  - unfold plane_distance. rewrite <- En2, <- Eq, Es.
    rewrite Rabs_Ropp, Rabs_pos_eq by (apply Rmult_le_pos; lra).
    field. lra.
  - unfold test_point_on_plane, fin3, dot. cbn [fmul fadd]. rewrite Es.
    unfold fleb, epsilon, fltb.
    assert (He : 0 < 1 / 10 ^ 10) by (apply Rdiv_lt_0_compat; [lra|apply pow_lt; lra]).
    assert (0 <= dist * q) by (apply Rmult_le_pos; lra).
    destruct (Rlt_dec (- (dist * q)) (1 / 10 ^ 10)) as [_|Hc]; [reflexivity|lra].
Qed.

(** ** [get_intersect_lines]: the two lines in either order; a zero divisor *)

(** X19: when no entry of the divisor is zero, [get_intersect_lines]
    returns the same point for the two lines in either order. *)
Theorem get_intersect_lines_swap (p10 p11 p20 p21 : rvec) :
  nonzero_entries (divisor p10 p11 p20 p21) ->
  get_intersect_lines (fin3 p20) (fin3 p21) (fin3 p10) (fin3 p11)
  = get_intersect_lines (fin3 p10) (fin3 p11) (fin3 p20) (fin3 p21).
Proof.
  intros Hd.
  assert (Hd' : nonzero_entries (divisor p20 p21 p10 p11)).
  { destruct p10 as [[a0 a1] a2], p11 as [[b0 b1] b2],
             p20 as [[c0 c1] c2], p21 as [[d0 d1] d2].
    unfold nonzero_entries, divisor in *. destruct Hd as (H0 & H1 & H2).
    repeat split; lra. }
  rewrite (get_intersect_lines_fin _ _ _ _ Hd), (get_intersect_lines_fin _ _ _ _ Hd').
  f_equal.
  destruct p10 as [[a0 a1] a2], p11 as [[b0 b1] b2],
           p20 as [[c0 c1] c2], p21 as [[d0 d1] d2].
  unfold nonzero_entries, divisor in Hd. destruct Hd as (H0 & H1 & H2).
  unfold intersect_formula. f_equal; [f_equal|]; field; lra.
Qed.

Lemma entry_zero_divisor (a b c d : R) :
  b - a - d + c = 0 ->
  isfinite (fadd (Fin a)
              (fmul (fdiv (fsub (Fin c) (Fin a))
                          (fadd (fsub (fsub (Fin b) (Fin a)) (Fin d)) (Fin c)))
                    (fsub (Fin b) (Fin a)))) = false.
Proof.
  intros E. cbn [fsub fneg fadd].
  replace (b + - a + - d + c) with 0 by lra.
  unfold fdiv. destruct (Req_dec_T 0 0) as [_|Hc]; [|contradiction].
  destruct (Rsign (c + - a)) as [[|]|]; cbn [inf_of_sign fmul];
    try reflexivity;
    destruct (Rsign (b + - a)) as [[|]|]; reflexivity.
Qed.

(** X20: an entry of the divisor that is zero (the two directions
    agree in that coordinate, as for lines in a plane where that
    coordinate is constant) makes that entry of the result of
    [get_intersect_lines] an infinity or NaN; nothing is raised. *)
Theorem get_intersect_lines_zero_divisor (p10 p11 p20 p21 : rvec) :
  let '(dx, dy, dz) := divisor p10 p11 p20 p21 in
  let '(x, y, z) := get_intersect_lines (fin3 p10) (fin3 p11) (fin3 p20) (fin3 p21) in
  (dx = 0 -> isfinite x = false)
  /\ (dy = 0 -> isfinite y = false)
  /\ (dz = 0 -> isfinite z = false).
Proof.
  destruct p10 as [[a0 a1] a2], p11 as [[b0 b1] b2],
           p20 as [[c0 c1] c2], p21 as [[d0 d1] d2].
  unfold divisor, get_intersect_lines, fin3, vadd, vmul, vdiv, vsub, vmap2.
  repeat split; apply entry_zero_divisor.
Qed.

(** ** [get_intersect_angle] *)

Lemma dot_comm (u v : vec) : dot u v = dot v u.
Proof.
  destruct u as [[u0 u1] u2], v as [[v0 v1] v2]. unfold dot.
  now rewrite (fmul_comm u0 v0), (fmul_comm u1 v1), (fmul_comm u2 v2).
Qed.

Lemma math_acos_range (x : float64) (a : R) :
  math_acos x = Returned (Fin a) -> 0 <= a <= PI.
Proof.
  destruct x as [r| | |]; cbn; try discriminate.
  destruct (Rlt_dec r (-1)); [discriminate|].
  destruct (Rlt_dec 1 r); [discriminate|].
  intros E. injection E as <-. apply acos_bound.
Qed.

Lemma math_degrees_fin (x : float64) (a : R) :
  math_degrees x = Fin a -> exists r, x = Fin r /\ a = r * (180 / PI).
Proof.
  unfold math_degrees. destruct x as [r| | |]; cbn.
  - intros E. injection E as <-. eauto.
  - destruct (Rsign (180 / PI)) as [[|]|]; discriminate.
  - destruct (Rsign (180 / PI)) as [[|]|]; discriminate.
  - discriminate.
Qed.

(** X21: [get_intersect_angle] gives the same result with its two
    points exchanged, and a finite angle it returns lies between 0 and
    180 degrees. *)
Theorem get_intersect_angle_range (p0 p1 p2 : vec) :
  get_intersect_angle p0 p1 p2 = get_intersect_angle p0 p2 p1
  /\ forall a : R, get_intersect_angle p0 p1 p2 = Returned (Fin a) -> 0 <= a <= 180.
Proof.
  unfold get_intersect_angle. split.
  - rewrite (dot_comm (vsub p1 p0) (vsub p2 p0)).
    now rewrite (fmul_comm (dot (vsub p1 p0) (vsub p1 p0)) (dot (vsub p2 p0) (vsub p2 p0))).
  - intros a.
    destruct (math_sqrt _) as [n|e]; cbn [obind]; [|discriminate].
    destruct (math_acos _) as [x|e] eqn:Ea; cbn [obind]; [|discriminate].
    intros E. injection E as E.
    destruct (math_degrees_fin _ E) as (r & -> & ->).
    apply math_acos_range in Ea. pose proof PI_RGT_0 as Hpi.
    split.
    + apply Rmult_le_pos; [lra|]. apply Rlt_le, Rdiv_lt_0_compat; lra.
    + replace 180 with (PI * (180 / PI)) at 2 by (field; lra).
      apply Rmult_le_compat_r; [|lra]. apply Rlt_le, Rdiv_lt_0_compat; lra.
Qed.

(** X22: when one of the two points is the intersection point
    itself, [get_intersect_angle] returns NaN and raises nothing. *)
Theorem get_intersect_angle_at_center (c b : rvec) :
  get_intersect_angle (fin3 c) (fin3 c) (fin3 b) = Returned NaN
  /\ get_intersect_angle (fin3 c) (fin3 b) (fin3 c) = Returned NaN.
Proof.
  destruct c as [[c0 c1] c2], b as [[b0 b1] b2].
  unfold get_intersect_angle, fin3, vsub, vmap2, dot. cbn [fsub fneg fadd fmul].
  replace (c0 + - c0) with 0 by ring. replace (c1 + - c1) with 0 by ring.
  replace (c2 + - c2) with 0 by ring.
  set (bb := (b0 + - c0) * (b0 + - c0) + (b1 + - c1) * (b1 + - c1) + (b2 + - c2) * (b2 + - c2)).
  replace ((0 * 0 + 0 * 0 + 0 * 0) * bb) with 0 by ring.
  replace (bb * (0 * 0 + 0 * 0 + 0 * 0)) with 0 by ring.
  replace (0 * (b0 + - c0) + 0 * (b1 + - c1) + 0 * (b2 + - c2)) with 0 by ring.
  replace ((b0 + - c0) * 0 + (b1 + - c1) * 0 + (b2 + - c2) * 0) with 0 by ring.
  rewrite math_sqrt_fin by lra. cbn [obind]. rewrite sqrt_0.
  rewrite fdiv_zero_zero by reflexivity. cbn. auto.
Qed.

Close Scope R_scope.

(** ** Planes, lines and points with concrete coordinates *)

Module PlaneExamples.
Import TiltInputs.
Import IntersectionInputs.
Open Scope R_scope.

Lemma normal_z : (0, 0, 1) <> (0, 0, 0).
Proof. intros E. injection E as E. lra. Qed.


Lemma set_sag_plane_through_P0_witness :
  get_sag_plane_dist
    (self_sp (set_sag_plane no_rotation fresh_self (fin3 (1, 2, 3)) (Fin 35)))
    (fin3 (1, 2, 3))
  = (Returned (Fin 0), [])
  /\ test_point_on_plane (fin3 (1, 2, 3))
       (self_sp (set_sag_plane no_rotation fresh_self (fin3 (1, 2, 3)) (Fin 35)))
     = Returned PointOnPlane.
Proof.
  apply (@set_sag_plane_through_P0 no_rotation fresh_self (1, 2, 3) (0, 0, 1) (Fin 35)).
  - reflexivity.
  - exact normal_z.
Defined.

Lemma test_point_on_plane_one_sided_witness :
  exists p : rvec,
    plane_distance 0 0 1 0 p = 5
    /\ test_point_on_plane (fin3 p) (Some (Fin 0, Fin 0, Fin 1, Fin 0))
       = Returned PointOnPlane.
Proof.
  apply (@test_point_on_plane_one_sided 0 0 1 0 5).
  - exact normal_z.
  - lra.
Defined.

Lemma get_intersect_lines_swap_witness :
  get_intersect_lines (fin3 p20) (fin3 p21) (fin3 p10) (fin3 p11)
  = get_intersect_lines (fin3 p10) (fin3 p11) (fin3 p20) (fin3 p21).
Proof.
  apply (@get_intersect_lines_swap p10 p11 p20 p21).
  unfold nonzero_entries, divisor, p10, p11, p20, p21. repeat split; lra.
Defined.

End PlaneExamples.

(** ** What [get_dats] hands to the evaluations *)

Section SelectionGeneral.
Context {F : Type} `{PyFloat F}.

Lemma sort_insert_perm (x : F * points F) (l l' : list (F * points F)) :
  sort_insert x l = Returned l' -> Permutation (x :: l) l'.
Proof.
  revert l'. induction l as [|y l IH]; intros l'; cbn [sort_insert].
  - intros E. injection E as <-. auto.
  - destruct (tuple_lt x y) as [[|]|e]; cbn [obind]; try discriminate.
    + intros E. injection E as <-. auto.
    + destruct (sort_insert x l) as [l1|e]; cbn [obind]; [|discriminate].
      intros E. injection E as <-. rewrite perm_swap. constructor. now apply IH.
Qed.

Lemma py_sort_perm (l l' : list (F * points F)) :
  py_sort l = Returned l' -> Permutation l l'.
Proof.
  revert l'. induction l as [|x l IH]; intros l'; cbn [py_sort].
  - intros E. injection E as <-. auto.
  - destruct (py_sort l) as [l1|e]; cbn [obind]; [|discriminate].
    intros E. apply sort_insert_perm in E. rewrite <- E. constructor. now apply IH.
Qed.

Lemma get_dats_loop_none (showInfos : bool) (d : apos_t F) :
  forall acc o log,
  get_dats_loop showInfos None d acc = (o, log) ->
  log = []
  /\ forall r, o = Returned r ->
       exists l, r = DatsAll l /\ Permutation l (acc ++ tuples d).
Proof.
  induction d as [|[k pts] d IH]; intros acc o log; cbn [get_dats_loop pos_matches].
  - intros E. injection E as <- <-. split; [reflexivity|].
    intros r E. injection E as <-. exists acc. split; [reflexivity|].
    cbn. now rewrite app_nil_r.
  - destruct (py_sort (acc ++ [(float_of_str k, pts)])) as [l1|e] eqn:Es.
    + intros E. destruct (IH _ _ _ E) as [-> Hr]. split; [reflexivity|].
      intros r Er. destruct (Hr r Er) as (l & -> & Hp). exists l. split; [reflexivity|].
      rewrite Hp. apply py_sort_perm in Es.
      change (tuples ((k, pts) :: d)) with ([(float_of_str k, pts)] ++ tuples d).
      rewrite app_assoc. apply Permutation_app_tail. now symmetry.
    + intros E. injection E as <- <-. split; [reflexivity|]. discriminate.
Qed.

End SelectionGeneral.

(** What [dats_of] returns is the run under the angle and the run
    number, reordered; it prints nothing. *)
Lemma dats_of_log (self : self_t) (dats : option (dataset float64)) (ang run : Z) :
  snd (dats_of self dats ang run) = [].
Proof.
  unfold dats_of.
  destruct (match dats with Some d => Some d | None => self_dats self end) as [d|];
    [|reflexivity].
  unfold get_dats. destruct (Dict.get Z.eqb ang d) as [runs|]; [|reflexivity].
  destruct (Dict.get Z.eqb run runs) as [apos|]; [|reflexivity].
  destruct (get_dats_loop (self_showInfos self) None apos []) as [o log] eqn:E.
  destruct (get_dats_loop_none _ _ _ E) as [-> Hr].
  destruct o as [[p pts|l]|e]; reflexivity.
Qed.

Lemma dats_of_returned (self : self_t) (dats : option (dataset float64)) (ang run : Z)
    (l : list (float64 * points float64)) (log : list (message float64)) :
  dats_of self dats ang run = (Returned l, log) ->
  exists d apos,
    match dats with Some d => Some d | None => self_dats self end = Some d
    /\ run_of d ang run = Some apos
    /\ Permutation l (tuples apos).
Proof.
  unfold dats_of, run_of.
  destruct (match dats with Some d => Some d | None => self_dats self end) as [d|];
    [|discriminate].
  unfold get_dats. destruct (Dict.get Z.eqb ang d) as [runs|] eqn:Ea; [|discriminate].
  destruct (Dict.get Z.eqb run runs) as [apos|] eqn:Er; [|discriminate].
  destruct (get_dats_loop (self_showInfos self) None apos []) as [o log'] eqn:E.
  destruct (get_dats_loop_none _ _ _ E) as [-> Hr].
  destruct o as [[p pts|l']|e]; try discriminate.
  intros E'. injection E' as <- <-.
  destruct (Hr _ eq_refl) as (l0 & E0 & Hp). injection E0 as <-.
  exists d, apos. split; [reflexivity|]. rewrite Ea. split; [exact Er|exact Hp].
Qed.

(** ** [eval_data_th0s]: an empty run, the range of the tilts *)

Open Scope R_scope.

Lemma fadd_NaN_r (x : float64) : fadd x NaN = NaN.
Proof. destruct x; reflexivity. Qed.

Lemma fmul_NaN_r (x : float64) : fmul x NaN = NaN.
Proof. destruct x; reflexivity. Qed.

Lemma np_mean_nil : np_mean [] = NaN.
Proof. unfold np_mean, np_sum. cbn. now apply fdiv_zero_zero. Qed.

Lemma np_std_nil : np_std [] = NaN.
Proof. unfold np_std. cbn [map]. rewrite np_mean_nil. reflexivity. Qed.

Lemma get_sag_plane_dist_NaN_offset (n0 n1 n2 : float64) (P : vec) :
  fst (get_sag_plane_dist (Some (n0, n1, n2, NaN)) P) = Returned NaN.
Proof.
  destruct P as [[P0 P1] P2]. unfold get_sag_plane_dist, dot4. cbn [fst].
  rewrite !fadd_NaN_r. cbn. reflexivity.
Qed.

Lemma th0_range (q : float64) :
  tilt_in_range (math_degrees (fsub (Fin (PI / 2)) (math_atan q))).
Proof.
  pose proof PI_RGT_0 as Hpi.
  assert (Hk : 0 < 180 / PI) by (apply Rdiv_lt_0_compat; lra).
  assert (E180 : PI * (180 / PI) = 180) by (field; lra).
  destruct q as [r| | |]; cbn [math_atan fsub fneg fadd math_degrees fmul].
  - right. eexists. split; [reflexivity|].
    pose proof (atan_bound r) as [Hlo Hhi]. split.
    + apply Rmult_le_pos; lra.
    + rewrite <- E180 at 2. apply Rmult_le_compat_r; lra.
  - right. eexists. split; [reflexivity|].
    replace (PI / 2 + - (PI / 2)) with 0 by lra. lra.
  - right. eexists. split; [reflexivity|].
    replace (PI / 2 + - - (PI / 2)) with PI by lra. lra.
  - now left.
Qed.

Lemma th0s_loop_range (l : list (float64 * points float64)) :
  forall acc acc' log,
  Forall tilt_in_range (th0s acc) ->
  th0s_loop l acc = (Returned (Completed acc'), log) ->
  Forall tilt_in_range (th0s acc').
Proof.
  induction l as [|[pos pts] l IH]; intros acc acc' log Hacc; cbn [th0s_loop].
  - intros E. injection E as <- _. exact Hacc.
  - destruct (getitem pts 0) as [[[x0 y0] z0]|e]; [|discriminate].
    destruct (getitem pts 6) as [[[x6 y6] z6]|e]; [|discriminate].
    unfold th0_try. apply IH. cbn [th0s].
    apply Forall_app. split; [exact Hacc|].
    constructor; [apply th0_range|constructor].
Qed.

Lemma th0s_loop_completes (l : list (float64 * points float64)) :
  Forall (fun rec => (7 <= List.length (snd rec))%nat) l ->
  forall acc, exists acc', th0s_loop l acc = (Returned (Completed acc'), []).
Proof.
  induction 1 as [|[pos pts] l Hlen _ IH]; intros acc; cbn [th0s_loop].
  - eauto.
  - cbn [snd] in Hlen. unfold getitem.
    destruct (nth_error pts 0) as [[[x0 y0] z0]|] eqn:E0.
    2:{ apply nth_error_None in E0. lia. }
    destruct (nth_error pts 6) as [[[x6 y6] z6]|] eqn:E6.
    2:{ apply nth_error_None in E6. lia. }
    unfold th0_try. apply IH.
Qed.

Section Th0sEdges.
Variable rotate : vec -> vec -> float64 -> vec.

(** X23: on a run without a position [eval_data_th0s] asked for the
    average returns (NaN, NaN) and still sets the plane: its fourth
    entry is NaN, so every distance taken to it afterwards is NaN. *)
Theorem eval_data_th0s_empty_run (self : self_t) (dats : option (dataset float64))
    (ang run : Z) (log : list (message float64)) :
  dats_of self dats ang run = (Returned [], log) ->
  exists self',
    eval_data_th0s rotate self ang run dats RetAllAvg true
    = (Returned (RetAvgStd NaN NaN), self', log ++ [InfoPlaneSet])
    /\ forall P, fst (get_sag_plane_dist (self_sp self') P) = Returned NaN.
Proof.
  intros Hd. unfold eval_data_th0s. rewrite Hd. cbn [th0s_loop th0s x0s y0s z0s app].
  rewrite np_mean_nil, np_std_nil.
  eexists. split; [reflexivity|].
  intros P. unfold set_sag_plane.
  destruct (rotate _ _ _) as [[n0 n1] n2]. cbn [self_sp dot fmul fadd fneg].
  apply get_sag_plane_dist_NaN_offset.
Qed.

(** X24: every tilt in the array that [eval_data_th0s] returns lies
    between 0 and 180 degrees, or is NaN. *)
Theorem eval_data_th0s_tilt_range (self self' : self_t) (dats : option (dataset float64))
    (ang run : Z) (set_sp : bool) (a : list float64) (log : list (message float64)) :
  eval_data_th0s rotate self ang run dats RetAllTrue set_sp
  = (Returned (RetArray a), self', log) ->
  Forall tilt_in_range a.
Proof.
  unfold eval_data_th0s.
  destruct (dats_of self dats ang run) as [[l|e] log0]; [|discriminate].
  destruct (th0s_loop l (mkAcc [] [] [] [])) as [[[acc|]|e] log1] eqn:El; try discriminate.
  intros E. injection E as <- _ _.
  eapply th0s_loop_range; [|exact El]. constructor.
Qed.

End Th0sEdges.

Close Scope R_scope.

(** ** From [read_data] to [eval_data_th0s] *)

Lemma read_data_sized {F : Type} `{PyFloat F} (N : nat) (rows : list (row F))
    (d : dataset F) (msgs : list (message F)) :
  read_data rows N = Returned (d, msgs) -> points_per_position N d.
Proof.
  unfold read_data.
  destruct (read_rows N 0 rows (init_locals N)) as [[s' log]|e'] eqn:E;
    cbn [obind fst snd]; [|discriminate].
  intros E'. injection E' as <- _.
  apply (final_flush_sized (read_rows_keeps _ _ (init_locals_sized N) E)).
Qed.

Lemma run_of_sized {F : Type} `{PyFloat F} (N : nat) (d : dataset F) (ang run : Z)
    (apos : apos_t F) :
  points_per_position N d ->
  run_of d ang run = Some apos ->
  Forall (fun g : pystr * points F => List.length (snd g) = N) apos.
Proof.
  unfold points_per_position, run_of. intros Hd.
  destruct (Dict.get Z.eqb ang d) as [runs|] eqn:Ea; [|discriminate].
  intros Er.
  apply dict_get_In in Ea; [|exact Z.eqb_eq]. apply dict_get_In in Er; [|exact Z.eqb_eq].
  rewrite Forall_forall in Hd. specialize (Hd _ Ea). cbn [snd] in Hd.
  rewrite Forall_forall in Hd. exact (Hd _ Er).
Qed.

Section AfterReadData.
Variable rotate : vec -> vec -> float64 -> vec.

(** X25: on a Dataset that [read_data] has returned for positions of
    at least 7 points, [eval_data_th0s] returns for every run the
    Dataset holds whose stored positions are distinct: no index is out
    of range, and what comes back is not the 0 of the handler. *)
Theorem eval_data_th0s_after_read_data (N : nat) (rows : list (row float64))
    (d : dataset float64) (msgs : list (message float64)) (self : self_t) (ang run : Z)
    (apos : apos_t float64) (retAll : retAll_t) (set_sp : bool) :
  read_data rows N = Returned (d, msgs) ->
  7 <= N ->
  run_of d ang run = Some apos ->
  NoDup (positions apos) ->
  exists res self' log,
    eval_data_th0s rotate self ang run (Some d) retAll set_sp = (Returned res, self', log)
    /\ res <> Ret0.
Proof.
  intros Hread HN Hrun Hnd.
  pose proof (run_of_sized _ _ (read_data_sized _ _ Hread) Hrun) as Hlen.
  unfold eval_data_th0s, dats_of, get_dats.
  unfold run_of in Hrun.
  destruct (Dict.get Z.eqb ang d) as [runs|]; [|discriminate]. rewrite Hrun.
  destruct (@get_dats_loop_returns _ _ _ (self_showInfos self) None apos [] Hnd)
    as (r & log & E).
  rewrite E. destruct (get_dats_loop_none _ _ _ E) as [-> Hr].
  destruct (Hr _ eq_refl) as (l & -> & Hp). cbn [app] in Hp.
  assert (Hl7 : Forall (fun rec : float64 * points float64 => 7 <= List.length (snd rec)) l).
  { apply (Permutation_Forall (x := tuples apos)); [now symmetry|].
    unfold tuples. apply Forall_map. cbn [snd].
    eapply Forall_impl; [|exact Hlen]. cbn. intros g ->. exact HN. }
  destruct (th0s_loop_completes Hl7 (mkAcc [] [] [] [])) as [acc' ->].
  destruct retAll; do 3 eexists; (split; [reflexivity|discriminate]).
Qed.

End AfterReadData.

(** ** [eval_data_rs]: the four sequences are aligned *)

Lemma mapM_length {A B : Type} (f : A -> outcome B) (l : list A) (ys : list B) :
  mapM f l = Returned ys -> List.length ys = List.length l.
Proof.
  intros E. symmetry. exact (Forall2_length (mapM_Forall2 _ _ E)).
Qed.

Section RadiusShape.
Variable rotate : vec -> vec -> float64 -> vec.
Variable point_on_plane_projection : vec -> option plane -> outcome vec.

Lemma rs_body_shape (sp : option plane) (do_test : bool) (_pos : float64)
    (_pts : points float64) (item : rs_item) (tests : list plane_test) :
  rs_body point_on_plane_projection sp do_test _pos _pts = Returned (item, tests) ->
  item_pos item = _pos
  /\ List.length (item_rs item) = 12
  /\ List.length (item_chi item) = 10
  /\ List.length tests = (if do_test then 1 else 0).
Proof.
  unfold rs_body.
  destruct (mapM (fun _pt => get_projection_point point_on_plane_projection _pt sp) _pts)
    as [pj|e]; cbn [obind]; [|discriminate].
  destruct (getitem pj 0) as [pj0|e]; cbn [obind]; [|discriminate].
  destruct (getitem pj 6) as [pj6|e]; cbn [obind]; [|discriminate].
  destruct (getitem pj 5) as [pj5|e]; cbn [obind]; [|discriminate].
  destruct (getitem pj 11) as [pj11|e]; cbn [obind]; [|discriminate].
  set (cen := get_intersect_lines pj0 pj6 pj5 pj11).
  destruct (if do_test then _ else _) as [ts|e] eqn:Et; cbn [obind]; [|discriminate].
  destruct (mapM (fun idx => obind (getitem _pts idx) (fun p => get_circle_radius p cen))
              (seq 0 12)) as [rs|e] eqn:Ers; cbn [obind]; [|discriminate].
  destruct (chi_range cen pj (seq 0 5)) as [chi|e] eqn:Ec; cbn [obind]; [|discriminate].
  destruct (chi_range cen pj (seq 6 5)) as [chi2|e] eqn:Ec2; cbn [obind]; [|discriminate].
  intros E. injection E as <- <-. cbn [item_pos item_rs item_chi].
  apply mapM_length in Ers. unfold chi_range in Ec, Ec2.
  apply mapM_length in Ec, Ec2. rewrite length_app, Ers, Ec, Ec2.
  repeat split; try reflexivity.
  destruct do_test.
  - destruct (test_point_on_plane cen sp) as [t|e]; cbn [obind] in Et; [|discriminate].
    injection Et as <-. reflexivity.
  - injection Et as <-. reflexivity.
Qed.

Lemma rs_loop_shape (sp : option plane) (do_test : bool)
    (l : list (float64 * points float64)) :
  forall items tests,
  rs_loop point_on_plane_projection sp do_test l = Returned (items, tests) ->
  map item_pos items = map fst l
  /\ Forall (fun it => List.length (item_rs it) = 12 /\ List.length (item_chi it) = 10) items
  /\ List.length tests = (if do_test then List.length items else 0).
Proof.
  induction l as [|[pos pts] l IH]; intros items tests; cbn [rs_loop].
  - intros E. injection E as <- <-. repeat split; [constructor|now destruct do_test].
  - destruct (rs_body _ sp do_test pos pts) as [[it ts]|e] eqn:Eb; cbn [obind]; [|discriminate].
    destruct (rs_loop _ sp do_test l) as [[its tss]|e]; cbn [obind]; [|discriminate].
    intros E. injection E as <- <-. cbn [fst snd].
    apply rs_body_shape in Eb as (Hp & Hr & Hc & Ht).
    destruct (IH _ _ eq_refl) as (Hps & Hall & Hts).
    cbn [map fst]. rewrite Hp, Hps. repeat split; [constructor; auto|].
    rewrite length_app, Ht, Hts. now destruct do_test.
Qed.

Lemma eval_data_rs_returned (self self' : self_t) (ang run : Z) (set_sp do_test retAll : bool)
    (res : option (list rs_item)) (log : list (message float64)) (tests : list plane_test) :
  eval_data_rs rotate point_on_plane_projection self ang run set_sp do_test retAll
  = (Returned res, self', log, tests) ->
  self_dats self' = self_dats self
  /\ exists l items,
       dats_of self' None ang run = (Returned l, [])
       /\ rs_loop point_on_plane_projection (self_sp self') do_test l = Returned (items, tests)
       /\ res = (if retAll then Some items else None).
Proof.
  unfold eval_data_rs.
  destruct (if set_sp then _ else _) as [[o1 self1] log1] eqn:E1.
  assert (Hd : self_dats self1 = self_dats self).
  { destruct set_sp.
    - unfold eval_data_th0s in E1.
      destruct (dats_of self None ang run) as [[l|e] log0].
      + destruct (th0s_loop l (mkAcc [] [] [] [])) as [[[acc|]|e] log'];
          injection E1 as _ <- _; try reflexivity.
        unfold set_sag_plane. destruct (rotate _ _ _) as [[n0 n1] n2]. reflexivity.
      + injection E1 as _ <- _. reflexivity.
    - injection E1 as _ <- _. reflexivity. }
  destruct o1 as [r1|e]; [|discriminate].
  pose proof (dats_of_log self1 None ang run) as Hlog.
  destruct (dats_of self1 None ang run) as [[l|e] log2] eqn:Ed; [|discriminate].
  cbn [snd] in Hlog. subst log2.
  destruct (rs_loop _ (self_sp self1) do_test l) as [[items ts]|e] eqn:El; [|discriminate].
  intros E. injection E as <- <- _ <-. split; [exact Hd|].
  exists l, items. rewrite Ed. auto.
Qed.


(** X27: when [eval_data_loop_ang] returns, it returns one result per
    angle of [angs], none of them [None], and the Dataset of the object
    holds the run under every one of these angles: one angle that is
    missing makes the whole loop fail. *)
Theorem eval_data_loop_ang_returns (self self' : self_t) (angs : list Z) (run : Z)
    (res : list (option (list rs_item))) (log : list (message float64)) :
  eval_data_loop_ang rotate point_on_plane_projection self angs run
  = (Returned res, self', log) ->
  List.length res = List.length angs
  /\ Forall (fun r => r <> None) res
  /\ forall ang, In ang angs ->
       exists dats apos, self_dats self = Some dats /\ run_of dats ang run = Some apos.
Proof.
  revert self self' res log. induction angs as [|ang angs IH]; intros self self' res log;
    cbn [eval_data_loop_ang].
  - intros E. injection E as <- _ _. repeat split; [constructor|intros ang []].
  - destruct (eval_data_rs _ _ self ang run true false true) as [[[o1 self1] log1] ts] eqn:E1.
    destruct o1 as [r|e]; [|discriminate].
    destruct (eval_data_loop_ang _ _ self1 angs run) as [[[rs|e] self2] log2] eqn:E2;
      [|discriminate].
    intros E. injection E as <- _ _.
    apply eval_data_rs_returned in E1 as (Hd & l & items & Hl & _ & ->).
    destruct (IH _ _ _ _ E2) as (Hlen & Hall & Hin).
    cbn [List.length]. rewrite Hlen. repeat split.
    + constructor; [discriminate|exact Hall].
    + intros a [<-|Ha].
      * apply dats_of_returned in Hl as (d & apos & Hs & Hr & _).
        exists d, apos. rewrite <- Hd. auto.
      * destruct (Hin _ Ha) as (d & apos & Hs & Hr).
        exists d, apos. rewrite <- Hd. auto.
Qed.

End RadiusShape.

(** ** [eval_data_dists]: one column of distances per point *)

Lemma nat_eqb_eq (a b : nat) : Nat.eqb a b = true <-> a = b.
Proof. apply Nat.eqb_eq. Qed.

Lemma dists_init_get (ipt : nat) : ipt < 12 -> Dict.get Nat.eqb ipt dists_init = Some [].
Proof.
  intros Hi. do 12 (destruct ipt as [|ipt]; [reflexivity|]). lia.
Qed.

Lemma dists_points_columns (sp : option plane) (pts : points float64) (ipts : list nat) :
  NoDup ipts ->
  forall ds ds' log,
  dists_points sp pts ipts ds = (Returned tt, ds', log) ->
  self_poss ds' = self_poss ds
  /\ (forall k, ~ In k ipts ->
        Dict.get Nat.eqb k (self_dists ds') = Dict.get Nat.eqb k (self_dists ds))
  /\ (forall k, In k ipts ->
        exists col P v,
          Dict.get Nat.eqb k (self_dists ds) = Some col
          /\ nth_error pts k = Some P
          /\ get_sag_plane_dist sp P = (Returned v, snd (get_sag_plane_dist sp P))
          /\ Dict.get Nat.eqb k (self_dists ds') = Some (col ++ [v])).
Proof.
  induction 1 as [|ipt rest Hnin Hnd IH]; intros ds ds' log; cbn [dists_points].
  - intros E. injection E as <- _. repeat split; auto. intros k [].
  - destruct (Dict.get Nat.eqb ipt (self_dists ds)) as [col|] eqn:Eg; [|discriminate].
    unfold getitem. destruct (nth_error pts ipt) as [P|] eqn:EP; [|discriminate].
    destruct (get_sag_plane_dist sp P) as [[v|e] log0] eqn:Ed; [|discriminate].
    set (ds1 := mkDists (self_poss ds) (Dict.set Nat.eqb ipt (col ++ [v]) (self_dists ds))).
    destruct (dists_points sp pts rest ds1) as [[o ds2] log1] eqn:Er.
    intros E. injection E as -> <- _.
    destruct (IH _ _ _ Er) as (Hp & Hout & Hin). cbn [self_poss self_dists ds1] in *.
    split; [exact Hp|]. split.
    + intros k Hk. rewrite Hout by (intros Hin'; apply Hk; now right).
      apply dict_get_set_other; [exact nat_eqb_eq|].
      intros ->. apply Hk. now left.
    + intros k [<-|Hk].
      * exists col, P, v. rewrite Ed. repeat split; auto.
        rewrite (Hout _ Hnin). apply dict_get_set_same. exact nat_eqb_eq.
      * destruct (Hin _ Hk) as (col' & P' & v' & Hg & HP & Hv & Hg').
        exists col', P', v'. repeat split; auto.
        rewrite <- Hg. symmetry. apply dict_get_set_other; [exact nat_eqb_eq|].
        intros ->. contradiction.
Qed.

Lemma dists_loop_columns (sp : option plane) (l : list (float64 * points float64)) :
  forall ds ds' log,
  dists_loop sp l ds = (Returned tt, ds', log) ->
  self_poss ds' = self_poss ds ++ map fst l
  /\ forall ipt col, ipt < 12 ->
       Dict.get Nat.eqb ipt (self_dists ds) = Some col ->
       exists col', Dict.get Nat.eqb ipt (self_dists ds') = Some (col ++ col')
                    /\ Forall2 (distance_at sp ipt) l col'.
Proof.
  induction l as [|[pos pts] l IH]; intros ds ds' log; cbn [dists_loop].
  - intros E. injection E as <- _. split; [cbn; now rewrite app_nil_r|].
    intros ipt col _ Hg. exists []. rewrite app_nil_r. split; [exact Hg|constructor].
  - set (ds1 := mkDists (self_poss ds ++ [pos]) (self_dists ds)).
    destruct (dists_points sp pts (seq 0 12) ds1) as [[[[]|e] ds2] log1] eqn:Ep;
      [|discriminate].
    destruct (dists_loop sp l ds2) as [[o ds3] log2] eqn:El.
    intros E. injection E as -> <- _.
    apply dists_points_columns in Ep as (Hp & _ & Hin); [|apply seq_NoDup].
    destruct (IH _ _ _ El) as (Hp' & Hcols).
    split.
    + rewrite Hp', Hp. cbn [self_poss ds1 map fst]. now rewrite <- app_assoc.
    + intros ipt col Hi Hg.
      destruct (Hin ipt) as (col0 & P & v & Hg0 & HP & Hv & Hg2).
      { apply in_seq. lia. }
      cbn [self_dists ds1] in Hg0. rewrite Hg in Hg0. injection Hg0 as <-.
      destruct (Hcols ipt _ Hi Hg2) as (col' & Hg3 & Hall).
      exists (v :: col'). split.
      * rewrite Hg3, <- app_assoc. reflexivity.
      * constructor; [|exact Hall].
        exists P. cbn [snd]. split; [exact HP|]. now rewrite Hv.
Qed.


Lemma dists_points_no_plane (pts : points float64) (ipts : list nat) :
  NoDup ipts ->
  Forall (fun k => k < List.length pts) ipts ->
  forall ds,
  Forall (fun k => Dict.get Nat.eqb k (self_dists ds) <> None) ipts ->
  exists ds',
    dists_points None pts ipts ds
    = (Returned tt, ds', repeat ErrorPlaneNotSet (List.length ipts))
    /\ self_poss ds' = self_poss ds
    /\ (forall k, ~ In k ipts ->
          Dict.get Nat.eqb k (self_dists ds') = Dict.get Nat.eqb k (self_dists ds))
    /\ (forall k col, In k ipts ->
          Dict.get Nat.eqb k (self_dists ds) = Some col ->
          Dict.get Nat.eqb k (self_dists ds') = Some (col ++ [Fin 0%R])).
Proof.
  induction 1 as [|ipt rest Hnin Hnd IH]; intros Hlen ds Hkeys; cbn [dists_points].
  - exists ds. repeat split; auto. intros k col [].
  - pose proof (Forall_inv Hlen) as Hi. pose proof (Forall_inv_tail Hlen) as Hlen'.
    pose proof (Forall_inv Hkeys) as Hk. pose proof (Forall_inv_tail Hkeys) as Hkeys'.
    cbn beta in Hi, Hk.
    destruct (Dict.get Nat.eqb ipt (self_dists ds)) as [col|] eqn:Eg; [|contradiction].
    unfold getitem. destruct (nth_error pts ipt) as [P|] eqn:EP.
    2:{ apply nth_error_None in EP. lia. }
    cbn [get_sag_plane_dist].
    set (ds1 := mkDists (self_poss ds)
                  (Dict.set Nat.eqb ipt (col ++ [Fin 0%R]) (self_dists ds))).
    destruct (IH Hlen' ds1) as (ds' & -> & Hp & Hout & Hin).
    { rewrite Forall_forall in Hkeys' |- *. intros k Hk'. cbn [self_dists ds1].
      rewrite dict_get_set_other; [now apply Hkeys'|exact nat_eqb_eq|].
      intros ->. contradiction. }
    exists ds'. cbn [self_poss self_dists ds1] in *. repeat split; auto.
    + intros k Hk'. rewrite Hout by (intros Hin'; apply Hk'; now right).
      apply dict_get_set_other; [exact nat_eqb_eq|].
      intros ->. apply Hk'. now left.
    + intros k col' [<-|Hk'] Hg.
      * rewrite Eg in Hg. injection Hg as <-.
        rewrite (Hout _ Hnin). apply dict_get_set_same. exact nat_eqb_eq.
      * apply Hin; [exact Hk'|]. rewrite <- Hg.
        apply dict_get_set_other; [exact nat_eqb_eq|].
        intros ->. contradiction.
Qed.

Lemma dists_loop_no_plane (l : list (float64 * points float64)) :
  Forall (fun rec => 12 <= List.length (snd rec)) l ->
  forall ds,
  (forall ipt, ipt < 12 -> Dict.get Nat.eqb ipt (self_dists ds) <> None) ->
  exists ds',
    dists_loop None l ds
    = (Returned tt, ds', repeat ErrorPlaneNotSet (12 * List.length l))
    /\ self_poss ds' = self_poss ds ++ map fst l
    /\ forall ipt col, ipt < 12 ->
         Dict.get Nat.eqb ipt (self_dists ds) = Some col ->
         Dict.get Nat.eqb ipt (self_dists ds')
         = Some (col ++ repeat (Fin 0%R) (List.length l)).
Proof.
  induction 1 as [|[pos pts] l Hlen _ IH]; intros ds Hkeys; cbn [dists_loop].
  - exists ds. rewrite Nat.mul_0_r. cbn. rewrite app_nil_r. split; [reflexivity|].
    split; [reflexivity|]. intros ipt col _ Hg. now rewrite app_nil_r.
  - cbn [snd] in Hlen.
    set (ds1 := mkDists (self_poss ds ++ [pos]) (self_dists ds)).
    destruct (@dists_points_no_plane pts (seq 0 12) (seq_NoDup 12 0)) with (ds := ds1)
      as (ds2 & -> & Hp & _ & Hin).
    { apply Forall_forall. intros k Hk. apply in_seq in Hk. lia. }
    { apply Forall_forall. intros k Hk. apply in_seq in Hk. apply Hkeys. lia. }
    assert (Hkeys2 : forall ipt, ipt < 12 -> Dict.get Nat.eqb ipt (self_dists ds2) <> None).
    { intros ipt Hi. destruct (Dict.get Nat.eqb ipt (self_dists ds)) as [col|] eqn:Eg.
      - rewrite (Hin ipt col); [discriminate| |exact Eg]. apply in_seq. lia.
      - exfalso. now apply (Hkeys ipt Hi). }
    destruct (IH ds2 Hkeys2) as (ds3 & -> & Hp' & Hcols).
    exists ds3. split.
    { f_equal. rewrite <- repeat_app. f_equal. cbn [List.length]. rewrite length_seq. lia. }
    split.
    { rewrite Hp', Hp. cbn [self_poss ds1 map fst]. now rewrite <- app_assoc. }
    intros ipt col Hi Hg.
    rewrite (Hcols ipt (col ++ [Fin 0%R]) Hi).
    + rewrite <- app_assoc. cbn [List.length repeat app]. reflexivity.
    + apply Hin; [apply in_seq; lia|exact Hg].
Qed.

(** X29: [eval_data_dists] never sets the plane.  On an object
    without a plane it returns all the same: every distance it records
    is 0, and the error line is printed once for each of the 12 points
    of each position. *)
Theorem eval_data_dists_without_plane (self : self_t) (ang run : Z)
    (dats : option (dataset float64)) (prev : option dists_t)
    (l : list (float64 * points float64)) (log : list (message float64)) :
  self_sp self = None ->
  dats_of self dats ang run = (Returned l, log) ->
  Forall (fun rec => 12 <= List.length (snd rec)) l ->
  exists ds,
    eval_data_dists self ang run dats prev
    = (Returned tt, Some ds, log ++ repeat ErrorPlaneNotSet (12 * List.length l))
    /\ self_poss ds = map fst l
    /\ forall ipt, ipt < 12 ->
         Dict.get Nat.eqb ipt (self_dists ds) = Some (repeat (Fin 0%R) (List.length l)).
Proof.
  intros Hsp Hd Hlen. unfold eval_data_dists. rewrite Hd, Hsp.
  destruct (@dists_loop_no_plane l Hlen (mkDists [] dists_init)) as (ds & -> & Hp & Hcols).
  { intros ipt Hi. cbn [self_dists]. rewrite (dists_init_get Hi). discriminate. }
  exists ds. split; [reflexivity|]. split; [exact Hp|].
  intros ipt Hi. apply (Hcols ipt [] Hi). cbn [self_dists]. exact (dists_init_get Hi).
Qed.

(** ** [eval_data]: the distances are taken to the plane just set *)

Lemma get_sag_plane_dist_log (p : plane) (P : vec) :
  snd (get_sag_plane_dist (Some p) P) = [].
Proof. destruct P as [[P0 P1] P2], p as [[[a b] c] d]. reflexivity. Qed.

Lemma dists_points_log (p : plane) (pts : points float64) (ipts : list nat) :
  forall ds, snd (dists_points (Some p) pts ipts ds) = [].
Proof.
  induction ipts as [|ipt rest IH]; intros ds; cbn [dists_points]; [reflexivity|].
  destruct (Dict.get Nat.eqb ipt (self_dists ds)) as [col|]; [|reflexivity].
  destruct (getitem pts ipt) as [P|e]; [|reflexivity].
  pose proof (get_sag_plane_dist_log p P) as Hlog.
  destruct (get_sag_plane_dist (Some p) P) as [[v|e] log0]; cbn [snd] in Hlog; subst log0;
    [|reflexivity].
  match goal with |- context [dists_points (Some p) pts rest ?d] =>
    specialize (IH d); destruct (dists_points (Some p) pts rest d) as [[o ds''] log']
  end.
  cbn [snd] in IH |- *. now subst log'.
Qed.

Lemma dists_loop_log (p : plane) (l : list (float64 * points float64)) :
  forall ds, snd (dists_loop (Some p) l ds) = [].
Proof.
  induction l as [|[pos pts] l IH]; intros ds; cbn [dists_loop]; [reflexivity|].
  match goal with |- context [dists_points (Some p) pts (seq 0 12) ?d] =>
    pose proof (dists_points_log p pts (seq 0 12) d) as Hlog;
    destruct (dists_points (Some p) pts (seq 0 12) d) as [[[[]|e] ds2] log1]
  end; cbn [snd] in Hlog; subst log1; [|reflexivity].
  specialize (IH ds2). destruct (dists_loop (Some p) l ds2) as [[o ds3] log2].
  cbn [snd] in IH |- *. now subst log2.
Qed.

Section MainMethod.
Variable rotate : vec -> vec -> float64 -> vec.

(** X30: [eval_data] never prints the error line of a plane that is
    not set: the distances are taken after [eval_data_th0s] has set the
    plane from the same run. *)
Theorem eval_data_plane_is_set (self : self_t) (ang run : Z) (prev : option dists_t) :
  ~ In ErrorPlaneNotSet (snd (eval_data rotate self ang run prev)).
Proof.
  unfold eval_data, eval_data_th0s.
  pose proof (dats_of_log self None ang run) as Hlog.
  destruct (dats_of self None ang run) as [[l|e] log0]; cbn [snd] in Hlog; subst log0;
    [|intros []].
  destruct (th0s_loop_never_returns_0 l (mkAcc [] [] [] [])) as (o & -> & Ho).
  destruct o as [[acc|]|e]; [|congruence|intros []].
  set (self1 := set_sag_plane rotate self _ _).
  assert (Hsp : exists p, self_sp self1 = Some p).
  { unfold self1, set_sag_plane. destruct (rotate _ _ _) as [[n0 n1] n2]. eexists. reflexivity. }
  destruct Hsp as [p Hsp]. unfold eval_data_dists.
  pose proof (dats_of_log self1 None ang run) as Hlog.
  destruct (dats_of self1 None ang run) as [[l1|e] log1]; cbn [snd] in Hlog; subst log1.
  - rewrite Hsp. pose proof (dists_loop_log p l1 (mkDists [] dists_init)) as Hl.
    destruct (dists_loop (Some p) l1 (mkDists [] dists_init)) as [[o ds] log2].
    cbn [snd] in Hl |- *. subst log2. cbn. intros [E|[]]. discriminate.
  - cbn. intros [E|[]]. discriminate.
Qed.

End MainMethod.

(** ** The evaluations on concrete runs *)

Module EvaluationExamples.
Import TiltInputs.
Import EvaluationInputs.
Open Scope R_scope.

Lemma eval_data_th0s_empty_run_witness :
  exists self',
    eval_data_th0s no_rotation self_empty_run 0 0 None RetAllAvg true
    = (Returned (RetAvgStd NaN NaN), self', [] ++ [InfoPlaneSet])
    /\ forall P, fst (get_sag_plane_dist (self_sp self') P) = Returned NaN.
Proof.
  apply (@eval_data_th0s_empty_run no_rotation self_empty_run None 0%Z 0%Z []).
  reflexivity.
Defined.

(** A chord that lies flat stands at 90 degrees. *)
Lemma eval_data_th0s_flat :
  eval_data_th0s no_rotation fresh_self 0 0 (Some (one_position pts_flat)) RetAllTrue false
  = (Returned (RetArray [Fin 90]), fresh_self, []).
Proof.
  unfold eval_data_th0s.
  change (dats_of fresh_self (Some (one_position pts_flat)) 0 0)
    with (Returned [(Fin 0, pts_flat)], @nil (message float64)).
  cbn [th0s_loop getitem nth_error pts_flat twelve th0_try fsub fneg fadd].
  rewrite fdiv_fin by lra.
  cbn [math_atan fsub fneg fadd math_degrees fmul th0s_loop app th0s].
  replace ((0 + - 0) / (1 + - 0)) with 0 by (field; lra).
  rewrite atan_0.
  replace ((PI / 2 + - 0) * (180 / PI)) with 90 by (field; apply PI_neq0).
  reflexivity.
Qed.

Lemma eval_data_th0s_tilt_range_witness : Forall tilt_in_range [Fin 90].
Proof.
  apply (@eval_data_th0s_tilt_range no_rotation fresh_self fresh_self
           (Some (one_position pts_flat)) 0%Z 0%Z false [Fin 90] []).
  exact eval_data_th0s_flat.
Defined.

(** An empty file read with [pts_shape = (7, 3)]. *)
Lemma eval_data_th0s_after_read_data_witness :
  exists res self' log,
    eval_data_th0s no_rotation fresh_self 0 0
      (Some [(0%Z, [(0%Z, [(Str (PyInt 0), np_zeros 7)])])]) RetAllTrue false
    = (Returned res, self', log)
    /\ res <> Ret0.
Proof.
  apply (@eval_data_th0s_after_read_data no_rotation 7 []
           [(0%Z, [(0%Z, [(Str (PyInt 0), np_zeros 7)])])] [] fresh_self 0%Z 0%Z
           [(Str (PyInt 0), np_zeros 7)] RetAllTrue false).
  - reflexivity.
  - lia.
  - reflexivity.
  - cbn. repeat constructor. intros [].
Defined.

End EvaluationExamples.

Module RadiusLoopExamples.
Import TiltInputs.
Import EvaluationInputs.
Import RadiusInputs.
Open Scope R_scope.

Lemma eval_data_rs_radius :
  eval_data_rs to_diagonal orthogonal_projection self_radius 0 0 false false true
  = (Returned (Some [item]), self_radius, [], []).
Proof.
  unfold eval_data_rs.
  change (dats_of self_radius None 0 0)
    with (Returned [(Fin 0, map fin3 ps)], @nil (message float64)).
  cbn [self_sp self_radius rs_loop]. rewrite RadiusExamples.rs_body_item. reflexivity.
Qed.


(** With [set_sp] the plane is set anew, through the point 0 of the
    position and with the normal (1, 1, 1): the plane x + y + z = 0 again. *)
Lemma eval_data_rs_radius_set_sp :
  exists self' log,
    eval_data_rs to_diagonal orthogonal_projection self_radius 0 0 true false true
    = (Returned (Some [item]), self', log, []).
Proof.
  unfold eval_data_rs, eval_data_th0s.
  change (dats_of self_radius None 0 0)
    with (Returned [(Fin 0, map fin3 ps)], @nil (message float64)).
  cbn [th0s_loop getitem nth_error map ps fin3 th0_try th0s x0s y0s z0s app].
  unfold set_sag_plane, to_diagonal, np_mean, np_sum.
  cbn [fold_left fadd List.length INR self_dats self_showInfos self_radius].
  rewrite !fdiv_fin by lra. cbn [dot fmul fadd fneg].
  replace (- ((0 + 2) / 1 * 1 + (0 + -2) / 1 * 1 + (0 + 0) / 1 * 1)) with 0 by (field; lra).
  match goal with
  | |- context [dats_of ?s None 0%Z 0%Z] =>
      change (dats_of s None 0%Z 0%Z)
        with (Returned [(Fin 0, map fin3 ps)], @nil (message float64))
  end.
  cbn [self_sp rs_loop]. fold sp.
  change (rs_body orthogonal_projection _ false (Fin 0) (map fin3 ps))
    with (rs_body orthogonal_projection (Some sp) false (Fin 0) (map fin3 ps)).
  rewrite RadiusExamples.rs_body_item. cbn [obind fst snd app].
  eexists. eexists. reflexivity.
Qed.

Lemma eval_data_loop_ang_radius :
  exists self' log,
    eval_data_loop_ang to_diagonal orthogonal_projection self_radius [0%Z] 0
    = (Returned [Some [item]], self', log).
Proof.
  destruct eval_data_rs_radius_set_sp as (self' & log & E).
  cbn [eval_data_loop_ang]. rewrite E. eexists. eexists. reflexivity.
Qed.

Lemma eval_data_loop_ang_returns_witness :
  List.length [Some [item]] = List.length [0%Z]
  /\ Forall (fun r : option (list rs_item) => r <> None) [Some [item]]
  /\ forall ang, In ang [0%Z] ->
       exists dats apos, self_dats self_radius = Some dats /\ run_of dats ang 0 = Some apos.
Proof.
  destruct eval_data_loop_ang_radius as (self' & log & E).
  exact (@eval_data_loop_ang_returns to_diagonal orthogonal_projection self_radius self'
           [0%Z] 0%Z [Some [item]] log E).
Defined.

End RadiusLoopExamples.

(** ** [eval_data_dists] returns on positions of twelve points *)

Lemma get_sag_plane_dist_returns (sp : option plane) (P : vec) :
  exists v log, get_sag_plane_dist sp P = (Returned v, log).
Proof.
  destruct sp as [sp|]; cbn [get_sag_plane_dist]; [|eauto].
  destruct P as [[P0 P1] P2]. pose proof (dot4_nonneg sp) as Hn.
  destruct sp as [[[a b] c] d].
  destruct (math_sqrt_nonneg _ Hn) as (n & -> & _). cbn [obind]. eauto.
Qed.

Lemma dists_points_returns (sp : option plane) (pts : points float64) (ipts : list nat) :
  NoDup ipts ->
  Forall (fun k => k < List.length pts) ipts ->
  forall ds,
  Forall (fun k => Dict.get Nat.eqb k (self_dists ds) <> None) ipts ->
  exists ds' log,
    dists_points sp pts ipts ds = (Returned tt, ds', log)
    /\ forall k, Dict.get Nat.eqb k (self_dists ds) <> None ->
                 Dict.get Nat.eqb k (self_dists ds') <> None.
Proof.
  induction 1 as [|ipt rest Hnin Hnd IH]; intros Hlen ds Hkeys; cbn [dists_points].
  - eauto.
  - pose proof (Forall_inv Hlen) as Hi. pose proof (Forall_inv_tail Hlen) as Hlen'.
    pose proof (Forall_inv Hkeys) as Hk. pose proof (Forall_inv_tail Hkeys) as Hkeys'.
    cbn beta in Hi, Hk.
    destruct (Dict.get Nat.eqb ipt (self_dists ds)) as [col|] eqn:Eg; [|contradiction].
    unfold getitem. destruct (nth_error pts ipt) as [P|] eqn:EP.
    2:{ apply nth_error_None in EP. lia. }
    destruct (get_sag_plane_dist_returns sp P) as (v & log0 & ->).
    set (ds1 := mkDists (self_poss ds) (Dict.set Nat.eqb ipt (col ++ [v]) (self_dists ds))).
    assert (Hmono : forall k, Dict.get Nat.eqb k (self_dists ds) <> None ->
                              Dict.get Nat.eqb k (self_dists ds1) <> None).
    { intros k Hk'. cbn [self_dists ds1]. destruct (Nat.eq_dec k ipt) as [->|Hne].
      - rewrite dict_get_set_same by exact nat_eqb_eq. discriminate.
      - rewrite dict_get_set_other; [exact Hk'|exact nat_eqb_eq|exact Hne]. }
    destruct (IH Hlen' ds1) as (ds' & log1 & -> & Hmono').
    { eapply Forall_impl; [|exact Hkeys']. intros k. apply Hmono. }
    exists ds', (log0 ++ log1). split; [reflexivity|]. auto.
Qed.

Lemma dists_loop_returns (sp : option plane) (l : list (float64 * points float64)) :
  Forall (fun rec => 12 <= List.length (snd rec)) l ->
  forall ds,
  (forall ipt, ipt < 12 -> Dict.get Nat.eqb ipt (self_dists ds) <> None) ->
  exists ds' log, dists_loop sp l ds = (Returned tt, ds', log).
Proof.
  induction 1 as [|[pos pts] l Hlen _ IH]; intros ds Hkeys; cbn [dists_loop]; [eauto|].
  cbn [snd] in Hlen.
  set (ds1 := mkDists (self_poss ds ++ [pos]) (self_dists ds)).
  destruct (@dists_points_returns sp pts (seq 0 12) (seq_NoDup 12 0)) with (ds := ds1)
    as (ds2 & log1 & -> & Hmono).
  { apply Forall_forall. intros k Hk. apply in_seq in Hk. lia. }
  { apply Forall_forall. intros k Hk. apply in_seq in Hk. apply Hkeys. lia. }
  destruct (IH ds2) as (ds3 & log2 & ->).
  { intros ipt Hi. apply Hmono. cbn [self_dists ds1]. now apply Hkeys. }
  eauto.
Qed.

Module DistanceExamples.
Import TiltInputs.
Import EvaluationInputs.
Open Scope R_scope.

Lemma dats_of_flat (sp : option plane) :
  dats_of (mkSelf (Some (one_position pts_flat)) sp None false) None 0 0
  = (Returned [(Fin 0, pts_flat)], []).
Proof. reflexivity. Qed.

(** The twelve points of [pts_flat] against the plane z = 0. *)
Lemma eval_data_dists_flat :
  exists ds log,
    eval_data_dists
      (mkSelf (Some (one_position pts_flat)) (Some (Fin 0, Fin 0, Fin 1, Fin 0)) None false)
      0 0 None None
    = (Returned tt, Some ds, log).
Proof.
  unfold eval_data_dists. rewrite dats_of_flat. cbn [self_sp].
  destruct (@dists_loop_returns (Some (Fin 0, Fin 0, Fin 1, Fin 0)) [(Fin 0, pts_flat)])
    with (ds := mkDists [] dists_init) as (ds & log & ->).
  - repeat constructor.
  - intros ipt Hi. cbn [self_dists]. rewrite (dists_init_get Hi). discriminate.
  - eauto.
Qed.


Lemma eval_data_dists_without_plane_witness :
  exists ds,
    eval_data_dists (mkSelf (Some (one_position pts_flat)) None None false) 0 0 None None
    = (Returned tt, Some ds, [] ++ repeat ErrorPlaneNotSet (12 * 1))
    /\ self_poss ds = map fst [(Fin 0, pts_flat)]
    /\ forall ipt, (ipt < 12)%nat ->
         Dict.get Nat.eqb ipt (self_dists ds) = Some (repeat (Fin 0) 1).
Proof.
  apply (@eval_data_dists_without_plane
           (mkSelf (Some (one_position pts_flat)) None None false) 0%Z 0%Z None None
           [(Fin 0, pts_flat)] []).
  - reflexivity.
  - apply dats_of_flat.
  - repeat constructor.
Defined.

End DistanceExamples.
